(** * roomnl-stats: the forecasting pipeline of [pipeline/roomnl_model.py]
      and the segment loop of [pipeline/generate.py]

    The Python functions are embedded as Rocq functions over lists of rows
    and keep their names: [build_features], [trends_monthly_multiplier],
    [_aggregate_weekly], [fit_gp_with_calendar], [predict_daily],
    [fill_missing_with_gp], [add_prob_good_enough], [_fit_and_predict],
    [compute_all_predictions], [compute_stats].

    - A polars table is a list of records, a nullable column has an [option]
      type, a numpy array is a list.
    - A [float64] is an extended rational ([Float64.float]): a finite value
      is an exact rational, and the three special values of IEEE 754 are
      kept with their arithmetic (x/0, inf-inf, NaN propagation, comparisons
      with NaN false).  Rounding, overflow, underflow and the sign of zero
      are not represented: a statement about finite values is a statement
      about the exact result.
    - A polars [Date] is its number of days since 1970-01-01 (a [Z]).
    - scikit-learn ([StandardScaler], [GaussianProcessRegressor]) and the
      transcendental functions of [math] and [numpy] are interfaces
      ([SkLearn], [MathLib]); the pipeline and the theorems are written over
      any implementation of them.  [Reference] holds executable stand-ins,
      used to run the pipeline on concrete inputs.
    - A Python exception is a value [exn]; a function that can raise
      returns a [result].

    The file has the embedding first, then the tables as the specification
    words them, then the lemmas, and the properties C1 to C10 with their
    concrete runs; the further properties X1 to X26 and their concrete
    runs follow. *)

From Stdlib Require Import ZArith QArith Qabs Qround List String Ascii Bool Lia Lqa Sorted Permutation.
Import ListNotations.

Set Implicit Arguments.

Open Scope Z_scope.

(* ================================================================== *)
(** * Exceptions *)
(* ================================================================== *)

(** An exception: the name of its class and its message. *)
Record exn : Type := Raise { exn_class : string; exn_msg : string }.

Definition result (A : Type) : Type := (exn + A)%type.

Definition ok {A} (x : A) : result A := inr x.
Definition raise {A} (cls msg : string) : result A := inl (Raise cls msg).

Definition bind {A B} (c : result A) (k : A -> result B) : result B :=
  match c with
  | inl e => inl e
  | inr x => k x
  end.

Notation "x <- c ;; k" := (bind c (fun x => k))
  (at level 61, c at next level, right associativity).

Definition ValueError {A} (msg : string) : result A := raise "ValueError" msg.
Definition TypeError {A} (msg : string) : result A := raise "TypeError" msg.
Definition ShapeError {A} (msg : string) : result A := raise "ShapeError" msg.

(* ================================================================== *)
(** * float64 *)
(* ================================================================== *)

Module Float64.

Inductive float : Type :=
| Fin (q : Q)
| PInf
| NInf
| NaN.

Definition of_Z (z : Z) : float := Fin (inject_Z z).

Definition zero : float := Fin 0.
Definition one : float := Fin 1.

Definition Qsgn (q : Q) : Z := Z.sgn (Qnum q).

(** an infinity of the sign [s] (NaN for [s = 0]) *)
Definition inf_of_sign (s : Z) : float :=
  match s with
  | Z0 => NaN
  | Zpos _ => PInf
  | Zneg _ => NInf
  end.

Definition sign (x : float) : Z :=
  match x with
  | Fin q => Qsgn q
  | PInf => 1
  | NInf => -1
  | NaN => 0
  end.

Definition isfinite (x : float) : bool :=
  match x with
  | Fin _ => true
  | _ => false
  end.

Definition neg (x : float) : float :=
  match x with
  | Fin q => Fin (- q)
  | PInf => NInf
  | NInf => PInf
  | NaN => NaN
  end.

Definition add (x y : float) : float :=
  match x, y with
  | NaN, _ | _, NaN => NaN
  | Fin a, Fin b => Fin (a + b)
  | PInf, NInf | NInf, PInf => NaN
  | PInf, _ | _, PInf => PInf
  | NInf, _ | _, NInf => NInf
  end.

Definition sub (x y : float) : float := add x (neg y).

Definition mul (x y : float) : float :=
  match x, y with
  | NaN, _ | _, NaN => NaN
  | Fin a, Fin b => Fin (a * b)
  | _, _ => inf_of_sign (sign x * sign y)
  end.

(** [x / y]; numpy divides by zero without raising: a non-zero value over
    zero is an infinity, 0/0 is NaN. *)
Definition div (x y : float) : float :=
  match x, y with
  | NaN, _ | _, NaN => NaN
  | Fin a, Fin b =>
      if Qeq_bool b 0 then inf_of_sign (Qsgn a) else Fin (a / b)
  | Fin _, _ => Fin 0
  | _, Fin b => inf_of_sign (sign x * (if Qle_bool 0 b then 1 else -1))
  | _, _ => NaN
  end.

(** Comparisons; every comparison with NaN is false. *)
Definition leb (x y : float) : bool :=
  match x, y with
  | NaN, _ | _, NaN => false
  | Fin a, Fin b => Qle_bool a b
  | NInf, _ | _, PInf => true
  | _, _ => false
  end.

Definition eqb (x y : float) : bool :=
  match x, y with
  | Fin a, Fin b => Qeq_bool a b
  | PInf, PInf | NInf, NInf => true
  | _, _ => false
  end.

(** [x != y] of Python: true when either side is NaN. *)
Definition neqb (x y : float) : bool := negb (eqb x y).

Definition abs (x : float) : float :=
  match x with
  | Fin q => Fin (Qabs q)
  | PInf | NInf => PInf
  | NaN => NaN
  end.

(** [np.maximum] and [np.minimum]: a NaN operand gives NaN. *)
Definition maximum (x y : float) : float :=
  match x, y with
  | NaN, _ | _, NaN => NaN
  | _, _ => if leb x y then y else x
  end.

Definition minimum (x y : float) : float :=
  match x, y with
  | NaN, _ | _, NaN => NaN
  | _, _ => if leb x y then x else y
  end.

(** [np.clip(x, lo, hi)] is [minimum(maximum(x, lo), hi)]. *)
Definition clip (x lo hi : float) : float := minimum (maximum x lo) hi.

(** The same value: equal finite values, the same infinity, or both NaN. *)
Definition same (x y : float) : Prop :=
  match x, y with
  | Fin a, Fin b => a == b
  | PInf, PInf | NInf, NInf | NaN, NaN => True
  | _, _ => False
  end.

(** To the nearest integer, a half to the even neighbour. *)
Definition Qround_half_even (q : Q) : Z :=
  let f := Qfloor q in
  let r := (q - inject_Z f)%Q in
  if Qeq_bool r (1 # 2) then (if Z.even f then f else f + 1)
  else if Qle_bool r (1 # 2) then f else f + 1.

(** polars [round(decimals)], in its default mode [half_to_even]:
    [round(x * 10^d) / 10^d]. *)
Definition round (decimals : Z) (x : float) : float :=
  match x with
  | Fin q =>
      let m := inject_Z (10 ^ decimals) in
      Fin (inject_Z (Qround_half_even (q * m)) / m)
  | _ => x
  end.

Fixpoint sum (l : list float) : float :=
  match l with
  | [] => zero
  | x :: l' => add x (sum l')
  end.

End Float64.

Import Float64.

Declare Scope float_scope.
Delimit Scope float_scope with float.
Infix "+" := add : float_scope.
Infix "-" := sub : float_scope.
Infix "*" := mul : float_scope.
Infix "/" := div : float_scope.
Infix "<=?" := leb : float_scope.
Infix "=?" := eqb : float_scope.
Notation "- x" := (neg x) : float_scope.
Bind Scope float_scope with float.

(** Decimal literals of the source. *)
Definition f_1_96 : float := Fin (196 # 100).
Definition f_0_5 : float := Fin (1 # 2).
Definition f_2 : float := Fin 2.
Definition f_100 : float := Fin 100.
Definition f_1e_9 : float := Fin (1 # 1000000000).
Definition f_1e_6 : float := Fin (1 # 1000000).

(* ================================================================== *)
(** * Dates *)
(* ================================================================== *)

(** A polars [Date]: days since 1970-01-01 in the proleptic Gregorian
    calendar. *)
Module Date.

Definition date : Type := Z.

(** (year, month, day) of a day number. *)
Definition civil (z : date) : Z * Z * Z :=
  let z := z + 719468 in
  let era := z / 146097 in
  let doe := z - era * 146097 in
  let yoe := (doe - doe / 1460 + doe / 36524 - doe / 146096) / 365 in
  let doy := doe - (365 * yoe + yoe / 4 - yoe / 100) in
  let mp := (5 * doy + 2) / 153 in
  let d := doy - (153 * mp + 2) / 5 + 1 in
  let m := if mp <? 10 then mp + 3 else mp - 9 in
  let y := yoe + era * 400 in
  ((if m <=? 2 then y + 1 else y), m, d).

Definition year (z : date) : Z := fst (fst (civil z)).
Definition month (z : date) : Z := snd (fst (civil z)).
Definition day (z : date) : Z := snd (civil z).

(** The day number of a calendar date. *)
Definition of_ymd (y m d : Z) : date :=
  let y := if m <=? 2 then y - 1 else y in
  let era := y / 400 in
  let yoe := y - era * 400 in
  let mp := if 2 <? m then m - 3 else m + 9 in
  let doy := (153 * mp + 2) / 5 + d - 1 in
  let doe := yoe * 365 + yoe / 4 - yoe / 100 + doy in
  era * 146097 + doe - 719468.

(** [dt.ordinal_day()]: 1 for the first of January. *)
Definition ordinal_day (z : date) : Z := z - of_ymd (year z) 1 1 + 1.

(** [dt.truncate("1w")]: the Monday of the week (1970-01-01 is a Thursday). *)
Definition truncate_1w (z : date) : date := z - (z + 3) mod 7.

(** [pl.date_range(start, end, interval="1d", eager=True)]: both ends
    included; empty when [end] precedes [start]. *)
Definition date_range (start end_ : date) : list date :=
  map (fun i => start + Z.of_nat i) (seq 0 (Z.to_nat (end_ - start + 1))).

Definition digit (n : Z) : ascii := ascii_of_nat (48 + Z.to_nat (n mod 10)).

Definition digits2 (n : Z) : string :=
  String (digit (n / 10)) (String (digit n) EmptyString).

Definition digits4 (n : Z) : string :=
  String (digit (n / 1000)) (String (digit (n / 100)) (digits2 n)).

(** [cast(pl.Utf8)] of a date, for the years 0 to 9999. *)
Definition to_utf8 (z : date) : string :=
  (digits4 (year z) ++ "-" ++ digits2 (month z) ++ "-" ++ digits2 (day z))%string.

End Date.

Import Date.

(* ================================================================== *)
(** * Tables *)
(* ================================================================== *)

Section Tables.

Variables L R K : Type.

(** Equality of join keys: a null key matches nothing. *)
Definition key_match (eqb : K -> K -> bool) (a b : option K) : bool :=
  match a, b with
  | Some x, Some y => eqb x y
  | _, _ => false
  end.

(** [left.join(right, on=key, how="left")]: the rows of [left] in order,
    each paired with every matching row of [right], or with null when
    there is none. *)
Definition left_join (eqb : K -> K -> bool)
    (kl : L -> option K) (kr : R -> option K)
    (left : list L) (right : list R) : list (L * option R) :=
  flat_map
    (fun l =>
       match filter (fun r => key_match eqb (kl l) (kr r)) right with
       | [] => [(l, None)]
       | ms => map (fun r => (l, Some r)) ms
       end)
    left.

End Tables.

Section Unique.

Variables A K : Type.
Variable eqb : K -> K -> bool.
Variable key : A -> K.

(** [unique(subset=[key])]: one row for each key.  polars leaves open
    which of the rows of a key is kept ([keep="any"]); the first is kept
    here. *)
Fixpoint unique_from (seen : list K) (l : list A) : list A :=
  match l with
  | [] => []
  | x :: l' =>
      if existsb (eqb (key x)) seen then unique_from seen l'
      else x :: unique_from (key x :: seen) l'
  end.

Definition unique (l : list A) : list A := unique_from [] l.

Variable leb : K -> K -> bool.

Fixpoint insert_sorted (x : A) (l : list A) : list A :=
  match l with
  | [] => [x]
  | y :: l' => if leb (key x) (key y) then x :: l else y :: insert_sorted x l'
  end.

(** [sort(key)]; rows of one key keep their order (polars leaves their
    order open). *)
Definition sort (l : list A) : list A :=
  fold_right insert_sorted [] l.

End Unique.

Definition option_eqb {K} (eqb : K -> K -> bool) (a b : option K) : bool :=
  match a, b with
  | Some x, Some y => eqb x y
  | None, None => true
  | _, _ => false
  end.

(** Order of a sorted nullable column: nulls first. *)
Definition option_leb {K} (leb : K -> K -> bool) (a b : option K) : bool :=
  match a, b with
  | None, _ => true
  | Some _, None => false
  | Some x, Some y => leb x y
  end.

Fixpoint non_null {A} (l : list (option A)) : list A :=
  match l with
  | [] => []
  | Some x :: l' => x :: non_null l'
  | None :: l' => non_null l'
  end.

(** [fill_null(v)] *)
Definition fill_null {A} (v : A) (x : option A) : A :=
  match x with
  | Some y => y
  | None => v
  end.

(** polars [mean()] of a nullable float column: nulls are skipped, and the
    mean of no value is null. *)
Definition col_mean (l : list (option float)) : option float :=
  match non_null l with
  | [] => None
  | vs => Some (Float64.sum vs / of_Z (Z.of_nat (List.length vs)))%float
  end.

(** [np.mean] of an array. *)
Definition np_mean (l : list float) : float :=
  (Float64.sum l / of_Z (Z.of_nat (List.length l)))%float.

(** [float(x)] of a polars item that may be [None]. *)
Definition py_float (x : option float) : result float :=
  match x with
  | Some v => ok v
  | None =>
      TypeError "float() argument must be a string or a real number, not 'NoneType'"
  end.

(** An arithmetic operator between two one-dimensional numpy arrays:
    element by element, an array of one element being broadcast. *)
Definition np_binop (f : float -> float -> float) (a b : list float)
  : result (list float) :=
  if Nat.eqb (List.length a) (List.length b)
  then ok (map (fun p => f (fst p) (snd p)) (combine a b))
  else match a, b with
       | [x], _ => ok (map (f x) b)
       | _, [y] => ok (map (fun x => f x y) a)
       | _, _ => ValueError "operands could not be broadcast together"
       end.

(** [mm[~np.isfinite(mm)] = 1.0] *)
Definition replace_non_finite (mm : list float) : list float :=
  map (fun v => if isfinite v then v else one) mm.

(* ================================================================== *)
(** * Library interfaces *)
(* ================================================================== *)

(** The functions of [math] and [numpy] that have no rational value. *)
Class MathLib : Type := {
  math_pi : float;
  math_erf : float -> float;
  math_sqrt : float -> float;
  np_sin : float -> float;
  np_cos : float -> float;
  np_exp : float -> float;
  np_power : float -> float -> float
}.

(** The arguments of the [GaussianProcessRegressor] constructor. *)
Record gp_params : Type := {
  constant_value : float;
  constant_value_bounds : float * float;
  length_scale : float;
  length_scale_bounds : float * float;
  noise_level : float;
  noise_level_bounds : float * float;
  alpha : float;
  normalize_y : bool;
  n_restarts_optimizer : Z;
  random_state : Z
}.

(** scikit-learn.  A matrix is the list of its rows.  [gp_predict] is
    [predict(x, return_std=True)]; its value is the tuple it returns. *)
Class SkLearn : Type := {
  StandardScaler : Type;
  GaussianProcessRegressor : Type;
  fit_transform : list (list float) -> result (StandardScaler * list (list float));
  transform : StandardScaler -> list (list float) -> result (list (list float));
  gp_fit : gp_params -> list (list float) -> list float -> result GaussianProcessRegressor;
  gp_predict : GaussianProcessRegressor -> list (list float) -> result (list (list float))
}.

(* ================================================================== *)
(** * Rows of the tables *)
(* ================================================================== *)

(** A row of the recently-rented table, with the columns the models read.
    The label columns [city] and [type_of_room] hold no null: the rows
    are those of a table without a null label. *)
Module Listing.
Record row : Type := {
  contract_date : option date;
  registration_time : option Z;
  city : string;
  type_of_room : string
}.
End Listing.

(** A training row: [contract_date], [registration_time] without nulls. *)
Module Model.
Record row : Type := { contract_date : date; registration_time : Z }.
End Model.

Module Weekly.
Record row : Type := {
  week_start : date;
  contract_date : date;
  registration_time : float
}.
End Weekly.

Module Features.
Record row : Type := {
  contract_date : date;
  sin1 : float;
  cos1 : float;
  sin2 : float;
  cos2 : float;
  pre_sep : float;
  pre_feb : float;
  exam_jan : float;
  exam_jun : float;
  is_summer : Z;
  is_winter : Z
}.

(** [feats.drop("contract_date")] as a row of the float matrix. *)
Definition vector (r : row) : list float :=
  [sin1 r; cos1 r; sin2 r; cos2 r; pre_sep r; pre_feb r; exam_jan r;
   exam_jun r; of_Z (is_summer r); of_Z (is_winter r)].
End Features.

Module Train.
Record row : Type := { features : Features.row; y_deseasonal : float }.
End Train.

Module Trends.
Record row : Type := { month : option Z; value_mean : option float }.
End Trends.

Module Multiplier.
Record row : Type := { month : option Z; month_multiplier : option float }.
End Multiplier.

Module Prediction.
Record row : Type := {
  contract_date : date;
  pred_mean : float;
  pred_lo : float;
  pred_hi : float
}.
End Prediction.

Module Filled.
Record row : Type := {
  prediction : Prediction.row;
  registration_time : option Z;
  registration_time_filled : float;
  filled : bool
}.
End Filled.

Module Scored.
Record row : Type := {
  prediction : Prediction.row;
  my_time : float;
  prob_good_enough : float;
  ci_pct : float
}.
End Scored.

(** A prediction dict of [generate.py]. *)
Module Output.
Record row : Type := {
  contract_date : string;
  pred_mean : float;
  pred_lo : float;
  pred_hi : float;
  city : option string;
  type_of_room : option string
}.
End Output.

(* ================================================================== *)
(** * pipeline/roomnl_model.py *)
(* ================================================================== *)

Section RoomnlModel.

Context {M : MathLib} {SK : SkLearn}.

(** [_gauss_bump], on one element of the array. *)
Definition _gauss_bump (days_to_center sigma : float) : float :=
  let r := (days_to_center / sigma)%float in
  np_exp (Fin (- (1 # 2)) * (r * r))%float.

(** [_days_to_anchor], on one date: signed days to the anchor of the
    date's own year. *)
Definition _days_to_anchor (d : date) (month day : Z) : float :=
  of_Z (d - of_ymd (year d) month day).

Definition _erf_np (x : float) : float := math_erf x.

(** [np.vectorize(f)] called on the unpacked array ([*any_array]): the
    elements of the array are spread as the positional arguments of one
    call of [f].  [f] is [_erf_np], which has one parameter, so the call
    goes through for an array of one element, and its value is a scalar. *)
Definition _typed_vectorize (f : float -> float) (any_array : list float)
  : result float :=
  match any_array with
  | [x] => ok (f x)
  | [] => TypeError "missing 1 required positional argument: 'x'"
  | _ => TypeError "takes 1 positional argument but more were given"
  end.

Definition year_len : float := Fin (36525 # 100).

Definition features_of_date (d : date) : Features.row :=
  let two_pi := (f_2 * math_pi)%float in
  let doy := of_Z (ordinal_day d) in
  let month := Date.month d in
  let day := Date.day d in
  {| Features.contract_date := d;
     Features.sin1 := np_sin (doy * (two_pi / year_len))%float;
     Features.cos1 := np_cos (doy * (two_pi / year_len))%float;
     Features.sin2 := np_sin (doy * (f_2 * two_pi / year_len))%float;
     Features.cos2 := np_cos (doy * (f_2 * two_pi / year_len))%float;
     Features.pre_sep := _gauss_bump (_days_to_anchor d 9 1) (Fin 20);
     Features.pre_feb := _gauss_bump (_days_to_anchor d 2 1) (Fin 15);
     Features.exam_jan := _gauss_bump (_days_to_anchor d 1 31) (Fin 12);
     Features.exam_jun := _gauss_bump (_days_to_anchor d 6 30) (Fin 12);
     Features.is_summer :=
       if (month =? 7) || (month =? 8) then 1 else 0;
     Features.is_winter :=
       if ((month =? 12) && (20 <=? day)) || ((month =? 1) && (day <=? 7))
       then 1 else 0 |}.

(** [build_features]: one row for each date, in the order given. *)
Definition build_features (dates : list date) : list Features.row :=
  map features_of_date dates.

(* ---------------- trends monthly multiplier ---------------- *)

(** [np.arange(lo, hi)] *)
Definition arange (lo hi : Z) : list Z :=
  map (fun i => lo + Z.of_nat i) (seq 0 (Z.to_nat (hi - lo))).

(** [vals[(i + idx_template) % 12]]: indexing by an array of indices. *)
Definition take_indices (vals : list float) (idx : list Z) : list float :=
  map (fun k => nth (Z.to_nat k) vals NaN) idx.

Definition smooth (smooth_radius : Z) (vals : list float) : list float :=
  let idx_template := arange (- smooth_radius) (smooth_radius + 1) in
  map (fun i => np_mean (take_indices vals (map (fun k => (i + k) mod 12) idx_template)))
      (arange 0 12).

(** The values of [pl.Int32]. *)
Definition int32 (z : Z) : bool :=
  (- 2147483648 <=? z) && (z <=? 2147483647).

(** [pl.col("month").cast(pl.Int32)], a strict cast: it raises when a
    value does not fit; a null stays a null. *)
Definition cast_int32 (col : list (option Z)) : result (list (option Z)) :=
  if forallb (fun v => match v with
                       | Some z => int32 z
                       | None => true
                       end) col
  then ok col
  else raise "InvalidOperationError"
         "conversion from `i64` to `i32` failed in column 'month'".

(** The statements of [trends_monthly_multiplier] after the cast: the month
    scaffold 1..12 left-joined with the deduplicated, sorted input. *)
Definition scaffold (column : Trends.row -> option float)
    (trends_monthly : list Trends.row) : list (Z * option float) :=
  let s :=
    sort Trends.month (option_leb Z.leb)
      (unique (option_eqb Z.eqb) Trends.month trends_monthly) in
  map (fun p => (fst p, match snd p with
                        | Some r => column r
                        | None => None
                        end))
      (left_join Z.eqb (fun m => Some m) Trends.month (arange 1 13) s).

(** The values of the twelve months before smoothing and normalization:
    [mu] is the mean of the scaffold's column, and fills its nulls. *)
Definition filled_values (column : Trends.row -> option float)
    (trends_monthly : list Trends.row) : result (list float) :=
  let s := scaffold column trends_monthly in
  mu <- py_float (col_mean (map snd s)) ;;
  ok (map (fun p => fill_null mu (snd p)) s).

Definition trends_monthly_multiplier
    (trends_monthly : list Trends.row)
    (column : Trends.row -> option float)
    (strength : float) (smooth_radius : Z) : result (list Multiplier.row) :=
  _ <- cast_int32 (map Trends.month trends_monthly) ;;
  vals <- filled_values column trends_monthly ;;
  let vals := if 0 <? smooth_radius then smooth smooth_radius vals else vals in
  let mean := np_mean vals in
  let vals := map (fun v => v / mean)%float vals in
  let vals := if neqb strength one then map (fun v => np_power v strength) vals
              else vals in
  if Nat.eqb (List.length vals) 12
  then ok (map (fun p => {| Multiplier.month := Some (fst p);
                            Multiplier.month_multiplier := Some (snd p) |})
               (combine (arange 1 13) vals))
  else ShapeError "could not create a new DataFrame: height of column 'month_multiplier' does not match height of column 'month'".

(* ---------------- fit + predict ---------------- *)

(** [min()] of a date column; null when the column is empty. *)
Definition min_date (ds : list date) : option date :=
  match ds with
  | [] => None
  | d :: ds' => Some (fold_left Z.min ds' d)
  end.

(** [_aggregate_weekly]: one row for each week that has a row, with the
    earliest date of the week and the mean value; sorted by date.  (No
    group is empty, so the minimum of its dates is never null.) *)
Definition _aggregate_weekly (df : list Model.row) : list Weekly.row :=
  let week r := truncate_1w (Model.contract_date r) in
  let groups :=
    map (fun w => (w, filter (fun r => week r =? w) df))
        (unique Z.eqb (fun w => w) (map week df)) in
  sort Weekly.contract_date Z.leb
    (map (fun g =>
            let rows := snd g in
            {| Weekly.week_start := fst g;
               Weekly.contract_date :=
                 fill_null (fst g) (min_date (map Model.contract_date rows));
               Weekly.registration_time :=
                 np_mean (map (fun r => of_Z (Model.registration_time r)) rows) |})
         groups).

(** The month multiplier of each date: left join on the month,
    [fill_null(1.0)], then [mm[~np.isfinite(mm)] = 1.0].  The same
    statements stand in [fit_gp_with_calendar] and in [predict_daily]. *)
Definition month_multipliers (dates : list date)
    (month_mult : list Multiplier.row) : list float :=
  replace_non_finite
    (map (fun p => fill_null one
                     (match snd p with
                      | Some r => Multiplier.month_multiplier r
                      | None => None
                      end))
         (left_join Z.eqb (fun d => Some (Date.month d)) Multiplier.month
                    dates month_mult)).

Definition kernel_params : gp_params :=
  {| constant_value := one;
     constant_value_bounds := (Fin (1 # 1000), Fin 1000);
     length_scale := one;
     length_scale_bounds := (Fin (1 # 10), Fin 100);
     noise_level := Fin (1 # 10);
     noise_level_bounds := (f_1e_6, Fin 10);
     alpha := f_1e_6;
     normalize_y := true;
     n_restarts_optimizer := 5;
     random_state := 42 |}.

(** [feats.with_columns(y_deseasonal=pl.Series(y))] *)
Definition with_y_deseasonal (feats : list Features.row) (y : list float)
  : result (list Train.row) :=
  if Nat.eqb (List.length feats) (List.length y)
  then ok (map (fun p => {| Train.features := fst p; Train.y_deseasonal := snd p |})
               (combine feats y))
  else ShapeError "unable to add a column of different length".

(** The first statements of [fit_gp_with_calendar]: the features of the
    weekly rows and the targets [y], divided by the month multipliers when a
    multiplier table is given. *)
Definition training_targets (df : list Model.row)
    (month_mult : option (list Multiplier.row))
  : result (list Features.row * list float) :=
  let df_local := sort Model.contract_date Z.leb df in
  let df_weekly := _aggregate_weekly df_local in
  let feats := build_features (map Weekly.contract_date df_weekly) in
  let y := map Weekly.registration_time df_weekly in
  y <- match month_mult with
       | None => ok y
       | Some month_mult =>
           let mm :=
             month_multipliers (map Features.contract_date feats) month_mult in
           np_binop div y mm
       end ;;
  ok (feats, y).

Definition fit_gp_with_calendar (df : list Model.row)
    (month_mult : option (list Multiplier.row))
  : result (GaussianProcessRegressor * StandardScaler * list Train.row) :=
  fy <- training_targets df month_mult ;;
  let feats := fst fy in
  let y := snd fy in
  sx <- fit_transform (map Features.vector feats) ;;
  let scaler := fst sx in
  let x := snd sx in
  gp <- gp_fit kernel_params x y ;;
  x_train <- with_y_deseasonal feats y ;;
  ok (gp, scaler, x_train).

(** [pl.DataFrame] of four columns: their heights have to agree. *)
Definition data_frame4 (dates : list date) (mean lo hi : list float)
  : result (list Prediction.row) :=
  let n := List.length dates in
  if Nat.eqb (List.length mean) n && Nat.eqb (List.length lo) n
     && Nat.eqb (List.length hi) n
  then ok (map (fun p =>
                  {| Prediction.contract_date := fst (fst (fst p));
                     Prediction.pred_mean := snd (fst (fst p));
                     Prediction.pred_lo := snd (fst p);
                     Prediction.pred_hi := snd p |})
               (combine (combine (combine dates mean) lo) hi))
  else ShapeError "could not create a new DataFrame: heights of the columns differ".

(** The local function [prediction] of [predict_daily]. *)
Definition prediction (mean std : list float) (dates : list date)
  : result (list Prediction.row) :=
  lo <- np_binop sub mean (map (mul f_1_96) std) ;;
  let lo := map (fun v => maximum v zero) lo in
  hi <- np_binop add mean (map (mul f_1_96) std) ;;
  data_frame4 dates mean lo hi.

(** [x_raw] of [predict_daily]: the feature matrix of a date range. *)
Definition x_raw_of (start end_ : date) : list (list float) :=
  map Features.vector (build_features (date_range start end_)).

Definition predict_daily (gp : GaussianProcessRegressor)
    (scaler : StandardScaler) (start end_ : date)
    (month_mult : option (list Multiplier.row))
  : result (list Prediction.row) :=
  let dates := date_range start end_ in
  let x_raw := x_raw_of start end_ in
  x <- transform scaler x_raw ;;
  out <- gp_predict gp x ;;
  match out with
  | [mean_ds; std_ds] =>
      match month_mult with
      | None => prediction mean_ds std_ds dates
      | Some month_mult =>
          let mm := month_multipliers dates month_mult in
          mean <- np_binop mul mean_ds mm ;;
          std <- np_binop mul std_ds mm ;;
          prediction mean std dates
      end
  | _ => ValueError "GP prediction failed; check input data."
  end.

(* ---------------- fill + score ---------------- *)

Definition fill_missing_with_gp (df_obs : list Listing.row)
    (df_pred : list Prediction.row) : list Filled.row :=
  map (fun p =>
         let registration_time :=
           match snd p with
           | Some o => Listing.registration_time o
           | None => None
           end in
         {| Filled.prediction := fst p;
            Filled.registration_time := registration_time;
            Filled.registration_time_filled :=
              match registration_time with
              | Some v => of_Z v
              | None => Prediction.pred_mean (fst p)
              end;
            Filled.filled :=
              match registration_time with
              | Some _ => false
              | None => true
              end |})
      (left_join Z.eqb (fun r => Some (Prediction.contract_date r))
                 Listing.contract_date df_pred df_obs).

Inductive direction : Type := at_least | at_most.

Definition add_prob_good_enough (df_pred : list Prediction.row)
    (my_time_fn : date -> float) (direction : direction)
  : result (list Scored.row) :=
  let with_my :=
    map (fun r => (r, my_time_fn (Prediction.contract_date r))) df_pred in
  let lo := map (fun p => Prediction.pred_lo (fst p)) with_my in
  let hi := map (fun p => Prediction.pred_hi (fst p)) with_my in
  let mu := map (fun p => Prediction.pred_mean (fst p)) with_my in
  let m := map snd with_my in
  hl <- np_binop sub hi lo ;;
  let sigma := map (fun v => maximum (v / (f_2 * f_1_96)) f_1e_9)%float hl in
  mmu <- np_binop sub m mu ;;
  z <- np_binop div mmu sigma ;;
  e <- _typed_vectorize _erf_np (map (fun v => v / math_sqrt f_2)%float z) ;;
  let cdf := (f_0_5 * (one + e))%float in
  let prob := match direction with
              | at_least => cdf
              | at_most => (one - cdf)%float
              end in
  denom <- np_binop sub hi lo ;;
  mlo <- np_binop sub m lo ;;
  q <- np_binop div mlo denom ;;
  let ci_pos := map (fun v => clip v zero one) q in
  let prob_col := (prob * f_100)%float in
  let ci_col := map (fun v => v * f_100)%float ci_pos in
  if Nat.eqb (List.length ci_col) (List.length with_my)
  then ok (map (fun p =>
                  {| Scored.prediction := fst (fst p);
                     Scored.my_time := snd (fst p);
                     Scored.prob_good_enough := prob_col;
                     Scored.ci_pct := snd p |})
               (combine with_my ci_col))
  else ShapeError "unable to hstack, heights of the frames differ".

End RoomnlModel.

(* ================================================================== *)
(** * pipeline/generate.py *)
(* ================================================================== *)

Section Generate.

Context {M : MathLib} {SK : SkLearn}.

(** [dt.date.today()] *)
Variable today : date.

Definition MIN_ROWS_FOR_GP : Z := 20.

(** [df.select("contract_date", "registration_time").drop_nulls()] *)
Fixpoint drop_nulls (df : list Listing.row) : list Model.row :=
  match df with
  | [] => []
  | r :: df' =>
      match Listing.contract_date r, Listing.registration_time r with
      | Some d, Some v =>
          {| Model.contract_date := d; Model.registration_time := v |}
            :: drop_nulls df'
      | _, _ => drop_nulls df'
      end
  end.

Definition label (city type_of_room : option string) (r : Prediction.row)
  : Output.row :=
  {| Output.contract_date := to_utf8 (Prediction.contract_date r);
     Output.pred_mean := round 1 (Prediction.pred_mean r);
     Output.pred_lo := round 1 (Prediction.pred_lo r);
     Output.pred_hi := round 1 (Prediction.pred_hi r);
     Output.city := city;
     Output.type_of_room := type_of_room |}.

Definition _fit_and_predict (df : list Listing.row) (horizon_days : Z)
    (city type_of_room : option string) : result (list Output.row) :=
  let model_df := drop_nulls df in
  if Z.of_nat (List.length model_df) <? MIN_ROWS_FOR_GP then ok []
  else
    match fit_gp_with_calendar model_df None with
    | inl _ => ok []
    | inr (gp, scaler, _) =>
        start <- match min_date (map Model.contract_date model_df) with
                 | Some d => ok d
                 | None => TypeError "start of the date range is None"
                   (* not reached: model_df has 20 rows or more *)
                 end ;;
        let end_ := today + horizon_days in
        preds <- predict_daily gp scaler start end_ None ;;
        ok (map (label city type_of_room) preds)
    end.

(** [results.extend(_fit_and_predict(...))] for each segment in turn. *)
Fixpoint extend_all (results : list Output.row) (horizon_days : Z)
    (segments : list (list Listing.row * option string * option string))
  : result (list Output.row) :=
  match segments with
  | [] => ok results
  | (df, city, type_of_room) :: rest =>
      rows <- _fit_and_predict df horizon_days city type_of_room ;;
      extend_all (results ++ rows) horizon_days rest
  end.

Definition pair_leb (a b : string * string) : bool :=
  if String.eqb (fst a) (fst b) then String.leb (snd a) (snd b)
  else String.leb (fst a) (fst b).

Definition pair_eqb (a b : string * string) : bool :=
  String.eqb (fst a) (fst b) && String.eqb (snd a) (snd b).

(** The segments of [compute_all_predictions], in the order they are
    fitted: the whole table, each city, each (city, type_of_room); for a
    table whose label columns hold no null (see [sorted_cities] for a
    nullable city column). *)
Definition segments_of (df : list Listing.row)
  : list (list Listing.row * option string * option string) :=
  let cities :=
    sort (fun c => c) String.leb
      (unique String.eqb (fun c => c) (map Listing.city df)) in
  let combos :=
    sort (fun c => c) pair_leb
      (unique pair_eqb (fun c => c)
         (map (fun r => (Listing.city r, Listing.type_of_room r)) df)) in
  (df, None, None)
    :: map (fun city =>
              (filter (fun r => String.eqb (Listing.city r) city) df,
               Some city, None))
           cities
    ++ map (fun row =>
              (filter (fun r => String.eqb (Listing.city r) (fst row)
                                && String.eqb (Listing.type_of_room r) (snd row))
                      df,
               Some (fst row), Some (snd row)))
           combos.

Definition compute_all_predictions (df : list Listing.row) (horizon_days : Z)
  : result (list Output.row) :=
  extend_all [] horizon_days (segments_of df).

End Generate.

(** [sorted(df["city"].unique().to_list())] on the column as polars holds
    it, with nulls: Python orders the names, and raises TypeError when it
    has to compare [None] with a name; a list of one element is returned
    as it is.  [segments_of] is the loop on a table whose label columns
    have no null. *)
Definition sorted_cities (col : list (option string))
  : result (list (option string)) :=
  let cities := unique (option_eqb String.eqb) (fun c => c) col in
  match cities with
  | [] | [_] => ok cities
  | _ =>
      if forallb (fun c : option string => match c with
                                           | Some _ => true
                                           | None => false
                                           end) cities
      then ok (map Some (sort (fun c => c) String.leb (non_null cities)))
      else TypeError "'<' not supported between instances of 'NoneType' and 'str'"
  end.

(* ================================================================== *)
(** * pipeline/generate.py: the statistics *)
(* ================================================================== *)

(** The table [recently_rented] with the columns [compute_stats] reads
    beside those of the models. *)
Module Rented.
Record row : Type := {
  listing : Listing.row;
  num_reactions : option Z;
  priority : option bool
}.
End Rented.

Module Stats.
Record row : Type := {
  city : string;
  type_of_room : string;
  count : Z;
  median_reg_days : option float;
  mean_reg_days : option float;
  min_reg_days : option Z;
  max_reg_days : option Z;
  median_reactions : option float;
  pct_priority : option float
}.
End Stats.

(** polars [min()] and [max()] of a nullable integer column: nulls are
    skipped; null when no value is left. *)
Definition col_min (l : list (option Z)) : option Z :=
  match non_null l with
  | [] => None
  | v :: vs => Some (fold_left Z.min vs v)
  end.

Definition col_max (l : list (option Z)) : option Z :=
  match non_null l with
  | [] => None
  | v :: vs => Some (fold_left Z.max vs v)
  end.

(** polars [median()] of a nullable integer column, a float: the middle
    value, or the mean of the two middle values. *)
Definition col_median (l : list (option Z)) : option float :=
  let vs := sort (fun v => v) Z.leb (non_null l) in
  let n := List.length vs in
  match vs with
  | [] => None
  | _ :: _ =>
      if Nat.even n
      then Some ((of_Z (nth (n / 2 - 1)%nat vs 0) + of_Z (nth (n / 2)%nat vs 0))
                 / f_2)%float
      else Some (of_Z (nth (n / 2)%nat vs 0))
  end.

(** A nullable integer column read as floats, and a Boolean column as
    0.0 and 1.0. *)
Definition as_float (l : list (option Z)) : list (option float) :=
  map (option_map of_Z) l.

Definition bool_as_float (l : list (option bool)) : list (option float) :=
  map (option_map (fun b : bool => if b then one else zero)) l.

(** [compute_stats]: [group_by("city", "type_of_room")], the aggregates of
    each group, and [sort("city", "type_of_room")]. *)
Definition compute_stats (df : list Rented.row) : list Stats.row :=
  let key r :=
    (Listing.city (Rented.listing r), Listing.type_of_room (Rented.listing r)) in
  let groups := unique pair_eqb (fun k => k) (map key df) in
  let stats :=
    map (fun k =>
           let rows := filter (fun r => pair_eqb (key r) k) df in
           let registration_time :=
             map (fun r => Listing.registration_time (Rented.listing r)) rows in
           {| Stats.city := fst k;
              Stats.type_of_room := snd k;
              Stats.count := Z.of_nat (List.length rows);
              Stats.median_reg_days := col_median registration_time;
              Stats.mean_reg_days := col_mean (as_float registration_time);
              Stats.min_reg_days := col_min registration_time;
              Stats.max_reg_days := col_max registration_time;
              Stats.median_reactions :=
                col_median (map Rented.num_reactions rows);
              Stats.pct_priority :=
                option_map (fun v => v * f_100)%float
                  (col_mean (bool_as_float (map Rented.priority rows))) |})
        groups in
  sort (fun s => (Stats.city s, Stats.type_of_room s)) pair_leb stats.

(* ================================================================== *)
(** * Stand-ins for the libraries *)
(* ================================================================== *)

(** Executable implementations of the two interfaces, used to run the
    pipeline on concrete inputs.  The transcendental functions are
    low-degree rational approximations; the regression model predicts
    the same mean and standard deviation at every point.  Both reject an
    empty matrix, as the input validation of scikit-learn does. *)
Module Reference.

Definition lift (f : Q -> Q) (at_pinf at_ninf : float) (x : float) : float :=
  match x with
  | Fin q => Fin (f q)
  | PInf => at_pinf
  | NInf => at_ninf
  | NaN => NaN
  end.

Definition power (v s : float) : float :=
  match v, s with
  | Fin a, Fin b =>
      if Z.eqb (Zpos (Qden b)) 1
      then (if Qeq_bool a 0 && (Qnum b <? 0)%Z then PInf else Fin (Qpower a (Qnum b)))
      else NaN
  | _, _ => NaN
  end.

Definition math : MathLib :=
  {| math_pi := Fin (355 # 113);
     math_erf := lift (fun q => q / (1 + Qabs q))%Q one (Fin (-1));
     math_sqrt := fun x => if (zero <=? x)%float
                          then lift (fun q => (q + 1) / 2)%Q PInf NaN x
                          else NaN;
     np_sin := lift (fun q => q - q * q * q / 6)%Q NaN NaN;
     np_cos := lift (fun q => 1 - q * q / 2)%Q NaN NaN;
     np_exp := lift (fun q => 1 + q + q * q / 2)%Q PInf zero;
     np_power := power |}.

Definition check_array (x : list (list float)) : result unit :=
  match x with
  | [] => ValueError "Found array with 0 sample(s) while a minimum of 1 is required."
  | _ => ok tt
  end.

Definition sklearn : SkLearn :=
  {| StandardScaler := unit;
     GaussianProcessRegressor := (float * float)%type;
     fit_transform := fun x => _ <- check_array x ;; ok (tt, x);
     transform := fun _ x => _ <- check_array x ;; ok x;
     gp_fit := fun _ x y =>
       _ <- check_array x ;;
       if negb (Nat.eqb (List.length x) (List.length y))
       then ValueError "Found input variables with inconsistent numbers of samples"
       else if forallb isfinite y then ok (np_mean y, one)
       else ValueError "Input y contains NaN or infinity.";
     gp_predict := fun g x =>
       _ <- check_array x ;;
       ok [map (fun _ => fst g) x; map (fun _ => snd g) x] |}.

End Reference.

(* ================================================================== *)
(** * The tables as the specification describes them *)
(* ================================================================== *)

(** A table is keyed by a nullable column when no non-null key occurs
    twice. *)
Definition keyed {A K} (key : A -> option K) (t : list A) : Prop :=
  NoDup (non_null (map key t)).

(** The row of a table for a key, if there is one. *)
Definition lookup {A K} (eqb : K -> K -> bool) (key : A -> option K)
    (k : K) (t : list A) : option A :=
  find (fun r => key_match eqb (Some k) (key r)) t.

(** The observed value for a date: the [registration_time] of the row of
    the observed table for that date, when there is such a row and its
    value is not null. *)
Definition observed_value (df_obs : list Listing.row) (d : date) : option Z :=
  match lookup Z.eqb Listing.contract_date d df_obs with
  | Some o => Listing.registration_time o
  | None => None
  end.

(** The filled row of a prediction, in the words of the specification. *)
Definition fill_row_spec (df_obs : list Listing.row) (p : Prediction.row)
  : Filled.row :=
  match observed_value df_obs (Prediction.contract_date p) with
  | Some v =>
      {| Filled.prediction := p;
         Filled.registration_time := Some v;
         Filled.registration_time_filled := of_Z v;
         Filled.filled := false |}
  | None =>
      {| Filled.prediction := p;
         Filled.registration_time := None;
         Filled.registration_time_filled := Prediction.pred_mean p;
         Filled.filled := true |}
  end.

(** The multiplier of a date under a multiplier table: the multiplier of
    the date's month when the table has a finite one, and 1.0 otherwise. *)
Definition multiplier_of (month_mult : list Multiplier.row) (d : date) : float :=
  match lookup Z.eqb Multiplier.month (Date.month d) month_mult with
  | Some r =>
      match Multiplier.month_multiplier r with
      | Some v => if isfinite v then v else one
      | None => one
      end
  | None => one
  end.

(** The value a trends table provides for a month. *)
Definition provided_value (column : Trends.row -> option float)
    (trends_monthly : list Trends.row) (m : Z) : option float :=
  match lookup Z.eqb Trends.month m trends_monthly with
  | Some r => column r
  | None => None
  end.

(** The values provided for the months 1 to 12, in calendar order. *)
Definition provided_values (column : Trends.row -> option float)
    (trends_monthly : list Trends.row) : list float :=
  non_null (map (provided_value column trends_monthly) (arange 1 13)).

(** The multipliers of a multiplier table, as an array. *)
Definition multipliers (rows : list Multiplier.row) : list float :=
  non_null (map Multiplier.month_multiplier rows).

Fixpoint Qsum (l : list Q) : Q :=
  match l with
  | [] => 0
  | q :: l' => q + Qsum l'
  end.

(** An operator applied element by element to two arrays of one length. *)
Definition zip_with (f : float -> float -> float) (a b : list float) : list float :=
  map (fun p => f (fst p) (snd p)) (combine a b).

(** An array as it is broadcast against an array of [n] elements. *)
Definition broadcast_to (n : nat) (b : list float) : list float :=
  if Nat.eqb (List.length b) n then b else repeat (hd NaN b) n.

(** The row of a date with a mean [m] and a half-width [t] of the
    interval. *)
Definition prediction_row (d : date) (m t : float) : Prediction.row :=
  {| Prediction.contract_date := d;
     Prediction.pred_mean := m;
     Prediction.pred_lo := maximum (m - t) zero;
     Prediction.pred_hi := (m + t)%float |}.

Definition prediction_rows (dates : list date) (mean ts : list float)
  : list Prediction.row :=
  map (fun p => prediction_row (fst (fst p)) (snd (fst p)) (snd p))
      (combine (combine dates mean) ts).

(** The prediction row of a date when the mean [m] and the standard
    deviation [s] of the model are both multiplied by the multiplier of
    the date. *)
Definition reseasonalized_row (month_mult : list Multiplier.row)
    (d : date) (m s : float) : Prediction.row :=
  let k := multiplier_of month_mult d in
  prediction_row d (m * k)%float (f_1_96 * (s * k))%float.

(** The weekly rows a table is fitted on. *)
Definition weekly_rows (df : list Model.row) : list Weekly.row :=
  _aggregate_weekly (sort Model.contract_date Z.leb df).

(** The target of a weekly row under a multiplier table, in the words of
    the specification: the weekly value over the multiplier of its month. *)
Definition deseasonalized (month_mult : list Multiplier.row) (w : Weekly.row)
  : float :=
  (Weekly.registration_time w / multiplier_of month_mult (Weekly.contract_date w))%float.

(** A segment with fewer than 20 rows that have a date and a value. *)
Definition small (df : list Listing.row) : Prop :=
  Z.of_nat (List.length (drop_nulls df)) < 20.

(** A window of values of a rational array, by indices. *)
Definition qtake (qs : list Q) (idx : list Z) : list Q :=
  map (fun k => nth (Z.to_nat k) qs 0%Q) idx.

(** The sum of the windows of the twelve months for a template of index
    offsets. *)
Definition window_sums (qs : list Q) (idx : list Z) : list Q :=
  map (fun i => Qsum (qtake qs (map (fun k => (i + k) mod 12) idx)))
      (arange 0 12).

(** The multipliers computed from the twelve filled values: smoothed when
    the radius is positive, divided by their mean, and raised to the power
    [strength] when it is not 1.0. *)
Definition profile_values {M : MathLib} (strength : float) (smooth_radius : Z)
    (vals : list float) : list float :=
  let vals := if 0 <? smooth_radius then smooth smooth_radius vals else vals in
  let vals := map (fun v => v / np_mean vals)%float vals in
  if neqb strength one then map (fun v => np_power v strength) vals else vals.

Definition multiplier_row (p : Z * float) : Multiplier.row :=
  {| Multiplier.month := Some (fst p);
     Multiplier.month_multiplier := Some (snd p) |}.

(** The filled value of a month, in the words of the specification: the
    value provided for the month, or the mean of the provided values. *)
Definition filled_value_spec (column : Trends.row -> option float)
    (trends_monthly : list Trends.row) (m : Z) : float :=
  match provided_value column trends_monthly m with
  | Some v => v
  | None => np_mean (provided_values column trends_monthly)
  end.

(** A row of a trends table. *)
Definition trend (m : Z) (v : Q) : Trends.row :=
  {| Trends.month := Some m; Trends.value_mean := Some (Fin v) |}.

(** The trends table of the months 1, 6 and 12 with the values 100, 50
    and 75. *)
Definition three_months : list Trends.row :=
  [trend 1 100; trend 6 50; trend 12 75].

(** A prediction row with finite values. *)
Definition finite_row (d : date) (mean lo hi : Q) : Prediction.row :=
  {| Prediction.contract_date := d;
     Prediction.pred_mean := Fin mean;
     Prediction.pred_lo := Fin lo;
     Prediction.pred_hi := Fin hi |}.

(* ---------------- concrete inputs ---------------- *)

(** A regression model of the stand-in library that predicts the mean
    [mean] and the standard deviation [std] everywhere. *)
Definition constant_model (mean std : Q)
  : @GaussianProcessRegressor Reference.sklearn := (Fin mean, Fin std).

Definition fitted_scaler : @StandardScaler Reference.sklearn := tt.

(** 2024-01-01, a Monday, and 2025-07-01. *)
Definition d_2024_01_01 : date := 19723.
Definition d_2025_07_01 : date := 20270.

Definition multiplier (m : Z) (v : float) : Multiplier.row :=
  {| Multiplier.month := Some m; Multiplier.month_multiplier := Some v |}.

(** A partial multiplier table: July only. *)
Definition july_only : list Multiplier.row := [multiplier 7 (Fin 2)].

(** A multiplier table with a non-finite and a zero multiplier. *)
Definition january_nan_february_zero : list Multiplier.row :=
  [multiplier 1 NaN; multiplier 2 (Fin 0)].

Definition training_row (d : date) (v : Z) : Model.row :=
  {| Model.contract_date := d; Model.registration_time := v |}.

(** Three observations: two in the first week of January 2024, one in the
    first week of February 2024. *)
Definition three_observations : list Model.row :=
  [training_row 19723 500; training_row 19725 700; training_row 19758 900].

Definition listing (d : option date) (v : option Z) (city room : string)
  : Listing.row :=
  {| Listing.contract_date := d; Listing.registration_time := v;
     Listing.city := city; Listing.type_of_room := room |}.

(** A segment of three listings, one of them without a value. *)
Definition small_segment : list Listing.row :=
  [listing (Some 19723) (Some 500) "Delft" "Studio";
   listing (Some 19724) None "Delft" "Studio";
   listing (Some 19725) (Some 700) "Delft" "Room"].

(** An observation that can match a prediction: its date is not null and
    is the date of a prediction row. *)
Definition matches_a_prediction (df_pred : list Prediction.row)
    (o : Listing.row) : bool :=
  match Listing.contract_date o with
  | Some d => existsb (fun p => Prediction.contract_date p =? d) df_pred
  | None => false
  end.

(** The standardized distance of a target [m] from the mean of a row. *)
Definition z_score {M : MathLib} (r : Prediction.row) (m : float) : float :=
  ((m - Prediction.pred_mean r)
   / maximum ((Prediction.pred_hi r - Prediction.pred_lo r) / (f_2 * f_1_96))
             f_1e_9)%float.

(** The scored row of a table of one row. *)
Definition score_row {M : MathLib} (r : Prediction.row) (m : float) (dir : direction)
  : Scored.row :=
  let cdf := (f_0_5 * (one + math_erf (z_score r m / math_sqrt f_2)))%float in
  {| Scored.prediction := r;
     Scored.my_time := m;
     Scored.prob_good_enough :=
       (match dir with
        | at_least => cdf
        | at_most => one - cdf
        end * f_100)%float;
     Scored.ci_pct :=
       (clip ((m - Prediction.pred_lo r)
              / (Prediction.pred_hi r - Prediction.pred_lo r)) zero one
        * f_100)%float |}.

(** [n] integers between [lo] and [hi] add up without rounding in
    float64, in any order: no partial sum is beyond 2^53, and [lo] and
    [hi] are float64 values themselves. *)
Definition sums_exactly (n lo hi : Z) : Prop :=
  n * Z.max (Z.abs lo) (Z.abs hi) <= 2 ^ 53.

(** A value far from the ends of the range of float64: at least 2^-300
    and at most 2^300. *)
Definition moderate (q : Q) : Prop :=
  (1 # (2 ^ 300)%positive <= q <= inject_Z (2 ^ 300))%Q.

(** The months of a trends table are values of Int32. *)
Definition months_fit_int32 (trends_monthly : list Trends.row) : bool :=
  forallb (fun r => match Trends.month r with
                    | Some z => int32 z
                    | None => true
                    end) trends_monthly.

(** A row of a trends table whose month is one of 1..12. *)
Definition month_in_range (r : Trends.row) : bool :=
  match Trends.month r with
  | Some m => (1 <=? m) && (m <=? 12)
  | None => false
  end.

(** The multiplier table has two rows or more for the month of a date. *)
Definition month_doubled (month_mult : list Multiplier.row) (d : date) : Prop :=
  (2 <= List.length
          (filter (fun r => key_match Z.eqb (Some (Date.month d))
                              (Multiplier.month r))
                  month_mult))%nat.

(** The labels of a segment: its city and its type of room. *)
Definition labels_of (seg : list Listing.row * option string * option string)
  : option string * option string :=
  (snd (fst seg), snd seg).

(** A listing carries the labels of a segment (a label [None] asks
    nothing). *)
Definition carries (r : Listing.row) (c t : option string) : Prop :=
  (forall c', c = Some c' -> Listing.city r = c')
  /\ (forall t', t = Some t' -> Listing.type_of_room r = t').

(** The days of the months of a year that is not a leap year. *)
Definition month_lengths : list Z := [31; 28; 31; 30; 31; 30; 31; 31; 30; 31; 30; 31].

(** A (month, day) that exists in every year. *)
Definition anchor_ok (month day : Z) : bool :=
  (1 <=? month) && (month <=? 12) && (1 <=? day)
  && (day <=? nth (Z.to_nat (month - 1)) month_lengths 0).

(** The group of a listing. *)
Definition group_of (r : Rented.row) : string * string :=
  (Listing.city (Rented.listing r), Listing.type_of_room (Rented.listing r)).

(** The sum of a list of integers. *)
Definition Zsum (l : list Z) : Z := fold_right Z.add 0 l.

(** Twenty listings of one city and one type of room, one a week from
    2024-01-01 on. *)
Definition twenty_listings : list Listing.row :=
  map (fun i => listing (Some (d_2024_01_01 + 7 * Z.of_nat i))
                        (Some (500 + Z.of_nat i)) "Delft" "Studio")
      (seq 0 20).

(** [|x - y| <= tol] *)
Definition within (tol x y : float) : bool := (abs (x - y) <=? tol)%float.

(** The bounds of a prediction row are ordered: [0 <= lo <= mean <= hi]. *)
Definition bounds_ordered (r : Prediction.row) : bool :=
  (zero <=? Prediction.pred_lo r)%float
  && (Prediction.pred_lo r <=? Prediction.pred_mean r)%float
  && (Prediction.pred_mean r <=? Prediction.pred_hi r)%float.

(** A finite value that is not negative. *)
Definition nonneg_finite (x : float) : bool := isfinite x && (zero <=? x)%float.

(** A percentage: a value of the interval [0, 100]. *)
Definition percentage (x : float) : bool :=
  (zero <=? x)%float && (x <=? f_100)%float.

(* ================================================================== *)
(** * Float arithmetic *)
(* ================================================================== *)

Lemma leb_Fin (a b : Q) : (Fin a <=? Fin b)%float = true <-> (a <= b)%Q.
Proof. apply Qle_bool_iff. Qed.

Lemma leb_Fin_false (a b : Q) : (Fin a <=? Fin b)%float = false <-> (b < a)%Q.
Proof.
  simpl. split; intro H.
  - apply Qnot_le_lt. intro Hle. apply Qle_bool_iff in Hle. congruence.
  - destruct (Qle_bool a b) eqn:E; [|reflexivity].
    apply Qle_bool_iff in E. lra.
Qed.

Lemma nonneg_finite_inv (x : float) :
  nonneg_finite x = true -> exists q, x = Fin q /\ (0 <= q)%Q.
Proof.
  destruct x as [q| | |]; simpl; try discriminate.
  intro H. exists q. split; [reflexivity|]. now apply Qle_bool_iff.
Qed.

Lemma div_one (x : float) : same (x / one)%float x.
Proof.
  destruct x as [q| | |]; simpl; auto. field.
Qed.

Lemma mul_one (x : float) : same (x * one)%float x.
Proof.
  destruct x as [q| | |]; simpl; auto. ring.
Qed.

(* ================================================================== *)
(** * Lists and tables *)
(* ================================================================== *)

Lemma length_date_range (s e : date) :
  List.length (date_range s e) = Z.to_nat (e - s + 1).
Proof. unfold date_range. now rewrite length_map, length_seq. Qed.

Lemma date_range_empty (s e : date) : e < s -> date_range s e = [].
Proof.
  intro H. unfold date_range.
  replace (Z.to_nat (e - s + 1)) with 0%nat by lia. reflexivity.
Qed.

Lemma date_range_ascending (s e : date) :
  StronglySorted Z.lt (date_range s e).
Proof.
  unfold date_range. generalize (Z.to_nat (e - s + 1)) as n.
  generalize 0%nat as a. intros a n. revert a.
  induction n as [|n IH]; intro a; simpl; constructor.
  - apply IH.
  - apply Forall_forall. intros x Hx.
    apply in_map_iff in Hx. destruct Hx as [i [<- Hi]].
    apply in_seq in Hi. lia.
Qed.

Lemma non_null_In {A} (l : list (option A)) (x : A) :
  In x (non_null l) <-> In (Some x) l.
Proof.
  induction l as [|[y|] l IH]; simpl.
  - tauto.
  - rewrite IH. split; intros [H|H]; auto; left; congruence.
  - rewrite IH. split; [auto | intros [H|H]; [discriminate | exact H]].
Qed.

Lemma non_null_Permutation {A} (l l' : list (option A)) :
  Permutation l l' -> Permutation (non_null l) (non_null l').
Proof.
  induction 1 as [| [x|] l l' _ IH | [x|] [y|] l | l1 l2 l3 _ IH1 _ IH2]; simpl;
    try reflexivity; auto.
  - constructor.
  - etransitivity; eassumption.
Qed.

Lemma NoDup_non_null {A} (l : list (option A)) : NoDup l -> NoDup (non_null l).
Proof.
  induction 1 as [|[x|] l Hin _ IH]; simpl; [constructor | | exact IH].
  constructor; [|exact IH]. now rewrite non_null_In.
Qed.

Lemma keyed_Permutation {A K} (key : A -> option K) (t t' : list A) :
  Permutation t t' -> keyed key t -> keyed key t'.
Proof.
  unfold keyed. intros HP HN.
  eapply Permutation_NoDup; [|exact HN].
  apply non_null_Permutation. now apply Permutation_map.
Qed.

Section Joins.

Variables A B K : Type.
Variable eqb : K -> K -> bool.
Hypothesis eqb_eq : forall a b, eqb a b = true <-> a = b.

Variable key : A -> option K.

Lemma key_match_eq (a b : option K) :
  key_match eqb a b = true <-> exists k, a = Some k /\ b = Some k.
Proof.
  destruct a as [x|], b as [y|]; simpl.
  - rewrite eqb_eq. split.
    + intros ->. now exists y.
    + intros [k [H1 H2]]. congruence.
  - split; [discriminate | intros [k [_ H]]; discriminate].
  - split; [discriminate | intros [k [H _]]; discriminate].
  - split; [discriminate | intros [k [H _]]; discriminate].
Qed.

Lemma lookup_In (k : K) (t : list A) (r : A) :
  lookup eqb key k t = Some r -> In r t /\ key r = Some k.
Proof.
  unfold lookup. intro H. apply find_some in H. destruct H as [Hin Hm].
  split; [exact Hin|].
  apply key_match_eq in Hm. destruct Hm as [k' [H1 H2]]. congruence.
Qed.

Lemma lookup_None (k : K) (t : list A) :
  lookup eqb key k t = None <-> ~ In (Some k) (map key t).
Proof.
  unfold lookup. split.
  - intros H Hin. apply in_map_iff in Hin. destruct Hin as [r [Hk Hr]].
    pose proof (find_none _ _ H _ Hr) as Hf. simpl in Hf.
    rewrite Hk in Hf. simpl in Hf.
    assert (eqb k k = true) by now apply eqb_eq. congruence.
  - intro H. destruct (find _ t) as [r|] eqn:E; [|reflexivity].
    exfalso. apply H. apply lookup_In in E. destruct E as [Hin Hk].
    rewrite <- Hk. now apply in_map.
Qed.

(** In a keyed table the row of a key is the only one that has it. *)
Lemma keyed_cons (x : A) (t : list A) :
  keyed key (x :: t) ->
  keyed key t /\ forall k, key x = Some k -> ~ In (Some k) (map key t).
Proof.
  unfold keyed. cbn [map non_null].
  destruct (key x) as [k0|]; intro HN.
  - inversion HN as [|? ? Hnot HN']. subst. split; [exact HN'|].
    intros k [= <-]. now rewrite <- non_null_In.
  - split; [exact HN | discriminate].
Qed.

Lemma lookup_keyed (k : K) (t : list A) (r : A) :
  keyed key t -> In r t -> key r = Some k -> lookup eqb key k t = Some r.
Proof.
  unfold lookup. induction t as [|x t IH]; intros HN Hin Hk; [destruct Hin|].
  apply keyed_cons in HN. destruct HN as [HN Hx].
  cbn [find].
  destruct (key_match eqb (Some k) (key x)) eqn:E.
  - apply key_match_eq in E. destruct E as [k' [H1 H2]].
    injection H1 as <-.
    destruct Hin as [->|Hin]; [reflexivity|].
    exfalso. apply (Hx k H2). rewrite <- Hk. now apply in_map.
  - destruct Hin as [->|Hin].
    + rewrite Hk in E. simpl in E.
      assert (eqb k k = true) by now apply eqb_eq. congruence.
    + now apply IH.
Qed.

Lemma lookup_Permutation (k : K) (t t' : list A) :
  keyed key t -> Permutation t t' ->
  lookup eqb key k t = lookup eqb key k t'.
Proof.
  intros HN HP.
  destruct (lookup eqb key k t) as [r|] eqn:E.
  - apply lookup_In in E. destruct E as [Hin Hk].
    symmetry. apply lookup_keyed; auto.
    + eapply keyed_Permutation; eassumption.
    + eapply Permutation_in; eassumption.
  - symmetry. apply lookup_None. apply lookup_None in E.
    intro Hin. apply E.
    eapply Permutation_in; [|exact Hin].
    apply Permutation_map. now apply Permutation_sym.
Qed.

(** The rows of a keyed table that match a key: none, or the one found by
    [lookup]. *)
Lemma filter_keyed (k : option K) (t : list A) :
  keyed key t ->
  filter (fun r => key_match eqb k (key r)) t =
  match find (fun r => key_match eqb k (key r)) t with
  | Some r => [r]
  | None => []
  end.
Proof.
  induction t as [|x t IH]; [reflexivity|].
  intro HN. apply keyed_cons in HN. destruct HN as [HN Hx].
  cbn [filter find].
  destruct (key_match eqb k (key x)) eqn:E; [|now apply IH].
  f_equal. apply key_match_eq in E. destruct E as [k' [-> Hk]].
  specialize (Hx k' Hk). clear - Hx eqb_eq.
  induction t as [|y t IH]; [reflexivity|].
  cbn [filter].
  destruct (key_match eqb (Some k') (key y)) eqn:E.
  - exfalso. apply Hx. apply key_match_eq in E.
    destruct E as [k'' [H1 H2]]. injection H1 as <-.
    left. exact H2.
  - apply IH. intro H. apply Hx. now right.
Qed.

Variable L : Type.
Variable kl : L -> option K.

(** Joining onto a keyed table keeps the rows of the left table one for
    one. *)
Lemma left_join_keyed (left : list L) (t : list A) :
  keyed key t ->
  left_join eqb kl key left t =
  map (fun l => (l, find (fun r => key_match eqb (kl l) (key r)) t)) left.
Proof.
  intro HN. unfold left_join.
  induction left as [|l left IH]; [reflexivity|].
  cbn [flat_map]. rewrite IH, (filter_keyed (kl l) HN).
  cbn [map]. destruct (find _ t); reflexivity.
Qed.

End Joins.

Section UniqueSort.

Variables A K : Type.
Variable eqb : K -> K -> bool.
Hypothesis eqb_eq : forall a b, eqb a b = true <-> a = b.
Variable key : A -> K.

Lemma existsb_eqb (k : K) (seen : list K) :
  existsb (eqb k) seen = true <-> In k seen.
Proof.
  rewrite existsb_exists. split.
  - intros [x [Hin He]]. apply eqb_eq in He. now subst.
  - intro H. exists k. split; [exact H | now apply eqb_eq].
Qed.

Lemma unique_from_keys (seen : list K) (l : list A) :
  NoDup (map key (unique_from eqb key seen l))
  /\ forall x, In x (unique_from eqb key seen l) -> ~ In (key x) seen.
Proof.
  revert seen. induction l as [|x l IH]; intro seen; simpl.
  - split; [constructor | tauto].
  - destruct (existsb (eqb (key x)) seen) eqn:E.
    + apply IH.
    + destruct (IH (key x :: seen)) as [IH1 IH2]. split.
      * simpl. constructor; [|exact IH1].
        intro Hin. apply in_map_iff in Hin. destruct Hin as [y [Hk Hy]].
        apply (IH2 y Hy). left. now symmetry.
      * intros y [<-|Hy].
        -- intro Hin. apply existsb_eqb in Hin. congruence.
        -- intro Hin. apply (IH2 y Hy). now right.
Qed.

Lemma unique_NoDup (l : list A) : NoDup (map key (unique eqb key l)).
Proof. apply unique_from_keys. Qed.

Lemma find_ext_in (f g : A -> bool) (l : list A) :
  (forall x, In x l -> f x = g x) -> find f l = find g l.
Proof.
  induction l as [|x l IH]; intro H; [reflexivity|].
  cbn [find]. rewrite (H x) by now left.
  destruct (g x); [reflexivity|]. apply IH. intros y Hy. apply H. now right.
Qed.

(** The first row found for a property of the key is the same before and
    after [unique]. *)
Lemma find_unique_from (p : K -> bool) (seen : list K) (l : list A) :
  find (fun r => p (key r)) (unique_from eqb key seen l) =
  find (fun r => p (key r) && negb (existsb (eqb (key r)) seen)) l.
Proof.
  revert seen. induction l as [|x l IH]; intro seen; [reflexivity|].
  cbn [unique_from find].
  destruct (existsb (eqb (key x)) seen) eqn:E.
  - rewrite andb_false_r. apply IH.
  - rewrite andb_true_r. cbn [find].
    destruct (p (key x)) eqn:Ep; [reflexivity|].
    rewrite IH. apply find_ext_in. intros y _.
    cbn [existsb].
    destruct (eqb (key y) (key x)) eqn:Ey; [|reflexivity].
    apply eqb_eq in Ey. rewrite Ey, Ep. reflexivity.
Qed.

Lemma find_unique (p : K -> bool) (l : list A) :
  find (fun r => p (key r)) (unique eqb key l) = find (fun r => p (key r)) l.
Proof.
  unfold unique. rewrite find_unique_from. apply find_ext_in.
  intros x _. cbn [existsb negb]. apply andb_true_r.
Qed.

Lemma unique_incl (seen : list K) (l : list A) :
  incl (unique_from eqb key seen l) l.
Proof.
  revert seen. induction l as [|x l IH]; intro seen; simpl.
  - apply incl_refl.
  - destruct (existsb (eqb (key x)) seen).
    + apply incl_tl, IH.
    + apply incl_cons; [now left | apply incl_tl, IH].
Qed.

Variable leb : K -> K -> bool.

Lemma insert_sorted_Permutation (x : A) (l : list A) :
  Permutation (insert_sorted key leb x l) (x :: l).
Proof.
  induction l as [|y l IH]; simpl; [reflexivity|].
  destruct (leb (key x) (key y)); [reflexivity|].
  rewrite IH. apply perm_swap.
Qed.

Lemma sort_Permutation (l : list A) : Permutation (sort key leb l) l.
Proof.
  unfold sort. induction l as [|x l IH]; simpl; [reflexivity|].
  rewrite insert_sorted_Permutation. now constructor.
Qed.

End UniqueSort.

(* ================================================================== *)
(** * The joins of the pipeline *)
(* ================================================================== *)

Lemma option_eqb_eq (a b : option Z) : option_eqb Z.eqb a b = true <-> a = b.
Proof.
  destruct a as [x|], b as [y|]; simpl; try (split; [discriminate|congruence]).
  - rewrite Z.eqb_eq. split; congruence.
  - tauto.
Qed.

(** The scaffold has one row for each month 1..12, with the value the
    input provides for it. *)
Lemma scaffold_spec (column : Trends.row -> option float)
    (trends_monthly : list Trends.row) :
  scaffold column trends_monthly =
  map (fun m => (m, provided_value column trends_monthly m)) (arange 1 13).
Proof.
  unfold scaffold.
  set (u := unique (option_eqb Z.eqb) Trends.month trends_monthly).
  assert (Hu : keyed Trends.month u).
  { apply NoDup_non_null. apply unique_NoDup. exact option_eqb_eq. }
  assert (Hs : keyed Trends.month (sort Trends.month (option_leb Z.leb) u)).
  { eapply keyed_Permutation; [|exact Hu].
    apply Permutation_sym, sort_Permutation. }
  rewrite (left_join_keyed Z.eqb Z.eqb_eq (fun m => Some m) (arange 1 13) Hs).
  rewrite map_map. apply map_ext. intro m. cbn [fst snd]. f_equal.
  unfold provided_value.
  change (find (fun r => key_match Z.eqb (Some m) (Trends.month r))
               (sort Trends.month (option_leb Z.leb) u))
    with (lookup Z.eqb Trends.month m (sort Trends.month (option_leb Z.leb) u)).
  rewrite <- (lookup_Permutation Z.eqb Z.eqb_eq m Hu
                (Permutation_sym (sort_Permutation _ _ u))).
  unfold lookup, u.
  rewrite (find_unique (option_eqb Z.eqb) option_eqb_eq Trends.month
             (fun k => key_match Z.eqb (Some m) k)).
  reflexivity.
Qed.

(** With a keyed multiplier table every date gets exactly one multiplier:
    the one of [multiplier_of]. *)
Lemma month_multipliers_keyed (dates : list date)
    (month_mult : list Multiplier.row) :
  keyed Multiplier.month month_mult ->
  month_multipliers dates month_mult = map (multiplier_of month_mult) dates.
Proof.
  intro HK. unfold month_multipliers, replace_non_finite.
  rewrite (left_join_keyed Z.eqb Z.eqb_eq
             (fun d => Some (Date.month d)) dates HK).
  rewrite !map_map. apply map_ext. intro d. cbn [fst snd].
  unfold multiplier_of, lookup.
  destruct (find _ month_mult) as [r|]; [|reflexivity].
  destruct (Multiplier.month_multiplier r) as [v|]; reflexivity.
Qed.

Lemma multiplier_of_absent (month_mult : list Multiplier.row) (d : date) :
  ~ In (Some (Date.month d)) (map Multiplier.month month_mult) ->
  multiplier_of month_mult d = one.
Proof.
  intro H. unfold multiplier_of.
  apply (lookup_None Z.eqb Z.eqb_eq Multiplier.month) in H. now rewrite H.
Qed.

Lemma multiplier_of_finite (month_mult : list Multiplier.row) (d : date) :
  isfinite (multiplier_of month_mult d) = true.
Proof.
  unfold multiplier_of.
  destruct (lookup _ _ _ _) as [r|]; [|reflexivity].
  destruct (Multiplier.month_multiplier r) as [v|]; [|reflexivity].
  destruct (isfinite v) eqn:E; [exact E | reflexivity].
Qed.

(* ================================================================== *)
(** * numpy arrays and data frames *)
(* ================================================================== *)

Lemma bind_ok {A B} (c : result A) (k : A -> result B) (y : B) :
  bind c k = ok y -> exists x, c = ok x /\ k x = ok y.
Proof.
  destruct c as [e|x]; simpl; [discriminate|]. intro H. now exists x.
Qed.

Lemma bind_ret {A B} (x : A) (k : A -> result B) : bind (ok x) k = k x.
Proof. reflexivity. Qed.

Lemma bind_err {A B} (c : result A) (k : A -> result B) (e : exn) :
  bind c k = inl e -> c = inl e \/ exists x, c = ok x /\ k x = inl e.
Proof.
  destruct c as [e'|x]; simpl; intro H; [left; congruence | right; now exists x].
Qed.

Ltac bind_inv H :=
  let x := fresh "x" in
  let Hx := fresh "Hx" in
  apply bind_ok in H; destruct H as [x [Hx H]].

Lemma zip_with_repeat (f : float -> float -> float) (a : list float) (y : float) :
  zip_with f a (repeat y (List.length a)) = map (fun x => f x y) a.
Proof.
  unfold zip_with. induction a as [|x a IH]; simpl; [reflexivity|].
  now rewrite IH.
Qed.

Lemma length_zip_with (f : float -> float -> float) (a b : list float) :
  List.length b = List.length a -> List.length (zip_with f a b) = List.length a.
Proof.
  intro H. unfold zip_with. rewrite length_map, length_combine. lia.
Qed.

Lemma np_binop_same_length (f : float -> float -> float) (a b : list float) :
  List.length a = List.length b -> np_binop f a b = ok (zip_with f a b).
Proof.
  intro H. unfold np_binop. apply Nat.eqb_eq in H. now rewrite H.
Qed.

(** When the result of an operator has the length of its left operand,
    the right operand was used element by element, or was a single value
    given to every element. *)
Lemma np_binop_zip (f : float -> float -> float) (a b c : list float) :
  np_binop f a b = ok c -> List.length c = List.length a ->
  c = zip_with f a (broadcast_to (List.length a) b)
  /\ List.length (broadcast_to (List.length a) b) = List.length a
  /\ incl (broadcast_to (List.length a) b) b.
Proof.
  unfold np_binop, broadcast_to.
  rewrite (Nat.eqb_sym (List.length b)).
  destruct (Nat.eqb (List.length a) (List.length b)) eqn:E.
  - intros [= <-] _. apply Nat.eqb_eq in E.
    repeat split; [congruence | apply incl_refl].
  - apply Nat.eqb_neq in E.
    destruct a as [|x [|x2 a]].
    + destruct b as [|y [|y2 b]]; try discriminate.
      intros [= <-] _. repeat split. intros z [].
    + intros [= <-]. rewrite length_map. simpl in *. intro H. congruence.
    + destruct b as [|y [|y2 b]]; try discriminate.
      intros [= <-] _. cbn [hd].
      rewrite zip_with_repeat, repeat_length. repeat split.
      intros z Hz. apply repeat_spec in Hz. subst. now left.
Qed.

Lemma np_binop_err_class (f : float -> float -> float) (a b : list float) (e : exn) :
  np_binop f a b = inl e -> exn_class e = "ValueError"%string.
Proof.
  unfold np_binop. destruct (Nat.eqb _ _); [discriminate|].
  destruct a as [|x [|x2 a']]; try discriminate;
    destruct b as [|y [|y2 b']]; try discriminate;
    now intros [= <-].
Qed.

Lemma data_frame4_ok (dates : list date) (mean lo hi : list float)
    (rows : list Prediction.row) :
  data_frame4 dates mean lo hi = ok rows ->
  List.length mean = List.length dates /\ List.length lo = List.length dates
  /\ List.length hi = List.length dates.
Proof.
  unfold data_frame4.
  destruct (Nat.eqb (List.length mean) (List.length dates)) eqn:E1;
    [|discriminate].
  destruct (Nat.eqb (List.length lo) (List.length dates)) eqn:E2;
    [|discriminate].
  destruct (Nat.eqb (List.length hi) (List.length dates)) eqn:E3;
    [|discriminate].
  intros _. apply Nat.eqb_eq in E1, E2, E3. auto.
Qed.

Lemma data_frame4_err_class (dates : list date) (mean lo hi : list float) (e : exn) :
  data_frame4 dates mean lo hi = inl e -> exn_class e = "ShapeError"%string.
Proof.
  unfold data_frame4. destruct (_ && _); [discriminate | now intros [= <-]].
Qed.

Lemma data_frame4_rows (dates : list date) (mean ts : list float) :
  List.length mean = List.length dates -> List.length ts = List.length dates ->
  data_frame4 dates mean
    (map (fun v => maximum v zero) (zip_with sub mean ts))
    (zip_with add mean ts)
  = ok (prediction_rows dates mean ts).
Proof.
  intros Hm Ht. unfold data_frame4.
  rewrite length_map, !length_zip_with by congruence.
  rewrite Hm, Nat.eqb_refl. cbn [andb]. f_equal.
  unfold prediction_rows, zip_with.
  revert mean ts Hm Ht.
  induction dates as [|d dates IH]; intros [|m mean] [|t ts] Hm Ht;
    try discriminate; [reflexivity|].
  cbn [combine map fst snd]. f_equal.
  apply IH; simpl in *; congruence.
Qed.

(** Every table that [prediction] returns has the dates given, and in
    each row the bounds [max(mean - t, 0)] and [mean + t] for the
    half-width [t = 1.96 * std] of one of the standard deviations. *)
Lemma prediction_inv (mean std : list float) (dates : list date)
    (rows : list Prediction.row) :
  prediction mean std dates = ok rows ->
  exists ts,
    rows = prediction_rows dates mean ts
    /\ List.length mean = List.length dates
    /\ List.length ts = List.length dates
    /\ incl ts (map (mul f_1_96) std).
Proof.
  unfold prediction. intro H.
  bind_inv H. rename x into lo, Hx into Hlo.
  bind_inv H. rename x into hi, Hx into Hhi.
  destruct (data_frame4_ok _ _ _ _ H) as [Hm [Hl Hh]].
  rewrite length_map in Hl.
  destruct (np_binop_zip _ _ _ Hlo) as [-> [Hlen Hincl]]; [congruence|].
  destruct (np_binop_zip _ _ _ Hhi) as [-> _]; [congruence|].
  exists (broadcast_to (List.length mean) (map (mul f_1_96) std)).
  rewrite data_frame4_rows in H by congruence.
  injection H as <-. repeat split; auto; congruence.
Qed.

Lemma prediction_ok (mean std : list float) (dates : list date) :
  List.length mean = List.length dates -> List.length std = List.length dates ->
  prediction mean std dates
  = ok (prediction_rows dates mean (map (mul f_1_96) std)).
Proof.
  intros Hm Hs. unfold prediction.
  rewrite !np_binop_same_length by (rewrite length_map; congruence).
  cbn [bind]. apply data_frame4_rows; [exact Hm | now rewrite length_map].
Qed.

Lemma prediction_err_class (mean std : list float) (dates : list date) (e : exn) :
  prediction mean std dates = inl e ->
  exn_class e = "ValueError"%string \/ exn_class e = "ShapeError"%string.
Proof.
  unfold prediction. intro H.
  apply bind_err in H. destruct H as [H|[lo [_ H]]];
    [left; eapply np_binop_err_class; eassumption|].
  apply bind_err in H. destruct H as [H|[hi [_ H]]];
    [left; eapply np_binop_err_class; eassumption|].
  right. eapply data_frame4_err_class; eassumption.
Qed.

Lemma prediction_rows_dates (dates : list date) (mean ts : list float) :
  List.length mean = List.length dates -> List.length ts = List.length dates ->
  map Prediction.contract_date (prediction_rows dates mean ts) = dates.
Proof.
  unfold prediction_rows. rewrite map_map. cbn [prediction_row Prediction.contract_date].
  revert mean ts.
  induction dates as [|d dates IH]; intros [|m mean] [|t ts] Hm Ht;
    try discriminate; [reflexivity|].
  cbn [combine map fst snd]. f_equal. apply IH; simpl in *; congruence.
Qed.

Lemma zip_with_map {A} (f : float -> float -> float) (g h : A -> float)
    (l : list A) :
  zip_with f (map g l) (map h l) = map (fun x => f (g x) (h x)) l.
Proof.
  unfold zip_with. induction l as [|x l IH]; simpl; [reflexivity|].
  now rewrite IH.
Qed.

Lemma left_join_In {L R K} (eqb : K -> K -> bool) (kl : L -> option K)
    (kr : R -> option K) (left : list L) (right : list R) (l : L) (o : option R) :
  In (l, o) (left_join eqb kl kr left right) ->
  In l left /\ match o with Some r => In r right | None => True end.
Proof.
  unfold left_join. rewrite in_flat_map. intros [l' [Hl H]].
  destruct (filter _ right) as [|r0 ms] eqn:E.
  - destruct H as [[= <- <-]|[]]. auto.
  - apply in_map_iff in H. destruct H as [r [[= <- <-] Hr]].
    split; [exact Hl|].
    rewrite <- E in Hr. now apply filter_In in Hr.
Qed.

(* ================================================================== *)
(** * The Predictor *)
(* ================================================================== *)

Section Predictor.

Context {M : MathLib} {SK : SkLearn}.

Variable gp : GaussianProcessRegressor.
Variable scaler : StandardScaler.

Lemma length_x_raw_of (start end_ : date) :
  List.length (x_raw_of start end_) = List.length (date_range start end_).
Proof. unfold x_raw_of, build_features. now rewrite !length_map. Qed.

(** Every table the Predictor returns has exactly the dates of the range. *)
Lemma predict_daily_dates (start end_ : date)
    (month_mult : option (list Multiplier.row)) (rows : list Prediction.row) :
  predict_daily gp scaler start end_ month_mult = ok rows ->
  map Prediction.contract_date rows = date_range start end_.
Proof.
  unfold predict_daily. intro H.
  bind_inv H. bind_inv H.
  destruct x0 as [|mean_ds [|std_ds [|? ?]]]; try discriminate.
  destruct month_mult as [t|].
  - bind_inv H. bind_inv H.
    destruct (prediction_inv _ _ _ H) as [ts [-> [Hm [Ht _]]]].
    now apply prediction_rows_dates.
  - destruct (prediction_inv _ _ _ H) as [ts [-> [Hm [Ht _]]]].
    now apply prediction_rows_dates.
Qed.

(** C1, the rows that break the invariant.  The lower bound is clamped at
    0 and the mean is not: when the standard deviations of the model are
    finite and not negative, in every row the Predictor returns (without
    multipliers) whose mean is negative, [pred_lo] is 0.0 and
    [pred_lo <= pred_mean] is false. *)
Theorem predict_daily_lo_above_a_negative_mean (start end_ : date)
    (x : list (list float)) (mean_ds std_ds : list float)
    (rows : list Prediction.row) :
  transform scaler (x_raw_of start end_) = ok x ->
  gp_predict gp x = ok [mean_ds; std_ds] ->
  Forall (fun v => nonneg_finite v = true) std_ds ->
  predict_daily gp scaler start end_ None = ok rows ->
  Forall (fun r =>
            forall m, Prediction.pred_mean r = Fin m -> (m < 0)%Q ->
              Prediction.pred_lo r = zero
              /\ (Prediction.pred_lo r <=? Prediction.pred_mean r)%float
                 = false)
         rows.
Proof.
  intros Hx Hgp Hstd H.
  unfold predict_daily in H.
  rewrite Hx in H. rewrite bind_ret in H. rewrite Hgp in H. rewrite bind_ret in H.
  destruct (prediction_inv _ _ _ H) as [ts [-> [_ [_ Hincl]]]].
  rewrite Forall_forall in *. intros r Hr m Hm Hneg.
  unfold prediction_rows in Hr. apply in_map_iff in Hr.
  destruct Hr as [[[d m0] t] [<- Hin]]. cbn [fst snd] in *.
  cbn [prediction_row Prediction.pred_mean Prediction.pred_lo] in *. subst m0.
  assert (Hti : In t (map (mul f_1_96) std_ds)).
  { apply Hincl. now apply in_combine_r in Hin. }
  apply in_map_iff in Hti. destruct Hti as [s [<- Hsi]].
  destruct (nonneg_finite_inv _ (Hstd s Hsi)) as [q [-> Hq]].
  unfold f_1_96, zero. cbn [mul sub neg add maximum leb].
  assert (E : Qle_bool (m + - ((196 # 100) * q)) 0 = true)
    by (apply Qle_bool_iff; nra).
  rewrite E. split; [reflexivity|].
  cbn [leb]. apply leb_Fin_false. exact Hneg.
Qed.

(** C9.  For a range with start <= end on which the scaler and the model
    answer with one value for each row of the matrix, the Predictor
    returns exactly one row for each day of the range:
    (end - start) + 1 rows, whose dates are start, start + 1, ..., end in
    ascending order. *)
Theorem predict_daily_one_row_per_day (start end_ : date)
    (month_mult : option (list Multiplier.row))
    (x : list (list float)) (mean_ds std_ds : list float) :
  start <= end_ ->
  transform scaler (x_raw_of start end_) = ok x ->
  gp_predict gp x = ok [mean_ds; std_ds] ->
  List.length x = List.length (x_raw_of start end_) ->
  List.length mean_ds = List.length x ->
  List.length std_ds = List.length x ->
  match month_mult with
  | Some t => keyed Multiplier.month t
  | None => True
  end ->
  exists rows,
    predict_daily gp scaler start end_ month_mult = ok rows
    /\ map Prediction.contract_date rows = date_range start end_
    /\ Z.of_nat (List.length rows) = end_ - start + 1
    /\ StronglySorted Z.lt (map Prediction.contract_date rows).
Proof.
  intros Hse Hx Hgp Hxl Hml Hsl Hmm.
  rewrite length_x_raw_of in Hxl.
  assert (Hret : exists rows,
            predict_daily gp scaler start end_ month_mult = ok rows).
  { unfold predict_daily.
    rewrite Hx. rewrite ?bind_ret. rewrite Hgp. rewrite ?bind_ret.
    destruct month_mult as [t|].
    - rewrite (month_multipliers_keyed _ Hmm).
      rewrite !np_binop_same_length by (rewrite length_map; congruence).
      rewrite ?bind_ret. rewrite prediction_ok; [eauto | |];
        rewrite length_zip_with; rewrite ?length_map; congruence.
    - rewrite prediction_ok by congruence. eauto. }
  destruct Hret as [rows Hrows]. exists rows.
  pose proof (predict_daily_dates _ _ _ Hrows) as Hd.
  repeat split; auto.
  - rewrite <- (length_map Prediction.contract_date), Hd, length_date_range. lia.
  - rewrite Hd. apply date_range_ascending.
Qed.

(** C5, as amended.  The Predictor has no check of the range.  When the
    end precedes the start the range has no date and the scaler is given
    an empty matrix: if the scaler rejects it, the Predictor fails with
    the scaler's exception; a table that is returned has no row; and the
    exceptions the Predictor raises by itself are ValueError and
    ShapeError, never an InvalidRangeError. *)
Theorem predict_daily_end_before_start (start end_ : date)
    (month_mult : option (list Multiplier.row)) :
  end_ < start ->
  x_raw_of start end_ = []
  /\ (forall e, transform scaler [] = inl e ->
        predict_daily gp scaler start end_ month_mult = inl e)
  /\ (forall rows, predict_daily gp scaler start end_ month_mult = ok rows ->
        rows = [])
  /\ (forall e, predict_daily gp scaler start end_ month_mult = inl e ->
        transform scaler [] = inl e
        \/ (exists x, transform scaler [] = ok x /\ gp_predict gp x = inl e)
        \/ exn_class e = "ValueError"%string
        \/ exn_class e = "ShapeError"%string).
Proof.
  intro Hlt.
  assert (Hx : x_raw_of start end_ = []).
  { unfold x_raw_of. now rewrite date_range_empty. }
  split; [exact Hx|]. split; [|split].
  - intros e He. unfold predict_daily.
    now rewrite Hx, He.
  - intros rows H. apply predict_daily_dates in H.
    rewrite date_range_empty in H by assumption.
    now destruct rows.
  - intros e H. unfold predict_daily in H.
    rewrite Hx in H.
    apply bind_err in H. destruct H as [H|[x [Hxo H]]]; [now left|].
    apply bind_err in H. destruct H as [H|[out [Ho H]]];
      [right; left; now exists x|].
    right. right.
    destruct out as [|mean_ds [|std_ds [|? ?]]];
      try (injection H as <-; now left).
    destruct month_mult as [t|].
    + apply bind_err in H. destruct H as [H|[mean [_ H]]];
        [left; eapply np_binop_err_class; eassumption|].
      apply bind_err in H. destruct H as [H|[std [_ H]]];
        [left; eapply np_binop_err_class; eassumption|].
      eapply prediction_err_class; eassumption.
    + eapply prediction_err_class; eassumption.
Qed.

End Predictor.

(* ================================================================== *)
(** * Deseasonalization and reseasonalization *)
(* ================================================================== *)

Lemma sum_Fin (qs : list Q) : Float64.sum (map Fin qs) = Fin (Qsum qs).
Proof.
  induction qs as [|q qs IH]; simpl; [reflexivity|]. now rewrite IH.
Qed.

Lemma np_mean_Fin (qs : list Q) :
  qs <> [] ->
  np_mean (map Fin qs)
  = Fin (Qsum qs / inject_Z (Z.of_nat (List.length qs))).
Proof.
  intro H. unfold np_mean. rewrite sum_Fin, length_map.
  unfold of_Z. cbn [div].
  destruct (Qeq_bool (inject_Z (Z.of_nat (List.length qs))) 0) eqn:E;
    [|reflexivity].
  exfalso. apply Qeq_bool_iff in E. unfold Qeq in E. simpl in E.
  destruct qs; [congruence | simpl in E; lia].
Qed.

Lemma map_of_Z (zs : list Z) : map of_Z zs = map Fin (map inject_Z zs).
Proof. now rewrite map_map. Qed.

Section Deseasonalize.

Context {M : MathLib} {SK : SkLearn}.

Lemma build_features_dates (dates : list date) :
  map Features.contract_date (build_features dates) = dates.
Proof.
  unfold build_features. rewrite map_map. cbn [features_of_date Features.contract_date].
  apply map_id.
Qed.

(** Every weekly value is finite: it is the mean of the integers of a
    week that has at least one row. *)
Lemma weekly_finite (df : list Model.row) :
  Forall (fun w => isfinite (Weekly.registration_time w) = true)
         (_aggregate_weekly df).
Proof.
  unfold _aggregate_weekly.
  eapply Permutation_Forall; [apply Permutation_sym, sort_Permutation|].
  apply Forall_forall. intros w Hw.
  apply in_map_iff in Hw. destruct Hw as [[k rows] [<- Hg]].
  apply in_map_iff in Hg. destruct Hg as [k' [[= <- <-] Hk]].
  apply (unique_incl Z.eqb (fun w => w) []) in Hk.
  apply in_map_iff in Hk. destruct Hk as [r [Hr Hin]].
  cbn [Weekly.registration_time snd].
  set (rows := filter _ df).
  assert (Hne : rows <> []).
  { intro E. assert (Hr' : In r rows).
    { apply filter_In. split; [exact Hin | now apply Z.eqb_eq]. }
    rewrite E in Hr'. destruct Hr'. }
  rewrite <- (map_map Model.registration_time of_Z), map_of_Z.
  rewrite np_mean_Fin; [reflexivity|].
  destruct rows; [congruence | discriminate].
Qed.

(** With a keyed multiplier table the targets are the weekly values, each
    over the multiplier of its month. *)
Lemma training_targets_keyed (df : list Model.row)
    (month_mult : list Multiplier.row) :
  keyed Multiplier.month month_mult ->
  training_targets df (Some month_mult)
  = ok (build_features (map Weekly.contract_date (weekly_rows df)),
        map (deseasonalized month_mult) (weekly_rows df)).
Proof.
  intro HK. unfold training_targets. fold (weekly_rows df).
  rewrite build_features_dates, (month_multipliers_keyed _ HK), map_map.
  rewrite np_binop_same_length by now rewrite !length_map.
  rewrite bind_ret, zip_with_map. reflexivity.
Qed.

(** A finite value over zero is an infinity or NaN. *)
Lemma div_zero_not_finite (x k : float) :
  isfinite x = true -> (k =? zero)%float = true ->
  isfinite (x / k) = false.
Proof.
  destruct x as [a| | |], k as [b| | |]; try discriminate. intros _.
  unfold zero. cbn [div eqb]. intros ->.
  unfold inf_of_sign, Qsgn.
  destruct (Z.sgn (Qnum a)) eqn:Es; reflexivity.
Qed.

End Deseasonalize.

Section MultiplierClaims.

Context {M : MathLib} {SK : SkLearn}.

(** C2, as amended.  During fitting with a multiplier table that has one
    row for a month at most, what is neutralized to 1.0 is every
    non-finite (or missing) multiplier, before the division: the target of
    a weekly row is its value over the multiplier of [multiplier_of],
    which is always finite.  The ratio itself is not inspected: where
    that multiplier is zero the target is not finite (an infinity or
    NaN), and where it is 1.0 the target is the weekly value itself. *)
Theorem fit_neutralizes_non_finite_multipliers (df : list Model.row)
    (month_mult : list Multiplier.row) :
  keyed Multiplier.month month_mult ->
  training_targets df (Some month_mult)
  = ok (build_features (map Weekly.contract_date (weekly_rows df)),
        map (deseasonalized month_mult) (weekly_rows df))
  /\ (forall d r v,
        lookup Z.eqb Multiplier.month (Date.month d) month_mult = Some r ->
        Multiplier.month_multiplier r = Some v ->
        isfinite v = false ->
        multiplier_of month_mult d = one)
  /\ Forall (fun w =>
       let k := multiplier_of month_mult (Weekly.contract_date w) in
       isfinite k = true
       /\ ((k =? zero)%float = true ->
           isfinite (deseasonalized month_mult w) = false)
       /\ (k = one ->
           same (deseasonalized month_mult w) (Weekly.registration_time w)))
     (weekly_rows df).
Proof.
  intro HK. split; [now apply training_targets_keyed|].
  split.
  { intros d r v Hr Hv Hf. unfold multiplier_of. now rewrite Hr, Hv, Hf. }
  pose proof (weekly_finite (sort Model.contract_date Z.leb df)) as HF.
  fold (weekly_rows df) in HF.
  rewrite Forall_forall in *. intros w Hw. cbn zeta.
  split; [apply multiplier_of_finite|]. split.
  - intro Hz. unfold deseasonalized. apply div_zero_not_finite;
      [now apply HF | exact Hz].
  - intro Hk. unfold deseasonalized. rewrite Hk. apply div_one.
Qed.

Lemma reseasonalized_rows (month_mult : list Multiplier.row)
    (dates : list date) (mean_ds std_ds : list float) :
  List.length mean_ds = List.length dates ->
  List.length std_ds = List.length dates ->
  prediction_rows dates
    (zip_with mul mean_ds (map (multiplier_of month_mult) dates))
    (map (mul f_1_96)
       (zip_with mul std_ds (map (multiplier_of month_mult) dates)))
  = map (fun p => reseasonalized_row month_mult (fst (fst p)) (snd (fst p)) (snd p))
        (combine (combine dates mean_ds) std_ds).
Proof.
  unfold prediction_rows, zip_with, reseasonalized_row.
  revert mean_ds std_ds.
  induction dates as [|d dates IH]; intros [|m mean_ds] [|s std_ds] Hm Hs;
    try discriminate; [reflexivity|].
  cbn [combine map fst snd]. f_equal. apply IH; simpl in *; congruence.
Qed.

(** The Predictor with a keyed multiplier table: the row of each date is
    the one of [reseasonalized_row]. *)
Lemma predict_daily_keyed (gp : GaussianProcessRegressor)
    (scaler : StandardScaler) (start end_ : date)
    (month_mult : list Multiplier.row)
    (x : list (list float)) (mean_ds std_ds : list float) :
  keyed Multiplier.month month_mult ->
  transform scaler (x_raw_of start end_) = ok x ->
  gp_predict gp x = ok [mean_ds; std_ds] ->
  List.length mean_ds = List.length (date_range start end_) ->
  List.length std_ds = List.length (date_range start end_) ->
  predict_daily gp scaler start end_ (Some month_mult)
  = ok (map (fun p => reseasonalized_row month_mult
                        (fst (fst p)) (snd (fst p)) (snd p))
            (combine (combine (date_range start end_) mean_ds) std_ds)).
Proof.
  intros HK Hx Hgp Hm Hs. unfold predict_daily.
  rewrite Hx, bind_ret, Hgp, bind_ret.
  rewrite (month_multipliers_keyed _ HK).
  rewrite !np_binop_same_length by (rewrite length_map; congruence).
  rewrite !bind_ret.
  rewrite prediction_ok
    by (rewrite length_zip_with; rewrite ?length_map; congruence).
  f_equal. now apply reseasonalized_rows.
Qed.

(** C10.  With a multiplier table that has one row for a month at most
    (some months may have none), a date whose month is absent from the
    table has the multiplier 1.0, in fitting and in prediction: the
    deseasonalized target is the weekly value over that multiplier and the
    prediction is the model's mean and standard deviation times that
    multiplier; for an absent month they are the weekly value and the
    model's mean themselves.  The join raises nothing and leaves no null:
    fitting gets its targets, and the Predictor returns its rows whenever
    the scaler and the model answer. *)
Theorem absent_month_has_multiplier_one (month_mult : list Multiplier.row) :
  keyed Multiplier.month month_mult ->
  (forall d v,
      ~ In (Some (Date.month d)) (map Multiplier.month month_mult) ->
      multiplier_of month_mult d = one
      /\ same (v / multiplier_of month_mult d) v
      /\ same (v * multiplier_of month_mult d) v)
  /\ (forall df,
        training_targets df (Some month_mult)
        = ok (build_features (map Weekly.contract_date (weekly_rows df)),
              map (deseasonalized month_mult) (weekly_rows df)))
  /\ (forall gp scaler start end_ x mean_ds std_ds,
        transform scaler (x_raw_of start end_) = ok x ->
        gp_predict gp x = ok [mean_ds; std_ds] ->
        List.length mean_ds = List.length (date_range start end_) ->
        List.length std_ds = List.length (date_range start end_) ->
        predict_daily gp scaler start end_ (Some month_mult)
        = ok (map (fun p => reseasonalized_row month_mult
                              (fst (fst p)) (snd (fst p)) (snd p))
                  (combine (combine (date_range start end_) mean_ds) std_ds))).
Proof.
  intro HK. split; [|split].
  - intros d v Hd. rewrite (multiplier_of_absent _ _ Hd).
    repeat split; [apply div_one | apply mul_one].
  - intro df. now apply training_targets_keyed.
  - intros gp scaler start end_ x mean_ds std_ds Hx Hgp Hm Hs.
    now apply (predict_daily_keyed gp scaler start end_ HK Hx Hgp).
Qed.

End MultiplierClaims.

(* ================================================================== *)
(** * The MissingValueFiller *)
(* ================================================================== *)

(** C7.  With an observed table keyed by date, the filler returns one row
    for each row of the prediction table, in order: the row of
    [fill_row_spec].  It has filled = false and the observed value when
    the date has one, filled = true and the predicted mean otherwise, and
    the prediction row with its bounds pred_lo and pred_hi as they
    were. *)
Theorem fill_missing_with_gp_spec (df_obs : list Listing.row)
    (df_pred : list Prediction.row) :
  keyed Listing.contract_date df_obs ->
  fill_missing_with_gp df_obs df_pred = map (fill_row_spec df_obs) df_pred
  /\ Forall (fun p =>
       let r := fill_row_spec df_obs p in
       Filled.prediction r = p
       /\ match observed_value df_obs (Prediction.contract_date p) with
          | Some v =>
              Filled.filled r = false
              /\ Filled.registration_time_filled r = of_Z v
          | None =>
              Filled.filled r = true
              /\ Filled.registration_time_filled r = Prediction.pred_mean p
          end)
     df_pred.
Proof.
  intro HK. split.
  - unfold fill_missing_with_gp.
    rewrite (left_join_keyed Z.eqb Z.eqb_eq
               (fun r => Some (Prediction.contract_date r)) df_pred HK).
    rewrite map_map. apply map_ext. intro p. cbn [fst snd].
    unfold fill_row_spec, observed_value, lookup.
    destruct (find _ df_obs) as [o|]; [|reflexivity].
    destruct (Listing.registration_time o); reflexivity.
  - apply Forall_forall. intros p _. cbn zeta. unfold fill_row_spec.
    destruct (observed_value df_obs (Prediction.contract_date p));
      cbn; auto.
Qed.

(* ================================================================== *)
(** * The segment loop *)
(* ================================================================== *)

Section Segments.

Context {M : MathLib} {SK : SkLearn}.
Variable today : date.

Lemma drop_nulls_filter (f : Listing.row -> bool) (df : list Listing.row) :
  (List.length (drop_nulls (filter f df)) <= List.length (drop_nulls df))%nat.
Proof.
  induction df as [|r df IH]; simpl; [lia|].
  destruct (f r); simpl;
    destruct (Listing.contract_date r), (Listing.registration_time r);
    simpl; lia.
Qed.

Lemma small_filter (f : Listing.row -> bool) (df : list Listing.row) :
  small df -> small (filter f df).
Proof.
  unfold small. pose proof (drop_nulls_filter f df). lia.
Qed.

Lemma fit_and_predict_small (df : list Listing.row) (horizon_days : Z)
    (city type_of_room : option string) :
  small df -> _fit_and_predict today df horizon_days city type_of_room = ok [].
Proof.
  unfold small, _fit_and_predict, MIN_ROWS_FOR_GP. intro H.
  apply Z.ltb_lt in H. now rewrite H.
Qed.

Lemma extend_all_skips (df : list Listing.row) (horizon_days : Z)
    (city type_of_room : option string)
    (before after : list (list Listing.row * option string * option string))
    (results : list Output.row) :
  small df ->
  extend_all today results horizon_days
    (before ++ (df, city, type_of_room) :: after)
  = extend_all today results horizon_days (before ++ after).
Proof.
  intro H. revert results.
  induction before as [|[[df' c'] t'] before IH]; intro results.
  - cbn [app extend_all]. rewrite (fit_and_predict_small _ _ _ H), bind_ret.
    now rewrite app_nil_r.
  - cbn [app extend_all].
    destruct (_fit_and_predict today df' horizon_days c' t') as [e|rows];
      [reflexivity|].
    rewrite !bind_ret. apply IH.
Qed.

Lemma extend_all_small (horizon_days : Z)
    (segments : list (list Listing.row * option string * option string))
    (results : list Output.row) :
  Forall (fun seg => small (fst (fst seg))) segments ->
  extend_all today results horizon_days segments = ok results.
Proof.
  induction 1 as [|[[df c] t] segments Hs _ IH]; [reflexivity|].
  cbn [extend_all]. cbn [fst] in Hs.
  rewrite (fit_and_predict_small _ _ _ Hs), bind_ret, app_nil_r. exact IH.
Qed.

Lemma segments_small (df : list Listing.row) :
  small df -> Forall (fun seg => small (fst (fst seg))) (segments_of df).
Proof.
  intro H. unfold segments_of. constructor; [exact H|].
  apply Forall_app. split; apply Forall_forall; intros seg Hseg;
    apply in_map_iff in Hseg; destruct Hseg as [c [<- _]]; cbn [fst];
    now apply small_filter.
Qed.

(** C6.  A segment with fewer than 20 rows that have both a date and a
    value yields no prediction row and raises nothing; in the loop over
    the segments it leaves the results as they are and the loop goes on
    with the segments after it; and a table that is itself that small
    makes the whole run return the empty list. *)
Theorem small_segment_yields_no_rows (df : list Listing.row)
    (horizon_days : Z) (city type_of_room : option string) :
  Z.of_nat (List.length (drop_nulls df)) < 20 ->
  _fit_and_predict today df horizon_days city type_of_room = ok []
  /\ (forall before after results,
        extend_all today results horizon_days
          (before ++ (df, city, type_of_room) :: after)
        = extend_all today results horizon_days (before ++ after))
  /\ compute_all_predictions today df horizon_days = ok [].
Proof.
  intro H. split; [|split].
  - now apply fit_and_predict_small.
  - intros. now apply extend_all_skips.
  - unfold compute_all_predictions. apply extend_all_small.
    now apply segments_small.
Qed.

End Segments.

(* ================================================================== *)
(** * The MonthlyMultiplierBuilder *)
(* ================================================================== *)

Lemma length_arange (lo hi : Z) : List.length (arange lo hi) = Z.to_nat (hi - lo).
Proof. unfold arange. now rewrite length_map, length_seq. Qed.

Lemma length_smooth (r : Z) (vals : list float) :
  List.length (smooth r vals) = 12%nat.
Proof. unfold smooth. now rewrite length_map. Qed.

(** The filled values: one for each month 1..12, the provided value or
    the mean of the provided values. *)
Lemma filled_values_spec (column : Trends.row -> option float)
    (trends_monthly : list Trends.row) :
  provided_values column trends_monthly <> [] ->
  filled_values column trends_monthly
  = ok (map (filled_value_spec column trends_monthly) (arange 1 13)).
Proof.
  intro H. unfold filled_values. rewrite scaffold_spec, !map_map.
  cbn [fst snd]. unfold col_mean.
  change (non_null (map (fun x => provided_value column trends_monthly x)
                        (arange 1 13)))
    with (provided_values column trends_monthly).
  destruct (provided_values column trends_monthly) as [|v vs] eqn:E;
    [congruence|].
  cbn [py_float]. rewrite bind_ret, map_map. f_equal.
  apply map_ext. intro m. cbn [snd]. unfold filled_value_spec. rewrite E.
  destruct (provided_value column trends_monthly m); reflexivity.
Qed.

Lemma filled_values_none (column : Trends.row -> option float)
    (trends_monthly : list Trends.row) :
  provided_values column trends_monthly = [] ->
  exists e, filled_values column trends_monthly = inl e
            /\ exn_class e = "TypeError"%string.
Proof.
  intro H. unfold filled_values. rewrite scaffold_spec, !map_map.
  cbn [fst snd]. unfold col_mean.
  change (non_null (map (fun x => provided_value column trends_monthly x)
                        (arange 1 13)))
    with (provided_values column trends_monthly).
  rewrite H. eexists. split; reflexivity.
Qed.

Section Builder.

Context {M : MathLib}.

Lemma length_profile_values (strength : float) (r : Z) (vals : list float) :
  List.length vals = 12%nat ->
  List.length (profile_values strength r vals) = 12%nat.
Proof.
  intro H. unfold profile_values.
  destruct (neqb strength one); rewrite ?length_map;
    destruct (0 <? r); rewrite ?length_smooth; auto.
Qed.

Lemma cast_int32_months (trends_monthly : list Trends.row) :
  cast_int32 (map Trends.month trends_monthly)
  = if months_fit_int32 trends_monthly
    then ok (map Trends.month trends_monthly)
    else raise "InvalidOperationError"
           "conversion from `i64` to `i32` failed in column 'month'".
Proof.
  unfold cast_int32, months_fit_int32.
  assert (E : forall (f : option Z -> bool) (l : list Trends.row),
             forallb f (map Trends.month l)
             = forallb (fun r => f (Trends.month r)) l).
  { intros f l. induction l as [|x l IH]; cbn [map forallb];
      [reflexivity | now rewrite IH]. }
  now rewrite E.
Qed.

Lemma trends_monthly_multiplier_ok (trends_monthly : list Trends.row)
    (column : Trends.row -> option float) (strength : float) (r : Z)
    (vals : list float) :
  months_fit_int32 trends_monthly = true ->
  filled_values column trends_monthly = ok vals ->
  List.length vals = 12%nat ->
  trends_monthly_multiplier trends_monthly column strength r
  = ok (map multiplier_row
            (combine (arange 1 13) (profile_values strength r vals))).
Proof.
  intros Hc Hv Hl. unfold trends_monthly_multiplier.
  rewrite cast_int32_months, Hc, bind_ret. rewrite Hv, bind_ret.
  fold (profile_values strength r vals).
  now rewrite (length_profile_values strength r vals Hl).
Qed.

Lemma multiplier_rows (vals : list float) :
  List.length vals = 12%nat ->
  map Multiplier.month (map multiplier_row (combine (arange 1 13) vals))
  = map Some (arange 1 13)
  /\ multipliers (map multiplier_row (combine (arange 1 13) vals)) = vals.
Proof.
  intro H.
  do 12 (destruct vals as [|? vals]; [discriminate|]).
  destruct vals; [|discriminate]. split; reflexivity.
Qed.

End Builder.

(* ---------------- smoothing ---------------- *)

Lemma take_indices_Fin (qs : list Q) (idx : list Z) :
  (forall k, In k idx -> (Z.to_nat k < List.length qs)%nat) ->
  take_indices (map Fin qs) idx = map Fin (qtake qs idx).
Proof.
  intro H. unfold take_indices, qtake. rewrite map_map.
  apply map_ext_in. intros k Hk.
  rewrite (nth_indep _ NaN (Fin 0)) by (rewrite length_map; now apply H).
  apply map_nth.
Qed.

Lemma Qeq_bool_false (q : Q) : ~ (q == 0)%Q -> Qeq_bool q 0 = false.
Proof.
  intro H. destruct (Qeq_bool q 0) eqn:E; [|reflexivity].
  apply Qeq_bool_iff in E. contradiction.
Qed.

(** Smoothing an array of twelve finite values: each month gets the sum
    of its window over the size of the template. *)
Lemma smooth_Fin (r : Z) (qs : list Q) :
  List.length qs = 12%nat -> 0 < r ->
  smooth r (map Fin qs)
  = map Fin
      (map (fun w => w / inject_Z (Z.of_nat (List.length (arange (- r) (r + 1)))))%Q
           (window_sums qs (arange (- r) (r + 1)))).
Proof.
  intros Hl Hr. unfold smooth, window_sums. rewrite !map_map.
  apply map_ext. intro i.
  rewrite take_indices_Fin.
  - rewrite np_mean_Fin.
    + unfold qtake. now rewrite !length_map.
    + unfold qtake. intro E. apply (f_equal (@List.length Q)) in E.
      rewrite !length_map, length_arange in E. simpl in E. lia.
  - intros k Hk. apply in_map_iff in Hk. destruct Hk as [k0 [<- _]].
    rewrite Hl. pose proof (Z.mod_pos_bound (i + k0) 12). lia.
Qed.

Section BuilderClaims.

Context {M : MathLib}.


(** C8.  For a table that provides a value for at least one of the months
    1..12, every month for which the table has no value is filled with
    the arithmetic mean of the provided values before smoothing and
    normalization.  For the months 1, 6, 12 with the values 100, 50, 75
    the other nine months are filled with 75, and the result has 12 rows
    with mean multiplier 1.0. *)
Theorem missing_months_filled_with_mean (column : Trends.row -> option float)
    (trends_monthly : list Trends.row) :
  provided_values column trends_monthly <> [] ->
  filled_values column trends_monthly
  = ok (map (filled_value_spec column trends_monthly) (arange 1 13))
  /\ (forall m,
        provided_value column trends_monthly m = None ->
        filled_value_spec column trends_monthly m
        = np_mean (provided_values column trends_monthly))
  /\ (exists vals rows,
        filled_values Trends.value_mean three_months = ok vals
        /\ Forall2 same vals
             (map of_Z [100; 75; 75; 75; 75; 50; 75; 75; 75; 75; 75; 75])
        /\ trends_monthly_multiplier three_months Trends.value_mean one 0
           = ok rows
        /\ List.length rows = 12%nat
        /\ (np_mean (multipliers rows) =? one)%float = true).
Proof.
  intro H. split; [now apply filled_values_spec|]. split.
  - intros m Hm. unfold filled_value_spec. now rewrite Hm.
  - eexists. eexists.
    split; [vm_compute; reflexivity|].
    split; [repeat constructor|].
    split; [vm_compute; reflexivity|].
    split; reflexivity.
Qed.

End BuilderClaims.

(* ================================================================== *)
(** * The ProbabilityScorer *)
(* ================================================================== *)

Section Scorer.

Context {M : MathLib}.

Lemma Qsgn_sub_self (v : Q) : Qsgn (v + - v) = 0.
Proof.
  unfold Qsgn. destruct v as [n d]. simpl.
  replace (n * Z.pos d + - n * Z.pos d) with 0 by ring. reflexivity.
Qed.

Lemma Qeq_bool_sub_self (v : Q) : Qeq_bool (v + - v) 0 = true.
Proof. apply Qeq_bool_iff. ring. Qed.

(** C4, at the failing input.  For a table of one row whose bounds
    coincide with the target value (hi = lo = target), the scorer returns
    a row whose ci_pct is NaN: 0/0 passes through [np.clip] and the
    multiplication by 100.  NaN is not a value of [0, 100]. *)
Theorem ci_pct_is_nan_on_degenerate_interval (d : date) (mean v : Q)
    (dir : direction) :
  exists r,
    add_prob_good_enough [finite_row d mean v v] (fun _ => Fin v) dir = ok [r]
    /\ Scored.ci_pct r = NaN
    /\ percentage (Scored.ci_pct r) = false.
Proof.
  unfold add_prob_good_enough, finite_row.
  cbn [map fst snd Prediction.pred_lo Prediction.pred_hi Prediction.pred_mean
       Prediction.contract_date].
  rewrite !np_binop_same_length by reflexivity.
  rewrite !bind_ret. unfold zip_with. cbn [combine map fst snd].
  rewrite !np_binop_same_length by reflexivity.
  rewrite !bind_ret. unfold zip_with. cbn [combine map fst snd _typed_vectorize].
  rewrite bind_ret. cbn [List.length Nat.eqb combine map fst snd].
  eexists. split; [reflexivity|].
  cbn [Scored.ci_pct fst snd sub neg add div].
  rewrite Qeq_bool_sub_self, Qsgn_sub_self. split; reflexivity.
Qed.

(** A table of two rows or more makes [_typed_vectorize] call [_erf_np]
    with as many arguments: the scorer raises TypeError. *)
Lemma add_prob_good_enough_two_rows (r1 r2 : Prediction.row)
    (df_pred : list Prediction.row) (my_time_fn : date -> float)
    (dir : direction) :
  exists e,
    add_prob_good_enough (r1 :: r2 :: df_pred) my_time_fn dir = inl e
    /\ exn_class e = "TypeError"%string.
Proof.
  unfold add_prob_good_enough.
  rewrite np_binop_same_length by now rewrite !length_map.
  rewrite bind_ret.
  rewrite np_binop_same_length by now rewrite !length_map.
  rewrite bind_ret.
  rewrite np_binop_same_length
    by (unfold zip_with; repeat rewrite ?length_map, ?length_combine; lia).
  rewrite bind_ret.
  cbn [map combine zip_with fst snd _typed_vectorize].
  unfold zip_with. cbn [map combine fst snd _typed_vectorize].
  eexists. split; reflexivity.
Qed.

(** For a table of one row with finite values and lo < hi, ci_pct is a
    percentage, and so is the probability when [math.erf] gives a value of
    [-1, 1] at the standardized target. *)
Lemma add_prob_good_enough_regular (d : date) (mean lo hi t : Q)
    (dir : direction) :
  (lo < hi)%Q ->
  exists r,
    add_prob_good_enough [finite_row d mean lo hi] (fun _ => Fin t) dir = ok [r]
    /\ percentage (Scored.ci_pct r) = true
    /\ forall z, Scored.prob_good_enough r
                 = (match dir with
                    | at_least => f_0_5 * (one + math_erf z)
                    | at_most => one - f_0_5 * (one + math_erf z)
                    end * f_100)%float ->
                 (exists q, math_erf z = Fin q /\ (-1 <= q <= 1)%Q) ->
                 percentage (Scored.prob_good_enough r) = true.
Proof.
  intro Hlt.
  unfold add_prob_good_enough, finite_row.
  cbn [map fst snd Prediction.pred_lo Prediction.pred_hi Prediction.pred_mean
       Prediction.contract_date].
  rewrite !np_binop_same_length by reflexivity.
  rewrite !bind_ret. unfold zip_with. cbn [combine map fst snd].
  rewrite !np_binop_same_length by reflexivity.
  rewrite !bind_ret. unfold zip_with. cbn [combine map fst snd _typed_vectorize].
  rewrite bind_ret. cbn [List.length Nat.eqb combine map fst snd].
  eexists. split; [reflexivity|].
  cbn [Scored.ci_pct Scored.prob_good_enough fst snd]. split.
  - cbn [sub neg add div].
    rewrite Qeq_bool_false by lra.
    unfold clip, percentage, zero, one, f_100.
    set (q := ((t + - lo) / (hi + - lo))%Q).
    cbn [maximum leb].
    destruct (Qle_bool q 0) eqn:E1.
    + cbn [minimum leb]. change (Qle_bool 0 1) with true. cbn [mul].
      apply andb_true_iff. split; apply leb_Fin; lra.
    + cbn [minimum leb].
      assert (Hq : (0 < q)%Q).
      { apply Qnot_le_lt. intro Hle. apply Qle_bool_iff in Hle. congruence. }
      destruct (Qle_bool q 1) eqn:E2.
      * apply Qle_bool_iff in E2. cbn [mul].
        apply andb_true_iff. split; apply leb_Fin; lra.
      * cbn [mul]. apply andb_true_iff. split; apply leb_Fin; lra.
  - intros z -> [q [-> Hq]].
    unfold percentage, zero, one, f_0_5, f_100.
    destruct dir; cbn [mul add sub neg];
      apply andb_true_iff; split; apply leb_Fin; lra.
Qed.

End Scorer.

(* ================================================================== *)
(** * Concrete runs *)
(* ================================================================== *)

(** C1, at a failing input: a model that predicts the mean -5 with
    standard deviation 1 gives a row with lo = 0 above the mean. *)
Lemma negative_mean_breaks_bounds :
  exists r,
    @predict_daily Reference.math Reference.sklearn
      (constant_model (-5) 1) fitted_scaler d_2025_07_01 d_2025_07_01 None
    = ok [r]
    /\ Prediction.pred_mean r = Fin (-5)
    /\ Prediction.pred_lo r = Fin 0
    /\ (Prediction.pred_lo r <=? Prediction.pred_mean r)%float = false
    /\ bounds_ordered r = false.
Proof.
  eexists. split; [vm_compute; reflexivity|]. repeat split.
Qed.

(** C1, witness: the same model on three days. *)
Lemma predict_daily_lo_above_a_negative_mean_witness :
  exists rows,
    @predict_daily Reference.math Reference.sklearn
      (constant_model (-5) 1) fitted_scaler d_2025_07_01 (d_2025_07_01 + 2)
      None
    = ok rows
    /\ List.length rows = 3%nat
    /\ Forall (fun r =>
         forall m, Prediction.pred_mean r = Fin m -> (m < 0)%Q ->
           Prediction.pred_lo r = zero
           /\ (Prediction.pred_lo r <=? Prediction.pred_mean r)%float = false)
       rows.
Proof.
  eexists. split; [vm_compute; reflexivity|]. split; [reflexivity|].
  eapply (@predict_daily_lo_above_a_negative_mean Reference.math
            Reference.sklearn (constant_model (-5) 1) fitted_scaler
            d_2025_07_01 (d_2025_07_01 + 2)).
  - vm_compute; reflexivity.
  - vm_compute; reflexivity.
  - repeat constructor.
  - vm_compute; reflexivity.
Defined.

(** C9, witness: the 184 days from 2025-07-01 to 2025-12-31. *)
Lemma predict_daily_one_row_per_day_witness :
  exists rows,
    @predict_daily Reference.math Reference.sklearn
      (constant_model 10 1) fitted_scaler d_2025_07_01 (d_2025_07_01 + 183)
      None
    = ok rows
    /\ map Prediction.contract_date rows
       = date_range d_2025_07_01 (d_2025_07_01 + 183)
    /\ Z.of_nat (List.length rows) = 184
    /\ StronglySorted Z.lt (map Prediction.contract_date rows).
Proof.
  eapply (@predict_daily_one_row_per_day Reference.math Reference.sklearn
            (constant_model 10 1) fitted_scaler d_2025_07_01
            (d_2025_07_01 + 183) None).
  - vm_compute; discriminate.
  - vm_compute; reflexivity.
  - vm_compute; reflexivity.
  - vm_compute; reflexivity.
  - vm_compute; reflexivity.
  - vm_compute; reflexivity.
  - exact I.
Defined.

(** C5, counterexample: with the end five days before the start the
    Predictor fails, and the exception is the ValueError of the scaler's
    input validation. *)
Lemma end_before_start_raises_value_error :
  (exists e,
     @predict_daily Reference.math Reference.sklearn
       (constant_model 10 1) fitted_scaler d_2025_07_01 (d_2025_07_01 - 5) None
     = inl e
     /\ exn_class e = "ValueError"%string)
  /\ ~ (exists e,
          @predict_daily Reference.math Reference.sklearn
            (constant_model 10 1) fitted_scaler d_2025_07_01
            (d_2025_07_01 - 5) None
          = inl e
          /\ exn_class e = "InvalidRangeError"%string).
Proof.
  split.
  - eexists. split; vm_compute; reflexivity.
  - intros [e [He Hc]]. vm_compute in He. injection He as <-. discriminate.
Qed.

(** C5, witness: the same range. *)
Lemma predict_daily_end_before_start_witness :
  @x_raw_of Reference.math d_2025_07_01 (d_2025_07_01 - 5) = []
  /\ (forall e, @transform Reference.sklearn fitted_scaler [] = inl e ->
        @predict_daily Reference.math Reference.sklearn
          (constant_model 10 1) fitted_scaler d_2025_07_01
          (d_2025_07_01 - 5) None = inl e).
Proof.
  destruct (@predict_daily_end_before_start Reference.math Reference.sklearn
              (constant_model 10 1) fitted_scaler d_2025_07_01
              (d_2025_07_01 - 5) None) as [H1 [H2 _]].
  - vm_compute; reflexivity.
  - split; [exact H1 | exact H2].
Defined.

Lemma keyed_january_nan_february_zero :
  keyed Multiplier.month january_nan_february_zero.
Proof.
  unfold keyed. cbn. repeat constructor; cbn; intuition discriminate.
Defined.

Lemma keyed_july_only : keyed Multiplier.month july_only.
Proof.
  unfold keyed. cbn. repeat constructor; cbn; intuition discriminate.
Defined.

(** C2, counterexample: the zero multiplier of February is finite, so it
    is kept, and the target of the February week is 900/0 = +inf; the NaN
    multiplier of January is replaced and the January target is the
    weekly mean 600. *)
Lemma zero_multiplier_gives_infinite_target :
  exists feats,
    @training_targets Reference.math three_observations
      (Some january_nan_february_zero)
    = ok (feats, [(Fin 1200 / of_Z 2 / one)%float; PInf])
    /\ isfinite PInf = false.
Proof.
  eexists. split; [vm_compute; reflexivity | reflexivity].
Qed.

(** C2, with the stand-in library: the infinite target reaches the
    regression, which rejects it. *)
Lemma zero_multiplier_fails_the_fit :
  exists e,
    @fit_gp_with_calendar Reference.math Reference.sklearn three_observations
      (Some january_nan_february_zero)
    = inl e
    /\ exn_class e = "ValueError"%string.
Proof.
  eexists. split; vm_compute; reflexivity.
Qed.

(** C2, witness. *)
Lemma fit_neutralizes_non_finite_multipliers_witness :
  @training_targets Reference.math three_observations
    (Some january_nan_february_zero)
  = ok (@build_features Reference.math
          (map Weekly.contract_date (weekly_rows three_observations)),
        map (deseasonalized january_nan_february_zero)
            (weekly_rows three_observations))
  /\ (forall d r v,
        lookup Z.eqb Multiplier.month (Date.month d) january_nan_february_zero
        = Some r ->
        Multiplier.month_multiplier r = Some v ->
        isfinite v = false ->
        multiplier_of january_nan_february_zero d = one)
  /\ Forall (fun w =>
       let k := multiplier_of january_nan_february_zero (Weekly.contract_date w) in
       isfinite k = true
       /\ ((k =? zero)%float = true ->
           isfinite (deseasonalized january_nan_february_zero w) = false)
       /\ (k = one ->
           same (deseasonalized january_nan_february_zero w)
                (Weekly.registration_time w)))
     (weekly_rows three_observations).
Proof.
  apply (@fit_neutralizes_non_finite_multipliers Reference.math
           three_observations january_nan_february_zero).
  exact keyed_january_nan_february_zero.
Defined.

(** C10, witness: a table with a row for July only. *)
Lemma absent_month_has_multiplier_one_witness :
  (forall d v,
      ~ In (Some (Date.month d)) (map Multiplier.month july_only) ->
      multiplier_of july_only d = one
      /\ same (v / multiplier_of july_only d) v
      /\ same (v * multiplier_of july_only d) v)
  /\ multiplier_of july_only d_2024_01_01 = one
  /\ multiplier_of july_only d_2025_07_01 = Fin 2.
Proof.
  destruct (@absent_month_has_multiplier_one Reference.math Reference.sklearn
              july_only keyed_july_only) as [H _].
  split; [exact H|]. split; reflexivity.
Defined.

(** C10, a run: fitting and predicting with the July-only table. *)
Lemma partial_table_run :
  (exists feats,
     @training_targets Reference.math three_observations (Some july_only)
     = ok (feats, [(Fin 1200 / of_Z 2 / one)%float; (Fin 900 / of_Z 1 / one)%float]))
  /\ (exists r1 r2,
        @predict_daily Reference.math Reference.sklearn
          (constant_model 10 1) fitted_scaler (d_2025_07_01 - 1) d_2025_07_01
          (Some july_only)
        = ok [r1; r2]
        /\ Prediction.pred_mean r1 = (Fin 10 * one)%float
        /\ Prediction.pred_mean r2 = (Fin 10 * Fin 2)%float).
Proof.
  split.
  - eexists. vm_compute. reflexivity.
  - eexists. eexists. split; [vm_compute; reflexivity|]. split; reflexivity.
Qed.

(** C7, witness: two predictions, one of them with an observation. *)
Lemma fill_missing_with_gp_spec_witness :
  let df_obs := [listing (Some 19724) (Some 650) "Delft" "Studio";
                 listing (Some 19725) None "Delft" "Studio"] in
  let df_pred := [finite_row 19723 600 500 700; finite_row 19724 610 510 710;
                  finite_row 19725 620 520 720] in
  fill_missing_with_gp df_obs df_pred = map (fill_row_spec df_obs) df_pred
  /\ map Filled.filled (fill_missing_with_gp df_obs df_pred)
     = [true; false; true]
  /\ map Filled.registration_time_filled (fill_missing_with_gp df_obs df_pred)
     = [Fin 600; of_Z 650; Fin 620].
Proof.
  cbn zeta.
  destruct (@fill_missing_with_gp_spec
              [listing (Some 19724) (Some 650) "Delft" "Studio";
               listing (Some 19725) None "Delft" "Studio"]
              [finite_row 19723 600 500 700; finite_row 19724 610 510 710;
               finite_row 19725 620 520 720]) as [H _].
  - unfold keyed. cbn. repeat constructor; cbn; intuition discriminate.
  - split; [exact H|]. split; reflexivity.
Defined.

(** C6, witness: a segment of three listings, two of them with a value. *)
Lemma small_segment_yields_no_rows_witness :
  @_fit_and_predict Reference.math Reference.sklearn d_2025_07_01
    small_segment 730 (Some "Delft"%string) None = ok []
  /\ @compute_all_predictions Reference.math Reference.sklearn d_2025_07_01
       small_segment 730 = ok [].
Proof.
  destruct (@small_segment_yields_no_rows Reference.math Reference.sklearn
              d_2025_07_01 small_segment 730 (Some "Delft"%string) None)
    as [H1 [_ H3]].
  - vm_compute; reflexivity.
  - split; [exact H1 | exact H3].
Defined.


(** C3: an empty table makes [float(None)] raise TypeError; no row is
    returned. *)
Lemma empty_table_raises_type_error :
  exists e,
    @trends_monthly_multiplier Reference.math [] Trends.value_mean one 0 = inl e
    /\ exn_class e = "TypeError"%string.
Proof.
  eexists. split; vm_compute; reflexivity.
Qed.

(** C3: with strength 2 the multipliers are squared after the
    normalization; for six months at 1 and six at 3 their mean is 1.25. *)
Lemma strength_two_moves_the_mean :
  exists rows,
    @trends_monthly_multiplier Reference.math
      [trend 1 1; trend 2 3; trend 3 1; trend 4 3; trend 5 1; trend 6 3;
       trend 7 1; trend 8 3; trend 9 1; trend 10 3; trend 11 1; trend 12 3]
      Trends.value_mean (Fin 2) 0
    = ok rows
    /\ (np_mean (multipliers rows) =? Fin (5 # 4))%float = true
    /\ within f_1e_6 (np_mean (multipliers rows)) one = false.
Proof.
  eexists. split; [vm_compute; reflexivity|]. split; reflexivity.
Qed.

(** C3: a month that is not a value of Int32 makes the cast raise; no row
    is returned. *)
Lemma month_outside_int32_raises :
  exists e,
    @trends_monthly_multiplier Reference.math
      [trend 1 100; trend 2147483648 50] Trends.value_mean one 0
    = inl e
    /\ exn_class e = "InvalidOperationError"%string.
Proof.
  eexists. split; vm_compute; reflexivity.
Qed.


(** C8, witness: the months 1, 6, 12. *)
Lemma missing_months_filled_with_mean_witness :
  filled_values Trends.value_mean three_months
  = ok (map (filled_value_spec Trends.value_mean three_months) (arange 1 13))
  /\ same (filled_value_spec Trends.value_mean three_months 2) (Fin 75).
Proof.
  destruct (@missing_months_filled_with_mean Reference.math
              Trends.value_mean three_months) as [H1 [H2 _]].
  - vm_compute; discriminate.
  - split; [exact H1|]. rewrite H2 by reflexivity. vm_compute. reflexivity.
Defined.

(* ================================================================== *)
(** * The weekly table *)
(* ================================================================== *)

Section SortSorted.

Variables A K : Type.
Variable key : A -> K.
Variable leb : K -> K -> bool.
Hypothesis leb_total : forall a b, leb a b = true \/ leb b a = true.

Let le (a b : A) : Prop := leb (key a) (key b) = true.

Lemma insert_sorted_HdRel (x a : A) (l : list A) :
  le a x -> HdRel le a l -> HdRel le a (insert_sorted key leb x l).
Proof.
  intros Hax H. destruct l as [|y l]; cbn [insert_sorted].
  - now constructor.
  - destruct (leb (key x) (key y)); constructor; [exact Hax | now inversion H].
Qed.

Lemma insert_sorted_Sorted (x : A) (l : list A) :
  Sorted le l -> Sorted le (insert_sorted key leb x l).
Proof.
  induction 1 as [|y l Hs IH Hd]; cbn [insert_sorted].
  - repeat constructor.
  - destruct (leb (key x) (key y)) eqn:E.
    + constructor; [now constructor | now constructor].
    + constructor; [exact IH|].
      apply insert_sorted_HdRel; [|exact Hd].
      destruct (leb_total (key x) (key y)) as [H|H]; [congruence | exact H].
Qed.

Lemma sort_Sorted (l : list A) : Sorted le (sort key leb l).
Proof.
  unfold sort. induction l as [|x l IH]; cbn [fold_right];
    [constructor | now apply insert_sorted_Sorted].
Qed.

End SortSorted.

Lemma Zleb_total (a b : Z) : (a <=? b) = true \/ (b <=? a) = true.
Proof. rewrite !Z.leb_le. lia. Qed.

Lemma Sorted_le_NoDup_lt (l : list Z) :
  Sorted (fun a b => (a <=? b) = true) l -> NoDup l -> StronglySorted Z.lt l.
Proof.
  intros Hs Hn.
  apply Sorted_StronglySorted in Hs;
    [|intros a b c Hab Hbc; apply Z.leb_le in Hab, Hbc; apply Z.leb_le; lia].
  induction Hs as [|a l Hs IH Hf]; constructor.
  - apply IH. now inversion Hn.
  - inversion Hn as [|? ? Hnot _]. subst.
    rewrite Forall_forall in *. intros x Hx.
    specialize (Hf x Hx). apply Z.leb_le in Hf.
    assert (a <> x) by (intros ->; contradiction). lia.
Qed.

Lemma Sorted_map {A B} (f : A -> B) (R : B -> B -> Prop) (l : list A) :
  Sorted (fun a b => R (f a) (f b)) l -> Sorted R (map f l).
Proof.
  induction 1 as [|a l Hs IH Hd]; cbn [map]; constructor; [exact IH|].
  destruct Hd; cbn [map]; now constructor.
Qed.

Lemma fold_left_min (ds : list date) (d : date) :
  In (fold_left Z.min ds d) (d :: ds)
  /\ forall x, In x (d :: ds) -> fold_left Z.min ds d <= x.
Proof.
  revert d. induction ds as [|a ds IH]; intro d; cbn [fold_left].
  - split; [now left | intros x [<-|[]]; lia].
  - destruct (IH (Z.min d a)) as [H1 H2]. split.
    + destruct H1 as [H1|H1]; [|right; now right].
      rewrite <- H1.
      destruct (Z.min_spec d a) as [[_ E]|[_ E]]; rewrite E;
        [left | right; left]; reflexivity.
    + intros x Hx.
      assert (Hm : fold_left Z.min ds (Z.min d a) <= Z.min d a)
        by (apply H2; now left).
      destruct Hx as [<-|[<-|Hx]]; [lia | lia | apply H2; now right].
Qed.

Lemma min_date_spec (ds : list date) (m : date) :
  min_date ds = Some m -> In m ds /\ forall x, In x ds -> m <= x.
Proof.
  destruct ds as [|d ds]; [discriminate|]. intros [= <-]. apply fold_left_min.
Qed.

Lemma NoDup_map_inv' {A B} (f : A -> B) (l : list A) :
  NoDup (map f l) -> NoDup l.
Proof.
  induction l as [|x l IH]; cbn [map]; intro H; [constructor|].
  inversion H as [|? ? Hnot Hn]. subst. constructor; [|now apply IH].
  intro Hin. apply Hnot. now apply in_map.
Qed.

(** The rows of [_aggregate_weekly] before they are sorted. *)
Lemma aggregate_weekly_unsorted (df : list Model.row) :
  exists pre,
    Permutation (_aggregate_weekly df) pre
    /\ map Weekly.week_start pre
       = unique Z.eqb (fun w => w)
           (map (fun r => truncate_1w (Model.contract_date r)) df)
    /\ Forall (fun w =>
         let rows := filter (fun r => truncate_1w (Model.contract_date r)
                                      =? Weekly.week_start w) df in
         rows <> []
         /\ min_date (map Model.contract_date rows) = Some (Weekly.contract_date w)
         /\ Weekly.registration_time w
            = np_mean (map (fun r => of_Z (Model.registration_time r)) rows))
       pre.
Proof.
  unfold _aggregate_weekly. eexists. split; [apply sort_Permutation|].
  split.
  - rewrite !map_map. cbn [Weekly.week_start fst]. apply map_id.
  - apply Forall_forall. intros w Hw.
    apply in_map_iff in Hw. destruct Hw as [[k rows] [<- Hg]].
    apply in_map_iff in Hg. destruct Hg as [k' [[= <- <-] Hk]].
    apply (unique_incl Z.eqb (fun w => w) []) in Hk.
    apply in_map_iff in Hk. destruct Hk as [r [Hr Hin]].
    cbn [Weekly.week_start Weekly.contract_date Weekly.registration_time fst snd].
    cbn zeta.
    set (rows := filter _ df).
    assert (Hne : rows <> []).
    { intro E. assert (Hr' : In r rows).
      { apply filter_In. split; [exact Hin | now apply Z.eqb_eq]. }
      rewrite E in Hr'. destruct Hr'. }
    split; [exact Hne|]. split; [|reflexivity].
    destruct rows as [|r0 rows0]; [congruence | reflexivity].
Qed.

(** X1 ([_aggregate_weekly]): the weekly table has its dates in strictly
    ascending order and no week twice; each row stands for the week
    (Monday) of its date, its date is a date of the input and the earliest
    input date of that week; every input row's week has a row. *)
Theorem aggregate_weekly_one_row_per_week (df : list Model.row) :
  let out := _aggregate_weekly df in
  StronglySorted Z.lt (map Weekly.contract_date out)
  /\ NoDup (map Weekly.week_start out)
  /\ Forall (fun w =>
       Weekly.week_start w = truncate_1w (Weekly.contract_date w)
       /\ In (Weekly.contract_date w) (map Model.contract_date df)
       /\ forall r, In r df ->
            truncate_1w (Model.contract_date r) = Weekly.week_start w ->
            Weekly.contract_date w <= Model.contract_date r)
     out
  /\ (forall r, In r df ->
        In (truncate_1w (Model.contract_date r)) (map Weekly.week_start out)).
Proof.
  cbn zeta.
  destruct (aggregate_weekly_unsorted df) as [pre [HP [Hws Hrows]]].
  assert (Hnd : NoDup (map Weekly.week_start (_aggregate_weekly df))).
  { eapply Permutation_NoDup;
      [apply Permutation_map, Permutation_sym, HP|].
    rewrite Hws.
    pose proof (unique_NoDup Z.eqb Z.eqb_eq (fun w => w)
                  (map (fun r => truncate_1w (Model.contract_date r)) df)) as H.
    now rewrite map_id in H. }
  assert (Hall : Forall (fun w =>
       Weekly.week_start w = truncate_1w (Weekly.contract_date w)
       /\ In (Weekly.contract_date w) (map Model.contract_date df)
       /\ forall r, In r df ->
            truncate_1w (Model.contract_date r) = Weekly.week_start w ->
            Weekly.contract_date w <= Model.contract_date r)
     (_aggregate_weekly df)).
  { eapply Permutation_Forall; [apply Permutation_sym, HP|].
    eapply Forall_impl; [|exact Hrows]. intros w [_ [Hmin _]]. cbn zeta in Hmin.
    apply min_date_spec in Hmin. destruct Hmin as [Hin Hle].
    apply in_map_iff in Hin. destruct Hin as [r0 [Hd Hr0]].
    apply filter_In in Hr0. destruct Hr0 as [Hr0 Hk]. apply Z.eqb_eq in Hk.
    split; [congruence|]. split.
    - rewrite <- Hd. now apply in_map.
    - intros r Hr Hw. apply Hle. apply in_map. apply filter_In.
      split; [exact Hr | now apply Z.eqb_eq]. }
  split; [|split; [exact Hnd | split; [exact Hall|]]].
  - apply Sorted_le_NoDup_lt.
    + apply Sorted_map with (R := fun a b => (a <=? b) = true).
      unfold _aggregate_weekly. apply sort_Sorted. apply Zleb_total.
    + apply (NoDup_map_inv' truncate_1w). rewrite map_map.
      erewrite map_ext_in; [exact Hnd|].
      intros w Hw. rewrite Forall_forall in Hall.
      symmetry. now apply Hall.
  - intros r Hr.
    eapply Permutation_in;
      [apply Permutation_map, Permutation_sym, HP|].
    rewrite Hws.
    assert (Hi : forall (l : list Z) x, In x l -> In x (unique Z.eqb (fun w => w) l)).
    { intros l x Hx.
      destruct (lookup Z.eqb (fun w : Z => Some w) x (unique Z.eqb (fun w => w) l)) eqn:E.
      - apply (lookup_In Z.eqb Z.eqb_eq) in E. destruct E as [Hin [= ->]]. exact Hin.
      - exfalso. unfold lookup in E.
        rewrite (find_unique Z.eqb Z.eqb_eq (fun w => w)
                   (fun k => key_match Z.eqb (Some x) (Some k))) in E.
        apply (find_none _ _ E) in Hx. cbn in Hx. now rewrite Z.eqb_refl in Hx. }
    apply Hi. now apply in_map with (f := fun r => truncate_1w (Model.contract_date r)).
Qed.

Lemma Qsum_inject_bounds (zs : list Z) (lo hi : Z) :
  Forall (fun z => lo <= z <= hi) zs ->
  (inject_Z (Z.of_nat (List.length zs)) * inject_Z lo <= Qsum (map inject_Z zs)
   /\ Qsum (map inject_Z zs) <= inject_Z (Z.of_nat (List.length zs)) * inject_Z hi)%Q.
Proof.
  induction 1 as [|z zs [Hlo Hhi] _ [IH1 IH2]].
  - cbn [map Qsum List.length]. change (inject_Z (Z.of_nat 0)) with 0%Q. split; lra.
  - cbn [map Qsum List.length].
    rewrite Nat2Z.inj_succ, <- Z.add_1_r, inject_Z_plus.
    rewrite Zle_Qle in Hlo, Hhi. change (inject_Z 1) with 1%Q. split; nra.
Qed.

(** X2 ([_aggregate_weekly]): the value of a weekly row is a mean: it lies
    between any two bounds that hold for the registration times of the
    input rows of its week, when these times are small enough to add up
    without rounding in float64. *)
Theorem aggregate_weekly_mean_in_range (df : list Model.row) :
  Forall (fun w =>
       forall lo hi,
         (forall r, In r df ->
            truncate_1w (Model.contract_date r) = Weekly.week_start w ->
            lo <= Model.registration_time r <= hi) ->
         sums_exactly
           (Z.of_nat (List.length
              (filter (fun r => truncate_1w (Model.contract_date r)
                                =? Weekly.week_start w) df)))
           lo hi ->
         (of_Z lo <=? Weekly.registration_time w)%float = true
         /\ (Weekly.registration_time w <=? of_Z hi)%float = true)
     (_aggregate_weekly df).
Proof.
  destruct (aggregate_weekly_unsorted df) as [pre [HP [_ Hrows]]].
  eapply Permutation_Forall; [apply Permutation_sym, HP|].
  eapply Forall_impl; [|exact Hrows].
  intros w [Hne [_ Hval]] lo hi Hb _. cbn zeta in *.
  set (rows := filter (fun r => truncate_1w (Model.contract_date r)
                                =? Weekly.week_start w) df) in *.
  set (zs := map Model.registration_time rows).
  assert (Hzs : Forall (fun z => lo <= z <= hi) zs).
  { apply Forall_forall. intros z Hz. apply in_map_iff in Hz.
    destruct Hz as [r [<- Hr]]. apply filter_In in Hr. destruct Hr as [Hr Hk].
    apply Hb; [exact Hr | now apply Z.eqb_eq]. }
  assert (Hz0 : zs <> []) by (unfold zs; destruct rows; [congruence | discriminate]).
  rewrite Hval, <- (map_map Model.registration_time of_Z), map_of_Z.
  fold zs. rewrite np_mean_Fin
    by (destruct zs; [congruence | discriminate]).
  rewrite length_map.
  destruct (Qsum_inject_bounds Hzs) as [H1 H2].
  assert (Hn : (0 < inject_Z (Z.of_nat (List.length zs)))%Q).
  { rewrite <- (Zlt_Qlt 0). destruct zs; [congruence | cbn [List.length]; lia]. }
  unfold of_Z. split; apply leb_Fin.
  - apply Qle_shift_div_l; [exact Hn | lra].
  - apply Qle_shift_div_r; [exact Hn | lra].
Qed.

(* ================================================================== *)
(** * The filler on any observed table *)
(* ================================================================== *)

Lemma left_join_In_match {L R K} (eqb : K -> K -> bool) (kl : L -> option K)
    (kr : R -> option K) (left : list L) (right : list R) (l : L) (r : R) :
  In (l, Some r) (left_join eqb kl kr left right) ->
  In l left /\ In r right /\ key_match eqb (kl l) (kr r) = true.
Proof.
  unfold left_join. rewrite in_flat_map. intros [l' [Hl H]].
  destruct (filter _ right) as [|r0 ms] eqn:E.
  - destruct H as [[=]|[]].
  - apply in_map_iff in H. destruct H as [r' [[= <- <-] Hr]].
    rewrite <- E in Hr. apply filter_In in Hr. tauto.
Qed.

Lemma left_join_covers {L R K} (eqb : K -> K -> bool) (kl : L -> option K)
    (kr : R -> option K) (left : list L) (right : list R) :
  (List.length left <= List.length (left_join eqb kl kr left right))%nat
  /\ forall l, In l left -> exists o, In (l, o) (left_join eqb kl kr left right).
Proof.
  unfold left_join. split.
  - induction left as [|l left IH]; cbn [flat_map List.length]; [lia|].
    rewrite length_app.
    destruct (filter _ right); rewrite ?length_map; cbn [List.length]; lia.
  - intros l Hl.
    destruct (filter (fun r => key_match eqb (kl l) (kr r)) right) as [|r0 ms] eqn:E.
    + exists None. apply in_flat_map. exists l. split; [exact Hl|].
      rewrite E. now left.
    + exists (Some r0). apply in_flat_map. exists l. split; [exact Hl|].
      rewrite E. now left.
Qed.

Lemma left_join_filter_right {L R K} (eqb : K -> K -> bool) (kl : L -> option K)
    (kr : R -> option K) (q : R -> bool) (left : list L) (right : list R) :
  (forall l r, In l left -> In r right ->
     key_match eqb (kl l) (kr r) = true -> q r = true) ->
  left_join eqb kl kr left (filter q right) = left_join eqb kl kr left right.
Proof.
  intro H. unfold left_join.
  induction left as [|l left IH]; [reflexivity|].
  cbn [flat_map]. rewrite IH by (intros; eapply H; eauto; now right).
  f_equal.
  assert (E : filter (fun r => key_match eqb (kl l) (kr r)) (filter q right)
              = filter (fun r => key_match eqb (kl l) (kr r)) right).
  { clear IH. assert (Hl : forall r, In r right ->
        key_match eqb (kl l) (kr r) = true -> q r = true)
      by (intros; eapply H; eauto; now left).
    clear H. induction right as [|r right IHr]; [reflexivity|].
    cbn [filter].
    destruct (q r) eqn:Eq.
    - cbn [filter]. rewrite IHr by (intros; apply Hl; auto; now right).
      reflexivity.
    - destruct (key_match eqb (kl l) (kr r)) eqn:Ek.
      + rewrite (Hl r) in Eq by (auto; now left). discriminate.
      + apply IHr. intros; apply Hl; auto; now right. }
  now rewrite E.
Qed.

(** X3 ([fill_missing_with_gp]), for any observed table, also with a date
    twice or without a date: every output row carries a row of [df_pred];
    where an observed value stands, it is the value of an observation of
    that date, it is the filled value and [filled] is false; where none
    stands, the filled value is [pred_mean] and [filled] is true.  No
    prediction row is lost. *)
Theorem fill_missing_with_gp_rows (df_obs : list Listing.row)
    (df_pred : list Prediction.row) :
  let out := fill_missing_with_gp df_obs df_pred in
  Forall (fun r =>
       In (Filled.prediction r) df_pred
       /\ match Filled.registration_time r with
          | Some v =>
              Filled.filled r = false
              /\ Filled.registration_time_filled r = of_Z v
              /\ exists o, In o df_obs
                   /\ Listing.contract_date o
                      = Some (Prediction.contract_date (Filled.prediction r))
                   /\ Listing.registration_time o = Some v
          | None =>
              Filled.filled r = true
              /\ Filled.registration_time_filled r
                 = Prediction.pred_mean (Filled.prediction r)
          end)
     out
  /\ (forall p, In p df_pred -> exists r, In r out /\ Filled.prediction r = p)
  /\ (List.length df_pred <= List.length out)%nat.
Proof.
  cbn zeta. unfold fill_missing_with_gp. split; [|split].
  - apply Forall_forall. intros r Hr.
    apply in_map_iff in Hr. destruct Hr as [[p o] [<- Hin]].
    cbn [Filled.prediction Filled.registration_time Filled.filled
         Filled.registration_time_filled fst snd].
    destruct o as [o|].
    + apply left_join_In_match in Hin. destruct Hin as [Hp [Ho Hk]].
      split; [exact Hp|].
      destruct (Listing.registration_time o) as [v|] eqn:Ev; [|auto].
      repeat split. exists o. repeat split; auto.
      destruct (Listing.contract_date o) as [d|]; [|discriminate].
      cbn in Hk. apply Z.eqb_eq in Hk. now rewrite Hk.
    + apply left_join_In in Hin. destruct Hin as [Hp _]. auto.
  - intros p Hp.
    destruct (left_join_covers Z.eqb (fun r => Some (Prediction.contract_date r))
                Listing.contract_date df_pred df_obs) as [_ H].
    destruct (H p Hp) as [o Ho].
    eexists. split; [apply in_map_iff; eexists; split; [reflexivity | exact Ho]|].
    reflexivity.
  - rewrite length_map. apply left_join_covers.
Qed.


(** X4 ([fill_missing_with_gp]): observations whose date is null or is not
    the date of a prediction row have no effect on the result. *)
Theorem fill_missing_with_gp_ignores_other_dates (df_obs : list Listing.row)
    (df_pred : list Prediction.row) :
  fill_missing_with_gp (filter (matches_a_prediction df_pred) df_obs) df_pred
  = fill_missing_with_gp df_obs df_pred.
Proof.
  unfold fill_missing_with_gp. f_equal.
  apply left_join_filter_right.
  intros p o Hp _ Hk. unfold matches_a_prediction.
  destruct (Listing.contract_date o) as [d|]; [|discriminate].
  cbn in Hk. apply existsb_exists. exists p. split; [exact Hp | exact Hk].
Qed.

(* ================================================================== *)
(** * The scores of a table of one row *)
(* ================================================================== *)

Section OneRowScores.

Context {M : MathLib}.



Lemma add_prob_good_enough_one_row (r : Prediction.row)
    (my_time_fn : date -> float) (dir : direction) :
  add_prob_good_enough [r] my_time_fn dir
  = ok [score_row r (my_time_fn (Prediction.contract_date r)) dir].
Proof.
  unfold add_prob_good_enough.
  cbn [map fst snd].
  rewrite !np_binop_same_length by reflexivity.
  rewrite !bind_ret. unfold zip_with. cbn [combine map fst snd].
  rewrite !np_binop_same_length by reflexivity.
  rewrite !bind_ret. unfold zip_with. cbn [combine map fst snd _typed_vectorize].
  rewrite bind_ret. cbn [List.length Nat.eqb combine map fst snd].
  reflexivity.
Qed.

(** X5 ([add_prob_good_enough], [_typed_vectorize]): a table of one row is
    scored; an empty table and every table of two rows or more raise
    TypeError, whatever the direction and the target function. *)
Theorem add_prob_good_enough_scores_one_row_only (df_pred : list Prediction.row)
    (my_time_fn : date -> float) (dir : direction) :
  match df_pred with
  | [r] =>
      add_prob_good_enough df_pred my_time_fn dir
      = ok [score_row r (my_time_fn (Prediction.contract_date r)) dir]
  | _ =>
      exists e,
        add_prob_good_enough df_pred my_time_fn dir = inl e
        /\ exn_class e = "TypeError"%string
  end.
Proof.
  destruct df_pred as [|r1 [|r2 rest]].
  - eexists. split; reflexivity.
  - apply add_prob_good_enough_one_row.
  - unfold add_prob_good_enough.
    rewrite np_binop_same_length by now rewrite !length_map.
    rewrite bind_ret.
    rewrite np_binop_same_length by now rewrite !length_map.
    rewrite bind_ret.
    rewrite np_binop_same_length
      by (unfold zip_with; repeat rewrite ?length_map, ?length_combine; lia).
    rewrite bind_ret.
    cbn [map combine zip_with fst snd _typed_vectorize].
    unfold zip_with. cbn [map combine fst snd _typed_vectorize].
    eexists. split; reflexivity.
Qed.

Lemma clip_unit (q : Q) :
  clip (Fin q) zero one
  = Fin (if Qle_bool q 0 then 0 else if Qle_bool q 1 then q else 1).
Proof.
  unfold clip, zero, one. cbn [maximum leb].
  destruct (Qle_bool q 0) eqn:E1; cbn [minimum leb].
  - reflexivity.
  - destruct (Qle_bool q 1); reflexivity.
Qed.

(** X6 ([add_prob_good_enough]): for one row with finite bounds [lo < hi]
    and a finite target [t], [ci_pct] is 0 at or below [lo], 100 at or
    above [hi], and [100 * (t - lo) / (hi - lo)] in between. *)
Theorem ci_pct_is_the_position_in_the_interval (d : date) (mean lo hi t : Q)
    (dir : direction) :
  (lo < hi)%Q ->
  let r := score_row (finite_row d mean lo hi) (Fin t) dir in
  add_prob_good_enough [finite_row d mean lo hi] (fun _ => Fin t) dir = ok [r]
  /\ ((t <= lo)%Q -> same (Scored.ci_pct r) (Fin 0))
  /\ ((hi <= t)%Q -> same (Scored.ci_pct r) (Fin 100))
  /\ ((lo <= t <= hi)%Q ->
      same (Scored.ci_pct r) (Fin (100 * (t - lo) / (hi - lo)))).
Proof.
  intro Hlt. cbn zeta. split; [apply add_prob_good_enough_one_row|].
  unfold score_row, finite_row.
  cbn [Scored.ci_pct Prediction.pred_lo Prediction.pred_hi sub neg add div].
  rewrite Qeq_bool_false by lra. rewrite clip_unit. unfold f_100. cbn [mul same].
  set (q := ((t + - lo) / (hi + - lo))%Q).
  assert (Hq : (q * (hi - lo) == t - lo)%Q) by (unfold q; field; lra).
  assert (Hd : (0 < hi - lo)%Q) by lra.
  destruct (Qle_bool q 0) eqn:E1.
  - apply Qle_bool_iff in E1. assert (t <= lo)%Q by nra.
    repeat split; intros; try lra.
    assert (E : (t == lo)%Q) by lra.
    assert (Hz : (100 * (t - lo) / (hi - lo) == 0)%Q).
    { rewrite E. field. lra. }
    rewrite Hz. ring.
  - assert (H0 : (0 < q)%Q).
    { apply Qnot_le_lt. intro Hle. apply Qle_bool_iff in Hle. congruence. }
    destruct (Qle_bool q 1) eqn:E2.
    + apply Qle_bool_iff in E2.
      assert (lo < t)%Q by nra. assert (t <= hi)%Q by nra.
      repeat split; intros; try lra.
      * assert (Et : (t == hi)%Q) by lra.
        assert (q == 1)%Q by (unfold q; rewrite Et; field; lra).
        lra.
      * unfold q. field. lra.
    + assert (H1 : (1 < q)%Q).
      { apply Qnot_le_lt. intro Hle. apply Qle_bool_iff in Hle. congruence. }
      assert (hi < t)%Q by nra.
      repeat split; intros; lra.
Qed.

(** X7 ([add_prob_good_enough]): for one row whose interval has no width
    ([lo = hi]) and a finite target other than [lo], the division by zero
    is clipped: [ci_pct] is 0 below the interval and 100 above it. *)
Theorem ci_pct_on_a_degenerate_interval (d : date) (mean lo hi t : Q)
    (dir : direction) :
  (lo == hi)%Q -> ~ (t == lo)%Q ->
  let r := score_row (finite_row d mean lo hi) (Fin t) dir in
  add_prob_good_enough [finite_row d mean lo hi] (fun _ => Fin t) dir = ok [r]
  /\ ((t < lo)%Q -> same (Scored.ci_pct r) (Fin 0))
  /\ ((lo < t)%Q -> same (Scored.ci_pct r) (Fin 100)).
Proof.
  intros He Hne. cbn zeta. split; [apply add_prob_good_enough_one_row|].
  unfold score_row, finite_row.
  cbn [Scored.ci_pct Prediction.pred_lo Prediction.pred_hi sub neg add div].
  assert (E0 : Qeq_bool (hi + - lo) 0 = true) by (apply Qeq_bool_iff; lra).
  rewrite E0. unfold Qsgn.
  assert (Hs : forall a : Q, (0 < a)%Q -> Z.sgn (Qnum a) = 1).
  { intros [n dn] Ha. unfold Qlt in Ha. cbn in *. lia. }
  assert (Hn : forall a : Q, (a < 0)%Q -> Z.sgn (Qnum a) = -1).
  { intros [n dn] Ha. unfold Qlt in Ha. cbn in *. lia. }
  split; intro Ht.
  - rewrite (Hn (t + - lo)%Q) by lra. reflexivity.
  - rewrite (Hs (t + - lo)%Q) by lra. reflexivity.
Qed.

Lemma maximum_Fin (a b : Q) :
  maximum (Fin a) (Fin b) = Fin (if Qle_bool a b then b else a).
Proof. cbn [maximum leb]. destruct (Qle_bool a b); reflexivity. Qed.

(** X8 ([add_prob_good_enough]): for one row with finite values and a
    finite target, [prob_good_enough] is computed from a finite z-score
    [z = (t - mean) / sigma], where [sigma] is at least 1e-9 and at least
    [(hi - lo) / 3.92]: the division never has a zero divisor, also when
    [hi = lo]. *)
Theorem prob_good_enough_uses_a_finite_z_score (d : date)
    (mean lo hi t : Q) (dir : direction) :
  exists s z sigma,
    add_prob_good_enough [finite_row d mean lo hi] (fun _ => Fin t) dir
    = ok [s]
    /\ (let cdf := (f_0_5 * (one + math_erf (Fin z / math_sqrt f_2)))%float in
        Scored.prob_good_enough s
        = (match dir with
           | at_least => cdf
           | at_most => one - cdf
           end * f_100)%float)
    /\ ((1 # 1000000000) <= sigma)%Q
    /\ ((hi - lo) / (392 # 100) <= sigma)%Q
    /\ (z * sigma == t - mean)%Q.
Proof.
  exists (score_row (finite_row d mean lo hi) (Fin t) dir).
  assert (Hz : exists z sigma,
             z_score (finite_row d mean lo hi) (Fin t) = Fin z
             /\ ((1 # 1000000000) <= sigma)%Q
             /\ ((hi - lo) / (392 # 100) <= sigma)%Q
             /\ (z * sigma == t - mean)%Q);
    [|destruct Hz as [z [sigma [Hz [H1 [H2 H3]]]]]; exists z, sigma;
      split; [apply add_prob_good_enough_one_row|];
      split; [cbn zeta; unfold score_row; cbn [Scored.prob_good_enough];
              now rewrite Hz | auto]].
  unfold z_score, finite_row, f_2, f_1_96, f_1e_9.
  cbn [Prediction.pred_lo Prediction.pred_hi Prediction.pred_mean sub neg add mul].
  cbn [div]. change (Qeq_bool (2 * (196 # 100)) 0) with false. cbv iota.
  rewrite maximum_Fin.
  set (s := if Qle_bool ((hi + - lo) / (2 * (196 # 100))) (1 # 1000000000)
            then (1 # 1000000000)%Q else ((hi + - lo) / (2 * (196 # 100)))%Q).
  assert (Hs : ((1 # 1000000000) <= s /\ (hi - lo) / (392 # 100) <= s)%Q).
  { unfold s. destruct (Qle_bool _ _) eqn:E.
    - apply Qle_bool_iff in E. split; [lra|].
      assert (X : ((hi - lo) / (392 # 100) == (hi + - lo) / (2 * (196 # 100)))%Q)
        by (field; discriminate).
      now rewrite X.
    - assert (H1 : ((1 # 1000000000) < (hi + - lo) / (2 * (196 # 100)))%Q).
      { apply Qnot_le_lt. intro Hle. apply Qle_bool_iff in Hle. congruence. }
      split; [lra|].
      assert (X : ((hi - lo) / (392 # 100) == (hi + - lo) / (2 * (196 # 100)))%Q)
        by (field; discriminate).
      rewrite X. lra. }
  destruct Hs as [Hs1 Hs2].
  assert (Hs0 : ~ (s == 0)%Q) by lra.
  cbn [div]. rewrite (Qeq_bool_false Hs0).
  exists ((t + - mean) / s)%Q, s. split; [reflexivity|].
  split; [exact Hs1|]. split; [exact Hs2|].
  field. exact Hs0.
Qed.


End OneRowScores.

(* ================================================================== *)
(** * The tables of the MonthlyMultiplierBuilder *)
(* ================================================================== *)


Lemma find_filter {A} (p q : A -> bool) (l : list A) :
  (forall x, In x l -> p x = true -> q x = true) ->
  find p (filter q l) = find p l.
Proof.
  induction l as [|x l IH]; intro H; [reflexivity|].
  cbn [filter find].
  destruct (q x) eqn:Eq.
  - cbn [find]. destruct (p x); [reflexivity|].
    apply IH. intros; apply H; auto; now right.
  - destruct (p x) eqn:Ep.
    + rewrite (H x) in Eq by (auto; now left). discriminate.
    + apply IH. intros; apply H; auto; now right.
Qed.

Lemma in_arange (lo hi m : Z) : In m (arange lo hi) <-> lo <= m < hi.
Proof.
  unfold arange. rewrite in_map_iff. split.
  - intros [i [<- Hi]]. apply in_seq in Hi. lia.
  - intro H. exists (Z.to_nat (m - lo)). split; [lia|]. apply in_seq. lia.
Qed.

Section BuilderTables.

Context {M : MathLib}.

Lemma months_fit_int32_filter (f : Trends.row -> bool) (t : list Trends.row) :
  months_fit_int32 t = true -> months_fit_int32 (filter f t) = true.
Proof.
  unfold months_fit_int32. rewrite !forallb_forall.
  intros H x Hx. apply filter_In in Hx. now apply H.
Qed.

Lemma months_fit_int32_Permutation (t1 t2 : list Trends.row) :
  Permutation t1 t2 -> months_fit_int32 t1 = months_fit_int32 t2.
Proof.
  unfold months_fit_int32.
  induction 1 as [|x l l' _ IH|x y l|l l' l'' _ IH1 _ IH2]; cbn [forallb].
  - reflexivity.
  - now rewrite IH.
  - now rewrite !andb_assoc, (andb_comm (match Trends.month y with
                                          | Some z => int32 z
                                          | None => true
                                          end)).
  - congruence.
Qed.

(** The failure of the cast is the failure of the builder. *)
Lemma trends_monthly_multiplier_cast_err (t : list Trends.row)
    (column : Trends.row -> option float) (strength : float) (r : Z) :
  months_fit_int32 t = false ->
  exists e,
    trends_monthly_multiplier t column strength r = inl e
    /\ exn_class e = "InvalidOperationError"%string.
Proof.
  intro H. unfold trends_monthly_multiplier.
  rewrite cast_int32_months, H. eexists. split; reflexivity.
Qed.

(** The builder is a function of the outcome of the cast and of the values
    provided for the months 1..12. *)
Lemma trends_monthly_multiplier_ext (t1 t2 : list Trends.row)
    (column : Trends.row -> option float) (strength : float) (r : Z) :
  months_fit_int32 t1 = months_fit_int32 t2 ->
  (forall m, 1 <= m <= 12 ->
     provided_value column t1 m = provided_value column t2 m) ->
  trends_monthly_multiplier t1 column strength r
  = trends_monthly_multiplier t2 column strength r.
Proof.
  intros Hc H.
  assert (E : scaffold column t1 = scaffold column t2).
  { rewrite !scaffold_spec. apply map_ext_in. intros m Hm.
    apply in_arange in Hm. rewrite H by lia. reflexivity. }
  unfold trends_monthly_multiplier, filled_values.
  rewrite !cast_int32_months, <- Hc, E.
  destruct (months_fit_int32 t1); [|reflexivity].
  now rewrite !bind_ret.
Qed.

(** X10 ([trends_monthly_multiplier]): in a table whose months are values
    of Int32, rows whose month is null or is not one of 1..12 have no
    effect on the result. *)
Theorem trends_monthly_multiplier_ignores_other_months
    (trends_monthly : list Trends.row) (column : Trends.row -> option float)
    (strength : float) (smooth_radius : Z) :
  months_fit_int32 trends_monthly = true ->
  trends_monthly_multiplier (filter month_in_range trends_monthly)
    column strength smooth_radius
  = trends_monthly_multiplier trends_monthly column strength smooth_radius.
Proof.
  intro Hc. apply trends_monthly_multiplier_ext.
  - now rewrite Hc, months_fit_int32_filter.
  - intros m Hm.
    unfold provided_value, lookup. rewrite find_filter; [reflexivity|].
    intros x _ Hk. unfold month_in_range.
    destruct (Trends.month x) as [k|]; [|discriminate].
    cbn in Hk. apply Z.eqb_eq in Hk. subst k.
    apply andb_true_iff. split; apply Z.leb_le; lia.
Qed.

(** X11 ([trends_monthly_multiplier]): for a table with no month twice the
    result does not depend on the order of the rows. *)
Theorem trends_monthly_multiplier_row_order (t1 t2 : list Trends.row)
    (column : Trends.row -> option float) (strength : float)
    (smooth_radius : Z) :
  keyed Trends.month t1 -> Permutation t1 t2 ->
  trends_monthly_multiplier t1 column strength smooth_radius
  = trends_monthly_multiplier t2 column strength smooth_radius.
Proof.
  intros HK HP. apply trends_monthly_multiplier_ext.
  - now apply months_fit_int32_Permutation.
  - intros m _. unfold provided_value.
    now rewrite (lookup_Permutation Z.eqb Z.eqb_eq m HK HP).
Qed.

(** X12 ([trends_monthly_multiplier]): the builder fails in two cases and
    no other: when a month is not a value of Int32, with the
    InvalidOperationError of the cast; and otherwise when the table
    provides no value for any of the months 1..12, with the TypeError of
    [float(None)].  The shape check of the result never fails. *)
Theorem trends_monthly_multiplier_failures
    (trends_monthly : list Trends.row) (column : Trends.row -> option float)
    (strength : float) (smooth_radius : Z) :
  let run :=
    trends_monthly_multiplier trends_monthly column strength smooth_radius in
  match months_fit_int32 trends_monthly,
        provided_values column trends_monthly with
  | false, _ =>
      exists e, run = inl e /\ exn_class e = "InvalidOperationError"%string
  | true, [] =>
      exists e, run = inl e /\ exn_class e = "TypeError"%string
  | true, _ :: _ => exists rows, run = ok rows
  end.
Proof.
  cbn zeta. destruct (months_fit_int32 trends_monthly) eqn:Hc.
  - destruct (provided_values column trends_monthly) as [|v vs] eqn:E.
    + destruct (filled_values_none column trends_monthly E) as [e [He Hcl]].
      exists e. unfold trends_monthly_multiplier.
      rewrite cast_int32_months, Hc, bind_ret, He. auto.
    + assert (Hne : provided_values column trends_monthly <> []) by congruence.
      pose proof (filled_values_spec column trends_monthly Hne) as Hv.
      eexists.
      apply (@trends_monthly_multiplier_ok _ _ _ strength smooth_radius _ Hc Hv).
      now rewrite length_map.
  - now apply trends_monthly_multiplier_cast_err.
Qed.

Lemma fill_null_positive (os : list (option float)) (ps : list Q) (mu : Q) :
  non_null os = map Fin ps -> Forall (fun q => 0 < q)%Q ps -> (0 < mu)%Q ->
  exists qs,
    map (fill_null (Fin mu)) os = map Fin qs
    /\ List.length qs = List.length os
    /\ Forall (fun q => 0 < q)%Q qs.
Proof.
  intros H Hp Hmu. revert ps H Hp.
  induction os as [|[v|] os IH]; intros ps H Hp.
  - exists []. repeat split. constructor.
  - destruct ps as [|p ps]; [discriminate|].
    cbn [non_null map] in H. injection H as -> H.
    inversion Hp as [|? ? Hp1 Hp2]. subst.
    destruct (IH ps H Hp2) as [qs [Hq [Hl Hf]]].
    exists (p :: qs). cbn [map fill_null List.length].
    rewrite Hq, Hl. repeat split. now constructor.
  - cbn [non_null] in H.
    destruct (IH ps H Hp) as [qs [Hq [Hl Hf]]].
    exists (mu :: qs). cbn [map fill_null List.length].
    rewrite Hq, Hl. repeat split. now constructor.
Qed.

Lemma Qsum_positive (qs : list Q) :
  qs <> [] -> Forall (fun q => 0 < q)%Q qs -> (0 < Qsum qs)%Q.
Proof.
  intros Hne H. induction H as [|q qs Hq H IH]; [congruence|].
  cbn [Qsum]. destruct qs as [|q' qs'].
  - cbn [Qsum]. lra.
  - assert (0 < Qsum (q' :: qs'))%Q by (apply IH; discriminate). lra.
Qed.

Lemma Qdiv_positive (a b : Q) : (0 < a)%Q -> (0 < b)%Q -> (0 < a / b)%Q.
Proof.
  intros Ha Hb. apply Qlt_shift_div_l; [exact Hb | lra].
Qed.

Lemma inject_nat_positive (n : nat) :
  n <> 0%nat -> (0 < inject_Z (Z.of_nat n))%Q.
Proof. intro H. rewrite <- (Zlt_Qlt 0). lia. Qed.

Lemma normalized_positive (qs : list Q) :
  List.length qs = 12%nat -> Forall (fun q => 0 < q)%Q qs ->
  exists rs,
    map (fun v => v / np_mean (map Fin qs))%float (map Fin qs) = map Fin rs
    /\ Forall (fun q => 0 < q)%Q rs.
Proof.
  intros Hl Hp.
  assert (Hne : qs <> []) by (intro E; now rewrite E in Hl).
  rewrite (np_mean_Fin Hne), Hl.
  set (m := (Qsum qs / inject_Z (Z.of_nat 12))%Q).
  assert (Hm : (0 < m)%Q).
  { unfold m. apply Qdiv_positive; [now apply Qsum_positive | reflexivity]. }
  exists (map (fun q => q / m)%Q qs). split.
  - rewrite !map_map. apply map_ext. intro q. cbn [div].
    rewrite Qeq_bool_false by lra. reflexivity.
  - rewrite Forall_forall in *. intros r Hr.
    apply in_map_iff in Hr. destruct Hr as [q [<- Hq]].
    apply Qdiv_positive; [now apply Hp | exact Hm].
Qed.

Lemma window_sums_positive (qs : list Q) (idx : list Z) :
  List.length qs = 12%nat -> idx <> [] -> Forall (fun q => 0 < q)%Q qs ->
  Forall (fun q => 0 < q)%Q (window_sums qs idx).
Proof.
  intros Hl Hi Hp. unfold window_sums. apply Forall_forall. intros w Hw.
  apply in_map_iff in Hw. destruct Hw as [i [<- _]].
  apply Qsum_positive.
  - unfold qtake. destruct idx; [congruence | discriminate].
  - unfold qtake. apply Forall_forall. intros q Hq.
    apply in_map_iff in Hq. destruct Hq as [k [<- Hk]].
    apply in_map_iff in Hk. destruct Hk as [k0 [<- _]].
    rewrite Forall_forall in Hp. apply Hp. apply nth_In.
    rewrite Hl. pose proof (Z.mod_pos_bound (i + k0) 12). lia.
Qed.

(** X13 ([trends_monthly_multiplier]): with strength 1.0 and any
    smoothing radius, for a table whose months are values of Int32, if the
    provided values are positive, none below 2^-300 or above 2^300 (far
    from the ends of the range of float64, so that no sum, mean or
    quotient of the builder overflows or underflows), and there is at
    least one, the builder returns a table whose multipliers are all
    finite and positive. *)
Theorem trends_monthly_multiplier_positive (trends_monthly : list Trends.row)
    (column : Trends.row -> option float) (strength : float)
    (smooth_radius : Z) (ps : list Q) :
  months_fit_int32 trends_monthly = true ->
  (strength =? one)%float = true ->
  provided_values column trends_monthly = map Fin ps ->
  ps <> [] ->
  Forall moderate ps ->
  exists rows,
    trends_monthly_multiplier trends_monthly column strength smooth_radius
    = ok rows
    /\ Forall (fun v => exists q, v = Fin q /\ (0 < q)%Q) (multipliers rows).
Proof.
  intros Hc Hst Hp Hps Hmod.
  assert (Hpos : Forall (fun q => 0 < q)%Q ps).
  { eapply Forall_impl; [|exact Hmod]. intros q [Hq _].
    eapply Qlt_le_trans; [|exact Hq]. reflexivity. }
  assert (Hne : provided_values column trends_monthly <> []).
  { rewrite Hp. destruct ps; [congruence | discriminate]. }
  pose proof (filled_values_spec column trends_monthly Hne) as Hv.
  set (vals := map (filled_value_spec column trends_monthly) (arange 1 13)) in *.
  assert (Hl : List.length vals = 12%nat) by (unfold vals; now rewrite length_map).
  eexists. split;
    [exact (@trends_monthly_multiplier_ok _ _ _ strength smooth_radius _
              Hc Hv Hl)|].
  destruct (multiplier_rows (profile_values strength smooth_radius vals)
              (length_profile_values strength smooth_radius vals Hl)) as [_ ->].
  unfold profile_values, neqb. rewrite Hst. cbn [negb].
  set (os := map (provided_value column trends_monthly) (arange 1 13)).
  assert (Hvals : vals = map (fill_null (np_mean (map Fin ps))) os).
  { unfold vals, os. rewrite map_map. apply map_ext. intro m.
    unfold filled_value_spec. rewrite Hp.
    destruct (provided_value column trends_monthly m); reflexivity. }
  rewrite Hvals, (np_mean_Fin Hps).
  assert (Hmu : (0 < Qsum ps / inject_Z (Z.of_nat (List.length ps)))%Q).
  { apply Qdiv_positive; [now apply Qsum_positive|].
    apply inject_nat_positive. destruct ps; [congruence | discriminate]. }
  destruct (@fill_null_positive os ps _ Hp Hpos Hmu) as [qs [-> [Hlq Hq]]].
  assert (Hl12 : List.length qs = 12%nat).
  { rewrite Hlq. unfold os. now rewrite length_map. }
  assert (Hfin : forall rs, Forall (fun q => 0 < q)%Q rs ->
            Forall (fun v => exists q, v = Fin q /\ (0 < q)%Q) (map Fin rs)).
  { intros rs Hrs. rewrite Forall_forall in *. intros v Hv'.
    apply in_map_iff in Hv'. destruct Hv' as [q [<- Hq']]. eauto. }
  destruct (0 <? smooth_radius) eqn:Er.
  - apply Z.ltb_lt in Er. rewrite (smooth_Fin qs Hl12 Er).
    set (n := inject_Z (Z.of_nat (List.length (arange (- smooth_radius) (smooth_radius + 1))))).
    assert (Hn : (0 < n)%Q).
    { apply inject_nat_positive. rewrite length_arange. lia. }
    assert (Hw : Forall (fun q => 0 < q)%Q
                   (map (fun w => w / n)%Q
                        (window_sums qs (arange (- smooth_radius) (smooth_radius + 1))))).
    { apply Forall_forall. intros w Hw. apply in_map_iff in Hw.
      destruct Hw as [w0 [<- Hw0]]. apply Qdiv_positive; [|exact Hn].
      assert (Hws : Forall (fun q => 0 < q)%Q
                      (window_sums qs (arange (- smooth_radius) (smooth_radius + 1)))).
      { apply window_sums_positive; auto.
        intro E. apply (f_equal (@List.length Z)) in E.
        rewrite length_arange in E. cbn [List.length] in E. lia. }
      rewrite Forall_forall in Hws. now apply Hws. }
    assert (Hwl : List.length
                    (map (fun w => w / n)%Q
                       (window_sums qs (arange (- smooth_radius) (smooth_radius + 1))))
                  = 12%nat)
      by (unfold window_sums; now rewrite !length_map).
    destruct (normalized_positive Hwl Hw) as [rs [-> Hrs]]. auto.
  - destruct (normalized_positive Hl12 Hq) as [rs [-> Hrs]]. auto.
Qed.

End BuilderTables.

(* ================================================================== *)
(** * Fitting and predicting *)
(* ================================================================== *)

Lemma np_binop_length_right (f : float -> float -> float) (a b c : list float) :
  np_binop f a b = ok c -> (2 <= List.length b)%nat ->
  List.length c = List.length b.
Proof.
  unfold np_binop. destruct (Nat.eqb (List.length a) (List.length b)) eqn:E.
  - intros [= <-] _. apply Nat.eqb_eq in E.
    rewrite length_map, length_combine. lia.
  - destruct a as [|x [|x2 a']].
    + destruct b as [|y [|y2 b']]; try discriminate. cbn. lia.
    + intros [= <-] _. now rewrite length_map.
    + destruct b as [|y [|y2 b']]; try discriminate. cbn. lia.
Qed.

Lemma left_join_length_doubled {L R K} (eqb : K -> K -> bool)
    (kl : L -> option K) (kr : R -> option K) (left : list L) (right : list R)
    (l : L) :
  In l left ->
  (2 <= List.length (filter (fun r => key_match eqb (kl l) (kr r)) right))%nat ->
  (List.length left < List.length (left_join eqb kl kr left right))%nat.
Proof.
  intros Hl H2. unfold left_join.
  induction left as [|x left IH]; [destruct Hl|].
  cbn [flat_map]. rewrite length_app. cbn [List.length].
  destruct Hl as [->|Hl].
  - pose proof (proj1 (left_join_covers eqb kl kr left right)) as Hc.
    unfold left_join in Hc.
    destruct (filter (fun r => key_match eqb (kl l) (kr r)) right) as [|r0 ms];
      [cbn in H2; lia|].
    rewrite length_map. lia.
  - specialize (IH Hl).
    destruct (filter (fun r => key_match eqb (kl x) (kr r)) right);
      rewrite ?length_map; cbn [List.length]; lia.
Qed.


Lemma month_multipliers_doubled (dates : list date)
    (month_mult : list Multiplier.row) (d : date) :
  In d dates -> month_doubled month_mult d ->
  (List.length dates < List.length (month_multipliers dates month_mult))%nat.
Proof.
  intros Hd H2. unfold month_multipliers, replace_non_finite.
  rewrite !length_map.
  now apply (left_join_length_doubled Z.eqb (fun d => Some (Date.month d))
               Multiplier.month dates month_mult d).
Qed.

Section FitAndPredict.

Context {M : MathLib} {SK : SkLearn}.

Lemma training_targets_features (df : list Model.row)
    (month_mult : option (list Multiplier.row))
    (feats : list Features.row) (y : list float) :
  training_targets df month_mult = ok (feats, y) ->
  feats = build_features (map Weekly.contract_date (weekly_rows df)).
Proof.
  unfold training_targets. fold (weekly_rows df). intro H.
  apply bind_ok in H. destruct H as [y0 [_ H]]. now injection H as <- _.
Qed.

Lemma combine_split (l1 : list Features.row) (l2 : list float) :
  List.length l1 = List.length l2 ->
  map fst (combine l1 l2) = l1 /\ map snd (combine l1 l2) = l2.
Proof.
  revert l2. induction l1 as [|a l1 IH]; intros [|b l2] Hl; try discriminate;
    [split; reflexivity|].
  cbn [combine map fst snd]. destruct (IH l2) as [H1 H2];
    [simpl in Hl; congruence|]. now rewrite H1, H2.
Qed.

(** The four steps of a fit that succeeds. *)
Lemma fit_gp_with_calendar_steps (df : list Model.row)
    (month_mult : option (list Multiplier.row))
    (gp : GaussianProcessRegressor) (scaler : StandardScaler)
    (x_train : list Train.row) :
  fit_gp_with_calendar df month_mult = ok (gp, scaler, x_train) ->
  exists feats y x,
    training_targets df month_mult = ok (feats, y)
    /\ fit_transform (map Features.vector feats) = ok (scaler, x)
    /\ gp_fit kernel_params x y = ok gp
    /\ with_y_deseasonal feats y = ok x_train.
Proof.
  unfold fit_gp_with_calendar. intro H.
  apply bind_ok in H. destruct H as [[feats y] [Ht H]]. cbn [fst snd] in H.
  apply bind_ok in H. destruct H as [[sc x] [Hs H]]. cbn [fst snd] in H.
  apply bind_ok in H. destruct H as [gp0 [Hg H]].
  apply bind_ok in H. destruct H as [xt [Hw H]].
  assert (E3 : (gp0, sc, xt) = (gp, scaler, x_train))
    by (unfold ok in H; congruence).
  injection E3 as -> -> ->. exists feats, y, x. auto.
Qed.

(** X14 ([fit_gp_with_calendar]): when fitting succeeds, the scaler is the
    one fitted on the feature rows of the weekly dates, the model is the
    one fitted with the fixed kernel parameters on the scaled features and
    the targets, and [x_train] has one row per week, holding these
    features and targets. *)
Theorem fit_gp_with_calendar_returns (df : list Model.row)
    (month_mult : option (list Multiplier.row))
    (gp : GaussianProcessRegressor) (scaler : StandardScaler)
    (x_train : list Train.row) :
  fit_gp_with_calendar df month_mult = ok (gp, scaler, x_train) ->
  exists x y,
    let feats := build_features (map Weekly.contract_date (weekly_rows df)) in
    training_targets df month_mult = ok (feats, y)
    /\ fit_transform (map Features.vector feats) = ok (scaler, x)
    /\ gp_fit kernel_params x y = ok gp
    /\ map Train.features x_train = feats
    /\ map Train.y_deseasonal x_train = y
    /\ List.length x_train = List.length (weekly_rows df).
Proof.
  intro H. apply fit_gp_with_calendar_steps in H.
  destruct H as [feats [y [x [Ht [Hs [Hg Hw]]]]]].
  pose proof (training_targets_features _ _ Ht) as Hf.
  unfold with_y_deseasonal in Hw.
  destruct (Nat.eqb (List.length feats) (List.length y)) eqn:E; [|discriminate].
  apply Nat.eqb_eq in E.
  assert (Hx : x_train
               = map (fun p => {| Train.features := fst p;
                                  Train.y_deseasonal := snd p |})
                     (combine feats y))
    by (unfold ok in Hw; congruence).
  exists x, y. cbn zeta. rewrite <- Hf.
  split; [exact Ht|]. split; [exact Hs|]. split; [exact Hg|].
  destruct (combine_split feats y E) as [H1 H2].
  rewrite Hx, !map_map. cbn [Train.features Train.y_deseasonal].
  split; [exact H1|]. split; [exact H2|].
  rewrite length_map, length_combine, <- E, Nat.min_id.
  rewrite Hf. unfold build_features. now rewrite !length_map.
Qed.

(** X15 ([fit_gp_with_calendar], [predict_daily]): a multiplier table with
    two rows or more for the month of a weekly date makes fitting fail,
    and with two rows or more for the month of a date of the range it
    makes the Predictor fail: the join repeats the date, and the lengths
    of the arrays no longer agree. *)
Theorem doubled_month_fails_fit_and_predict (month_mult : list Multiplier.row) :
  (forall df w,
      In w (weekly_rows df) ->
      month_doubled month_mult (Weekly.contract_date w) ->
      exists e, fit_gp_with_calendar df (Some month_mult) = inl e)
  /\ (forall gp scaler start end_ d,
        In d (date_range start end_) ->
        month_doubled month_mult d ->
        exists e, predict_daily gp scaler start end_ (Some month_mult) = inl e).
Proof.
  split.
  - intros df w Hw H2.
    destruct (fit_gp_with_calendar df (Some month_mult)) as [e|[[gp sc] xt]] eqn:E;
      [now exists e|].
    exfalso. apply fit_gp_with_calendar_steps in E.
    destruct E as [feats [y [x [Ht [_ [_ Hxt]]]]]].
    pose proof (training_targets_features _ _ Ht) as Hf. subst feats.
    unfold with_y_deseasonal in Hxt.
    destruct (Nat.eqb (List.length
                         (build_features
                            (map Weekly.contract_date (weekly_rows df))))
                      (List.length y)) eqn:El;
      [|discriminate].
    apply Nat.eqb_eq in El.
    unfold build_features in El. rewrite !length_map in El.
    unfold training_targets in Ht. fold (weekly_rows df) in Ht.
    apply bind_ok in Ht. destruct Ht as [y0 [Hb Ht]]. injection Ht as ->.
    rewrite build_features_dates in Hb.
    assert (Hlen : (List.length (weekly_rows df)
                    < List.length (month_multipliers
                                     (map Weekly.contract_date (weekly_rows df))
                                     month_mult))%nat).
    { rewrite <- (length_map Weekly.contract_date) at 1.
      apply month_multipliers_doubled with (d := Weekly.contract_date w);
        [now apply in_map | exact H2]. }
    assert (Hne : (1 <= List.length (weekly_rows df))%nat)
      by (destruct (weekly_rows df); [destruct Hw | cbn [List.length]; lia]).
    apply np_binop_length_right in Hb; [|lia]. lia.
  - intros gp scaler start end_ d Hd H2.
    destruct (predict_daily gp scaler start end_ (Some month_mult)) as [e|rows] eqn:E;
      [now exists e|].
    exfalso. unfold predict_daily in E.
    apply bind_ok in E. destruct E as [x [_ E]].
    apply bind_ok in E. destruct E as [out [_ E]].
    destruct out as [|mean_ds [|std_ds [|? ?]]]; try discriminate.
    apply bind_ok in E. destruct E as [mean [Hb E]].
    apply bind_ok in E. destruct E as [std [_ E]].
    apply prediction_inv in E. destruct E as [ts [_ [Hm _]]].
    pose proof (@month_multipliers_doubled _ month_mult _ Hd H2) as Hlen.
    assert (Hne : (1 <= List.length (date_range start end_))%nat)
      by (destruct (date_range start end_); [destruct Hd | cbn [List.length]; lia]).
    apply np_binop_length_right in Hb; [|lia]. lia.
Qed.

(** X16 ([predict_daily]): every table the Predictor returns, with or
    without multipliers, has exactly the dates of the range, in order,
    [max(0, end - start + 1)] rows, and in each row
    [pred_lo = max(pred_mean - t, 0)] and [pred_hi = pred_mean + t] for
    one half-width [t]. *)
Theorem predict_daily_rows_follow_the_range (gp : GaussianProcessRegressor)
    (scaler : StandardScaler) (start end_ : date)
    (month_mult : option (list Multiplier.row)) (rows : list Prediction.row) :
  predict_daily gp scaler start end_ month_mult = ok rows ->
  map Prediction.contract_date rows = date_range start end_
  /\ Z.of_nat (List.length rows) = Z.max 0 (end_ - start + 1)
  /\ Forall (fun r =>
       exists t,
         Prediction.pred_lo r = maximum (Prediction.pred_mean r - t) zero
         /\ Prediction.pred_hi r = (Prediction.pred_mean r + t)%float)
     rows.
Proof.
  intro H. pose proof (predict_daily_dates _ _ _ _ _ H) as Hd.
  split; [exact Hd|]. split.
  - rewrite <- (length_map Prediction.contract_date), Hd, length_date_range. lia.
  - assert (Hp : exists mean std,
               prediction mean std (date_range start end_) = ok rows).
    { unfold predict_daily in H.
      apply bind_ok in H. destruct H as [x [_ H]].
      apply bind_ok in H. destruct H as [out [_ H]].
      destruct out as [|mean_ds [|std_ds [|? ?]]]; try discriminate.
      destruct month_mult as [t|]; [|eauto].
      apply bind_ok in H. destruct H as [mean [_ H]].
      apply bind_ok in H. destruct H as [std [_ H]]. eauto. }
    destruct Hp as [mean [std Hp]].
    apply prediction_inv in Hp. destruct Hp as [ts [-> _]].
    unfold prediction_rows. apply Forall_forall. intros r Hr.
    apply in_map_iff in Hr. destruct Hr as [[[d m] t] [<- _]].
    exists t. split; reflexivity.
Qed.

End FitAndPredict.

(* ================================================================== *)
(** * The runs over the segments *)
(* ================================================================== *)



Lemma pair_eqb_eq (a b : string * string) : pair_eqb a b = true <-> a = b.
Proof.
  unfold pair_eqb. destruct a as [a1 a2], b as [b1 b2]. cbn [fst snd].
  rewrite andb_true_iff, !String.eqb_eq. split.
  - intros [-> ->]. reflexivity.
  - intros [= -> ->]. split; reflexivity.
Qed.

Lemma pair_leb_total (a b : string * string) :
  pair_leb a b = true \/ pair_leb b a = true.
Proof.
  unfold pair_leb. rewrite (String.eqb_sym (fst b) (fst a)).
  destruct (String.eqb (fst a) (fst b)); apply String.leb_total.
Qed.

Lemma unique_from_complete {A K} (eqb : K -> K -> bool)
    (eqb_eq : forall a b, eqb a b = true <-> a = b) (key : A -> K)
    (seen : list K) (l : list A) (x : A) :
  In x l ->
  In (key x) seen \/ In (key x) (map key (unique_from eqb key seen l)).
Proof.
  revert seen. induction l as [|y l IH]; intros seen Hx; [destruct Hx|].
  cbn [unique_from]. destruct Hx as [->|Hx].
  - destruct (existsb (eqb (key x)) seen) eqn:E.
    + left. now apply (existsb_eqb eqb eqb_eq).
    + right. now left.
  - destruct (existsb (eqb (key y)) seen) eqn:E.
    + now apply IH.
    + destruct (IH (key y :: seen) Hx) as [[H|H]|H].
      * right. left. exact H.
      * now left.
      * right. right. exact H.
Qed.

Lemma unique_In {K} (eqb : K -> K -> bool)
    (eqb_eq : forall a b, eqb a b = true <-> a = b) (l : list K) (x : K) :
  In x (unique eqb (fun c => c) l) <-> In x l.
Proof.
  split.
  - apply unique_incl.
  - intro H.
    destruct (unique_from_complete eqb eqb_eq (fun c => c) [] l x H) as [[]|H'].
    now rewrite map_id in H'.
Qed.

Lemma NoDup_map_injective {A B} (f : A -> B) (l : list A) :
  (forall x y, f x = f y -> x = y) -> NoDup l -> NoDup (map f l).
Proof.
  intros Hf. induction 1 as [|x l Hx Hl IH]; cbn [map]; constructor; auto.
  intro H. apply in_map_iff in H. destruct H as [y [Hy Hin]].
  apply Hf in Hy. now subst.
Qed.

Lemma In_drop_nulls (df : list Listing.row) (r : Listing.row) (d : date) (v : Z) :
  In r df -> Listing.contract_date r = Some d ->
  Listing.registration_time r = Some v ->
  In d (map Model.contract_date (drop_nulls df)).
Proof.
  intros Hr Hd Hv. induction df as [|x df IH]; [destruct Hr|].
  cbn [drop_nulls]. destruct Hr as [->|Hr].
  - rewrite Hd, Hv. now left.
  - destruct (Listing.contract_date x), (Listing.registration_time x); auto.
    right. auto.
Qed.

Section SegmentRuns.

Context {M : MathLib} {SK : SkLearn}.
Variable today : date.

(** X17 ([_fit_and_predict], [compute_all_predictions]): for a segment of
    20 usable rows or more, an exception of the fit is absorbed (no rows),
    while an exception of the Predictor is not caught: it leaves
    [_fit_and_predict] and ends the whole loop over the segments. *)
Theorem only_the_fit_is_guarded (df : list Listing.row) (horizon_days : Z)
    (city type_of_room : option string) :
  ~ small df ->
  (forall e,
      fit_gp_with_calendar (drop_nulls df) None = inl e ->
      _fit_and_predict today df horizon_days city type_of_room = ok [])
  /\ (forall gp scaler x_train start e,
        fit_gp_with_calendar (drop_nulls df) None = ok (gp, scaler, x_train) ->
        min_date (map Model.contract_date (drop_nulls df)) = Some start ->
        predict_daily gp scaler start (today + horizon_days) None = inl e ->
        _fit_and_predict today df horizon_days city type_of_room = inl e
        /\ forall before after results,
             Forall (fun seg => exists rows,
                       _fit_and_predict today (fst (fst seg)) horizon_days
                         (snd (fst seg)) (snd seg) = ok rows) before ->
             extend_all today results horizon_days
               (before ++ (df, city, type_of_room) :: after) = inl e).
Proof.
  intro Hbig.
  assert (Hlt : (Z.of_nat (List.length (drop_nulls df)) <? MIN_ROWS_FOR_GP) = false).
  { apply Z.ltb_ge. unfold small, MIN_ROWS_FOR_GP in *. lia. }
  split.
  - intros e He. unfold _fit_and_predict. now rewrite Hlt, He.
  - intros gp scaler x_train start e Hfit Hmin Hpred.
    assert (Hrun : _fit_and_predict today df horizon_days city type_of_room = inl e).
    { unfold _fit_and_predict. rewrite Hlt. unfold ok in Hfit. rewrite Hfit, Hmin.
      rewrite bind_ret, Hpred. reflexivity. }
    split; [exact Hrun|].
    intros before after results Hb. revert results.
    induction Hb as [|[[df0 c0] t0] before [rows Hrows] _ IH]; intro results.
    + cbn [app extend_all]. now rewrite Hrun.
    + cbn [app extend_all]. cbn [fst snd] in Hrows.
      rewrite Hrows, bind_ret. apply IH.
Qed.

(** X18 ([_fit_and_predict]): all rows returned carry the city and type
    of room given; if there are any, the segment had 20 usable rows or
    more and the rows are the days from a start no later than any usable
    listing date to today + horizon, as strings. *)
Theorem fit_and_predict_rows (df : list Listing.row) (horizon_days : Z)
    (city type_of_room : option string) (rows : list Output.row) :
  _fit_and_predict today df horizon_days city type_of_room = ok rows ->
  Forall (fun r => Output.city r = city /\ Output.type_of_room r = type_of_room)
    rows
  /\ (rows = []
      \/ exists start,
           (forall r d v, In r df -> Listing.contract_date r = Some d ->
                          Listing.registration_time r = Some v -> start <= d)
           /\ map Output.contract_date rows
              = map to_utf8 (date_range start (today + horizon_days))
           /\ MIN_ROWS_FOR_GP <= Z.of_nat (List.length (drop_nulls df))).
Proof.
  unfold _fit_and_predict.
  destruct (Z.of_nat (List.length (drop_nulls df)) <? MIN_ROWS_FOR_GP) eqn:Hlt;
    [intros [= <-]; split; [constructor | now left]|].
  apply Z.ltb_ge in Hlt.
  destruct (fit_gp_with_calendar (drop_nulls df) None) as [e|[[gp scaler] xt]];
    [intros [= <-]; split; [constructor | now left]|].
  intro H. apply bind_ok in H. destruct H as [start [Hs H]].
  apply bind_ok in H. destruct H as [preds [Hp H]]. injection H as <-.
  split.
  - apply Forall_forall. intros r Hr. apply in_map_iff in Hr.
    destruct Hr as [p [<- _]]. split; reflexivity.
  - right. exists start.
    destruct (min_date (map Model.contract_date (drop_nulls df))) as [d0|] eqn:Hmin;
      [|discriminate].
    injection Hs as ->. apply min_date_spec in Hmin. destruct Hmin as [_ Hmin].
    split; [|split; [|exact Hlt]].
    + intros r d v Hr Hd Hv. apply Hmin. eapply In_drop_nulls; eassumption.
    + rewrite map_map. cbn [label Output.contract_date].
      rewrite <- (predict_daily_dates _ _ _ _ _ Hp). now rewrite map_map.
Qed.

(** X19 ([compute_all_predictions]): the loop over the segments succeeds
    exactly when every segment does, and it appends the rows of the
    segments to the results in the order of the segments; so, for a table
    whose label columns hold no null, the result of a run is the
    concatenation of the rows of its segments, and the run succeeds
    exactly when every segment does. *)
Theorem compute_all_predictions_concatenates (horizon_days : Z) :
  (forall segments results res,
      extend_all today results horizon_days segments = ok res
      <-> exists outs,
            Forall2 (fun seg rows =>
                       _fit_and_predict today (fst (fst seg)) horizon_days
                         (snd (fst seg)) (snd seg) = ok rows)
                    segments outs
            /\ res = results ++ List.concat outs)
  /\ (forall df res,
        compute_all_predictions today df horizon_days = ok res
        <-> exists outs,
              Forall2 (fun seg rows =>
                         _fit_and_predict today (fst (fst seg)) horizon_days
                           (snd (fst seg)) (snd seg) = ok rows)
                      (segments_of df) outs
              /\ res = List.concat outs).
Proof.
  assert (H : forall segments results res,
             extend_all today results horizon_days segments = ok res
             <-> exists outs,
                   Forall2 (fun seg rows =>
                              _fit_and_predict today (fst (fst seg))
                                horizon_days (snd (fst seg)) (snd seg)
                              = ok rows)
                           segments outs
                   /\ res = results ++ List.concat outs).
  { induction segments as [|[[df c] t] segments IH]; intros results res;
      cbn [extend_all].
    - split.
      + intros [= <-]. exists []. split; [constructor | now rewrite app_nil_r].
      + intros [outs [Hf ->]]. inversion Hf. cbn [List.concat].
        now rewrite app_nil_r.
    - split.
      + intro H. apply bind_ok in H. destruct H as [rows [Hr H]].
        apply IH in H. destruct H as [outs [Hf ->]].
        exists (rows :: outs). split; [now constructor|].
        cbn [List.concat]. now rewrite app_assoc.
      + intros [outs [Hf ->]]. inversion Hf as [|? rows ? outs' Hr Hf']; subst.
        cbn [fst snd] in Hr. rewrite Hr, bind_ret. apply IH.
        exists outs'. split; [exact Hf'|]. cbn [List.concat].
        now rewrite app_assoc. }
  split; [exact H|].
  intros df res. unfold compute_all_predictions. apply H.
Qed.

End SegmentRuns.

Lemma option_string_eqb_eq (a b : option string) :
  option_eqb String.eqb a b = true <-> a = b.
Proof.
  destruct a as [x|], b as [y|]; simpl; try (split; [discriminate|congruence]).
  - rewrite String.eqb_eq. split; congruence.
  - tauto.
Qed.

Lemma unique_from_map_Some (seen l : list string) :
  unique_from (option_eqb String.eqb) (fun c => c) (map Some seen) (map Some l)
  = map Some (unique_from String.eqb (fun c => c) seen l).
Proof.
  revert seen. induction l as [|x l IH]; intro seen; [reflexivity|].
  cbn [map unique_from].
  assert (E : existsb (option_eqb String.eqb (Some x)) (map Some seen)
              = existsb (String.eqb x) seen).
  { clear. induction seen as [|y seen IH]; [reflexivity|].
    cbn [map existsb option_eqb]. now rewrite IH. }
  rewrite E. destruct (existsb (String.eqb x) seen).
  - apply IH.
  - cbn [map]. f_equal. apply (IH (x :: seen)).
Qed.

Lemma non_null_map_Some_id {A} (l : list A) : non_null (map Some l) = l.
Proof. induction l as [|x l IH]; cbn [map non_null]; congruence. Qed.

(** [sorted()] on a column without a null gives the cities of the
    segments. *)
Lemma sorted_cities_no_null (cs : list string) :
  sorted_cities (map Some cs)
  = ok (map Some (sort (fun c => c) String.leb
                    (unique String.eqb (fun c => c) cs))).
Proof.
  unfold sorted_cities, unique.
  pose proof (unique_from_map_Some [] cs) as Hu.
  change (map Some []) with (@nil (option string)) in Hu. rewrite Hu.
  generalize (unique_from String.eqb (fun c => c) [] cs) as u. intro u.
  assert (Hall : forallb (fun c : option string => match c with
                                                   | Some _ => true
                                                   | None => false
                                                   end) (map Some u) = true).
  { apply forallb_forall. intros c Hc. apply in_map_iff in Hc.
    now destruct Hc as [y [<- _]]. }
  destruct u as [|a [|b u]]; [reflexivity | reflexivity |].
  set (l := a :: b :: u) in *.
  change (map Some l) with (Some a :: Some b :: map Some u) at 1.
  cbv iota. now rewrite Hall, non_null_map_Some_id.
Qed.

(** [sorted()] cannot order a null and a name. *)
Lemma sorted_cities_null (col : list (option string)) (c : string) :
  In None col -> In (Some c) col ->
  exists e, sorted_cities col = inl e /\ exn_class e = "TypeError"%string.
Proof.
  intros Hn Hc. unfold sorted_cities.
  apply (unique_In (option_eqb String.eqb) option_string_eqb_eq) in Hn, Hc.
  destruct (unique (option_eqb String.eqb) (fun c => c) col)
    as [|a [|b u]] eqn:E.
  - destruct Hn.
  - destruct Hn as [Hn|[]], Hc as [Hc|[]]. congruence.
  - assert (Hall : forallb (fun c : option string => match c with
                                                     | Some _ => true
                                                     | None => false
                                                     end) (a :: b :: u) = false).
    { destruct (forallb _ (a :: b :: u)) eqn:F; [|reflexivity].
      rewrite forallb_forall in F. now apply F in Hn. }
    rewrite Hall. eexists. split; reflexivity.
Qed.

(** X20 ([compute_all_predictions]), for a table whose label columns have
    no null: the segments are the whole table, then one per city in
    ascending order (the cities that [sorted()] returns), then one per
    (city, type of room) in ascending order; no two segments have the
    same labels; a segment holds exactly the listings that carry its
    labels; every listing has the segment of its city and that of its
    city and type.  On a city column with a null and a name [sorted()]
    raises TypeError. *)
Theorem segments_of_structure (df : list Listing.row) :
  (exists cities combos,
      map labels_of (segments_of df)
      = (None, None)
          :: map (fun c => (Some c, None)) cities
          ++ map (fun p => (Some (fst p), Some (snd p))) combos
      /\ sorted_cities (map (fun r => Some (Listing.city r)) df)
         = ok (map Some cities)
      /\ Sorted (fun a b => String.leb a b = true) cities
      /\ Sorted (fun a b => pair_leb a b = true) combos)
  /\ NoDup (map labels_of (segments_of df))
  /\ (forall rows c t,
        In (rows, c, t) (segments_of df) ->
        forall r, In r rows <-> In r df /\ carries r c t)
  /\ (forall r, In r df ->
        In (Some (Listing.city r), None) (map labels_of (segments_of df))
        /\ In (Some (Listing.city r), Some (Listing.type_of_room r))
              (map labels_of (segments_of df)))
  /\ (forall col c,
        In None col -> In (Some c) col ->
        exists e, sorted_cities col = inl e
                  /\ exn_class e = "TypeError"%string).
Proof.
  set (cities := sort (fun c => c) String.leb
                   (unique String.eqb (fun c => c) (map Listing.city df))).
  set (combos := sort (fun c => c) pair_leb
                   (unique pair_eqb (fun c => c)
                      (map (fun r => (Listing.city r, Listing.type_of_room r)) df))).
  assert (Hlab : map labels_of (segments_of df)
                 = (None, None)
                     :: map (fun c => (Some c, None)) cities
                     ++ map (fun p => (Some (fst p), Some (snd p))) combos).
  { unfold segments_of. fold cities. fold combos.
    cbn [map labels_of fst snd]. rewrite map_app, !map_map. reflexivity. }
  assert (Hci : forall c, In c cities <-> In c (map Listing.city df)).
  { intro c. unfold cities.
    rewrite <- (unique_In String.eqb String.eqb_eq (map Listing.city df) c).
    split; apply Permutation_in;
      [|apply Permutation_sym]; apply sort_Permutation. }
  assert (Hco : forall p, In p combos
                  <-> In p (map (fun r => (Listing.city r, Listing.type_of_room r)) df)).
  { intro p. unfold combos.
    rewrite <- (unique_In pair_eqb pair_eqb_eq
                  (map (fun r => (Listing.city r, Listing.type_of_room r)) df) p).
    split; apply Permutation_in;
      [|apply Permutation_sym]; apply sort_Permutation. }
  assert (Hnc : NoDup cities).
  { unfold cities. eapply Permutation_NoDup;
      [apply Permutation_sym, sort_Permutation|].
    pose proof (unique_NoDup String.eqb String.eqb_eq (fun c => c)
                  (map Listing.city df)) as H.
    now rewrite map_id in H. }
  assert (Hno : NoDup combos).
  { unfold combos. eapply Permutation_NoDup;
      [apply Permutation_sym, sort_Permutation|].
    pose proof (unique_NoDup pair_eqb pair_eqb_eq (fun c => c)
                  (map (fun r => (Listing.city r, Listing.type_of_room r)) df)) as H.
    now rewrite map_id in H. }
  split; [|split; [|split; [|split]]]; [| | | |apply sorted_cities_null].
  - exists cities, combos. split; [exact Hlab|]. split; [|split].
    + rewrite <- (map_map Listing.city Some). apply sorted_cities_no_null.
    + apply (sort_Sorted (fun c : string => c) String.leb String.leb_total).
    + apply (sort_Sorted (fun c : string * string => c) pair_leb pair_leb_total).
  - rewrite Hlab. constructor.
    + intro H. apply in_app_or in H.
      destruct H as [H|H]; apply in_map_iff in H; destruct H as [? [? _]];
        discriminate.
    + apply NoDup_app.
      * apply NoDup_map_injective; [|exact Hnc]. now intros x y [= ->].
      * apply NoDup_map_injective; [|exact Hno].
        intros [x1 x2] [y1 y2]. cbn [fst snd]. now intros [= -> ->].
      * intros a Ha Hb. apply in_map_iff in Ha. destruct Ha as [? [<- _]].
        apply in_map_iff in Hb. destruct Hb as [? [? _]]. discriminate.
  - intros rows c t Hin r. unfold segments_of in Hin. fold cities combos in Hin.
    destruct Hin as [Hin|Hin].
    + injection Hin as <- <- <-. unfold carries.
      split; [intro H; split; [exact H|split; intros; discriminate] | tauto].
    + apply in_app_or in Hin. destruct Hin as [Hin|Hin];
        apply in_map_iff in Hin; destruct Hin as [k [Hk _]];
        injection Hk as <- <- <-; rewrite filter_In; unfold carries.
      * rewrite String.eqb_eq. split.
        -- intros [H1 H2]. split; [exact H1|]. split; [|intros; discriminate].
           now intros c' [= <-].
        -- intros [H1 [H2 _]]. split; [exact H1 | now apply H2].
      * rewrite andb_true_iff, !String.eqb_eq. split.
        -- intros [H1 [H2 H3]]. split; [exact H1|].
           split; [now intros c' [= <-] | now intros t' [= <-]].
        -- intros [H1 [H2 H3]]. split; [exact H1|]. split; [now apply H2 | now apply H3].
  - intros r Hr. rewrite Hlab. split; right; apply in_or_app.
    + left. apply in_map_iff. exists (Listing.city r). split; [reflexivity|].
      apply Hci. now apply in_map.
    + right. apply in_map_iff.
      exists (Listing.city r, Listing.type_of_room r). split; [reflexivity|].
      apply Hco. apply in_map_iff. now exists r.
Qed.

(* ================================================================== *)
(** * The calendar of the features *)
(* ================================================================== *)



(** The day number of a date by its year counted from March, and the day
    within that year. *)
Lemma civil_spec (z : date) :
  exists era yoe doy mp,
    0 <= yoe <= 399 /\ 0 <= doy <= 365 /\ 0 <= mp <= 11
    /\ doy < 365 + ((yoe + 1) / 4 - yoe / 4) - ((yoe + 1) / 100 - yoe / 100)
              + (yoe + 1) / 400
    /\ z = era * 146097 + (365 * yoe + yoe / 4 - yoe / 100) + doy - 719468
    /\ mp = (5 * doy + 2) / 153
    /\ Date.month z = (if mp <? 10 then mp + 3 else mp - 9)
    /\ Date.day z = doy - (153 * mp + 2) / 5 + 1
    /\ Date.year z = yoe + era * 400 + (if Date.month z <=? 2 then 1 else 0).
Proof.
  unfold Date.year, Date.month, Date.day, civil. cbv zeta. cbn [fst snd].
  set (z' := z + 719468).
  set (era := z' / 146097).
  set (doe := z' - era * 146097).
  assert (Hdoe : 0 <= doe < 146097).
  { unfold doe, era. pose proof (Z.div_mod z' 146097).
    pose proof (Z.mod_pos_bound z' 146097). lia. }
  set (yoe := (doe - doe / 1460 + doe / 36524 - doe / 146096) / 365).
  set (doy := doe - (365 * yoe + yoe / 4 - yoe / 100)).
  assert (Hy : 0 <= yoe <= 399 /\ 0 <= doy <= 365
               /\ doy < 365 + ((yoe + 1) / 4 - yoe / 4)
                         - ((yoe + 1) / 100 - yoe / 100) + (yoe + 1) / 400).
  { unfold doy, yoe. clearbody doe. clear -Hdoe. Z.div_mod_to_equations. lia. }
  set (mp := (5 * doy + 2) / 153).
  exists era, yoe, doy, mp.
  assert (Hmp : 0 <= mp <= 11) by (unfold mp; Z.div_mod_to_equations; lia).
  repeat split; try lia.
  destruct ((if mp <? 10 then mp + 3 else mp - 9) <=? 2); lia.
Qed.

Ltac calendar z :=
  let era := fresh "era" in let yoe := fresh "yoe" in
  let doy := fresh "doy" in let mp := fresh "mp" in
  let E := fresh "E" in let E1 := fresh "E1" in
  destruct (civil_spec z) as
    [era [yoe [doy [mp [? [? [? [? [? [? [? [? ?]]]]]]]]]]]];
  destruct (mp <? 10) eqn:E;
  [ apply Z.ltb_lt in E;
    assert (E1 : (Date.month z <=? 2) = false) by (apply Z.leb_gt; lia)
  | apply Z.ltb_ge in E;
    assert (E1 : (Date.month z <=? 2) = true) by (apply Z.leb_le; lia) ];
  rewrite E1 in *.

Lemma month_day_range (z : date) :
  1 <= Date.month z <= 12 /\ 1 <= Date.day z <= 31.
Proof. calendar z; Z.div_mod_to_equations; lia. Qed.

Lemma anchor_cases (m dd : Z) :
  anchor_ok m dd = true ->
  1 <= dd /\
  ((m = 1 /\ dd <= 31) \/ (m = 2 /\ dd <= 28) \/ (m = 3 /\ dd <= 31)
   \/ (m = 4 /\ dd <= 30) \/ (m = 5 /\ dd <= 31) \/ (m = 6 /\ dd <= 30)
   \/ (m = 7 /\ dd <= 31) \/ (m = 8 /\ dd <= 31) \/ (m = 9 /\ dd <= 30)
   \/ (m = 10 /\ dd <= 31) \/ (m = 11 /\ dd <= 30) \/ (m = 12 /\ dd <= 31)).
Proof.
  unfold anchor_ok. rewrite !andb_true_iff, !Z.leb_le.
  intros [[[H1 H2] H3] H4]. split; [exact H3|].
  assert (Hm : m = 1 \/ m = 2 \/ m = 3 \/ m = 4 \/ m = 5 \/ m = 6 \/ m = 7
               \/ m = 8 \/ m = 9 \/ m = 10 \/ m = 11 \/ m = 12) by lia.
  decompose [or] Hm; subst m; cbn in H4; tauto.
Qed.

(** Where a date lies with respect to a day of its own year. *)
Lemma anchor_position (z : date) (m dd : Z) :
  anchor_ok m dd = true ->
  let k := z - of_ymd (Date.year z) m dd in
  -365 <= k <= 365
  /\ (k = 0 <-> Date.month z = m /\ Date.day z = dd)
  /\ (k < 0 <-> Date.month z < m \/ (Date.month z = m /\ Date.day z < dd)).
Proof.
  intro H. apply anchor_cases in H. destruct H as [Hd Hm]. cbv zeta.
  decompose [or and] Hm; subst m; unfold of_ymd; cbv zeta;
    cbn [Z.leb Z.ltb Z.compare Pos.compare Pos.compare_cont];
    calendar z; Z.div_mod_to_equations; lia.
Qed.

(** X21 ([_days_to_anchor]): for an anchor day that exists in every year,
    the result is a whole number of days between -365 and 365, zero
    exactly on the anchor day, negative exactly on the days of the year
    before it. *)
Theorem days_to_anchor_signed (d : date) (month day : Z) :
  anchor_ok month day = true ->
  exists k,
    _days_to_anchor d month day = of_Z k
    /\ -365 <= k <= 365
    /\ (k = 0 <-> Date.month d = month /\ Date.day d = day)
    /\ (k < 0 <-> Date.month d < month
                  \/ (Date.month d = month /\ Date.day d < day)).
Proof.
  intro H. exists (d - of_ymd (Date.year d) month day).
  split; [reflexivity|]. now apply anchor_position.
Qed.

Section CalendarFeatures.

Context {M : MathLib}.

(** X22 ([build_features]): one row per date, in order, of ten feature
    values; [is_summer] is 1 exactly from 1 July to 31 August,
    [is_winter] is 1 exactly up to 7 January and from 20 December on, of
    the year of the date, and 0 otherwise; never both. *)
Theorem build_features_holiday_flags (dates : list date) :
  map Features.contract_date (build_features dates) = dates
  /\ Forall (fun r =>
       let d := Features.contract_date r in
       let y := Date.year d in
       Features.is_summer r
       = (if (of_ymd y 7 1 <=? d) && (d <=? of_ymd y 8 31) then 1 else 0)
       /\ Features.is_winter r
          = (if (d <=? of_ymd y 1 7) || (of_ymd y 12 20 <=? d) then 1 else 0)
       /\ ~ (Features.is_summer r = 1 /\ Features.is_winter r = 1)
       /\ List.length (Features.vector r) = 10%nat)
     (build_features dates).
Proof.
  split; [apply build_features_dates|].
  apply Forall_forall. intros r Hr. unfold build_features in Hr.
  apply in_map_iff in Hr. destruct Hr as [d [<- _]].
  cbn [features_of_date Features.contract_date Features.is_summer
       Features.is_winter].
  pose proof (month_day_range d) as [Hm Hd].
  pose proof (@anchor_position d 7 1 eq_refl) as [_ [_ H71]].
  pose proof (@anchor_position d 8 31 eq_refl) as [_ [H831 H831']].
  pose proof (@anchor_position d 1 7 eq_refl) as [_ [H17 H17']].
  pose proof (@anchor_position d 12 20 eq_refl) as [_ [_ H1220]].
  set (y := Date.year d) in *.
  set (a := of_ymd y 7 1) in *. set (b := of_ymd y 8 31) in *.
  set (c := of_ymd y 1 7) in *. set (e := of_ymd y 12 20) in *.
  set (m := Date.month d) in *. set (dd := Date.day d) in *.
  split; [|split; [|split; [|reflexivity]]].
  - destruct ((m =? 7) || (m =? 8)) eqn:E1;
      destruct ((a <=? d) && (d <=? b)) eqn:E2; try reflexivity; exfalso;
      rewrite ?orb_true_iff, ?orb_false_iff, ?andb_true_iff, ?andb_false_iff,
        ?Z.eqb_eq, ?Z.eqb_neq, ?Z.leb_le, ?Z.leb_gt in *; lia.
  - destruct (((m =? 12) && (20 <=? dd)) || ((m =? 1) && (dd <=? 7))) eqn:E1;
      destruct ((d <=? c) || (e <=? d)) eqn:E2; try reflexivity; exfalso;
      rewrite ?orb_true_iff, ?orb_false_iff, ?andb_true_iff, ?andb_false_iff,
        ?Z.eqb_eq, ?Z.eqb_neq, ?Z.leb_le, ?Z.leb_gt in *; lia.
  - destruct ((m =? 7) || (m =? 8)) eqn:E1;
      destruct (((m =? 12) && (20 <=? dd)) || ((m =? 1) && (dd <=? 7))) eqn:E2;
      try (intros [? ?]; discriminate).
    exfalso.
    rewrite ?orb_true_iff, ?orb_false_iff, ?andb_true_iff, ?andb_false_iff,
      ?Z.eqb_eq, ?Z.eqb_neq, ?Z.leb_le, ?Z.leb_gt in *; lia.
Qed.

(** X23 ([trends_monthly_multiplier] with [month_multipliers] of
    [fit_gp_with_calendar] and [predict_daily]): a table the builder
    returns has twelve multipliers and serves every date: the multiplier
    of a date is the one of its month (1.0 if that is not finite), the
    default for a missing month is never used. *)
Theorem builder_table_serves_every_date (trends_monthly : list Trends.row)
    (column : Trends.row -> option float) (strength : float)
    (smooth_radius : Z) (table : list Multiplier.row) :
  trends_monthly_multiplier trends_monthly column strength smooth_radius
  = ok table ->
  List.length (multipliers table) = 12%nat
  /\ forall dates,
       month_multipliers dates table
       = map (fun d =>
                let v := nth (Z.to_nat (Date.month d - 1)) (multipliers table) NaN in
                if isfinite v then v else one)
             dates.
Proof.
  intro H.
  destruct (months_fit_int32 trends_monthly) eqn:Hc.
  2: { destruct (@trends_monthly_multiplier_cast_err _ _ column strength
                   smooth_radius Hc) as [e [He _]].
       rewrite He in H. discriminate. }
  destruct (provided_values column trends_monthly) as [|v0 vs] eqn:E.
  { destruct (filled_values_none column trends_monthly E) as [e [He _]].
    unfold trends_monthly_multiplier in H.
    rewrite cast_int32_months, Hc, bind_ret, He in H. discriminate. }
  assert (Hne : provided_values column trends_monthly <> []) by congruence.
  pose proof (filled_values_spec column trends_monthly Hne) as Hv.
  rewrite (@trends_monthly_multiplier_ok _ _ _ strength smooth_radius _
             Hc Hv) in H by now rewrite length_map.
  set (vals := profile_values strength smooth_radius
                 (map (filled_value_spec column trends_monthly) (arange 1 13)))
    in H.
  assert (Ht : table = map multiplier_row (combine (arange 1 13) vals))
    by (unfold ok in H; congruence).
  subst table. clear H.
  assert (Hl : List.length vals = 12%nat)
    by (apply length_profile_values; now rewrite length_map).
  destruct (multiplier_rows vals Hl) as [Hmonths Hmult].
  rewrite Hmult. split; [exact Hl|]. intro dates.
  assert (HK : keyed Multiplier.month
                 (map multiplier_row (combine (arange 1 13) vals))).
  { unfold keyed. rewrite Hmonths. vm_compute. repeat constructor; cbn; intuition lia. }
  rewrite (month_multipliers_keyed dates HK). apply map_ext. intro d.
  unfold multiplier_of, lookup.
  pose proof (month_day_range d) as [Hm _].
  clearbody vals.
  do 12 (destruct vals as [|? vals]; [discriminate|]).
  destruct vals; [|discriminate].
  assert (Hcases : Date.month d = 1 \/ Date.month d = 2 \/ Date.month d = 3
               \/ Date.month d = 4 \/ Date.month d = 5 \/ Date.month d = 6
               \/ Date.month d = 7 \/ Date.month d = 8 \/ Date.month d = 9
               \/ Date.month d = 10 \/ Date.month d = 11 \/ Date.month d = 12)
    by lia.
  decompose [or] Hcases;
    match goal with H : Date.month d = _ |- _ => rewrite H end;
    reflexivity.
Qed.

End CalendarFeatures.

(* ================================================================== *)
(** * Deseasonalize, then reseasonalize *)
(* ================================================================== *)

Lemma div_mul_round_trip (a k : Q) :
  ((Fin a / Fin k) * Fin k)%float
  = if Qeq_bool k 0 then NaN else Fin (a / k * k).
Proof.
  cbn [div]. destruct (Qeq_bool k 0) eqn:E; [|reflexivity].
  apply Qeq_bool_iff in E.
  assert (Hk : Qsgn k = 0).
  { unfold Qsgn. destruct k as [n d]. unfold Qeq in E. cbn in *.
    assert (n = 0) by lia. now subst. }
  unfold inf_of_sign. destruct (Qsgn a); cbn [mul sign]; rewrite ?Hk; reflexivity.
Qed.

Section RoundTrip.

Context {M : MathLib} {SK : SkLearn}.

(** X24 ([fit_gp_with_calendar], [predict_daily]): multiplying the
    deseasonalized targets by the multipliers of their dates, as the
    Predictor does with its means, does not undo a zero multiplier: there
    the product is NaN.  Where the multiplier is 1.0 (also for a missing
    or non-finite one) the product is the weekly value. *)
Theorem reseasonalizing_the_targets (df : list Model.row)
    (month_mult : list Multiplier.row) :
  keyed Multiplier.month month_mult ->
  exists feats y back,
    training_targets df (Some month_mult) = ok (feats, y)
    /\ np_binop mul y
         (month_multipliers (map Features.contract_date feats) month_mult)
       = ok back
    /\ Forall2 (fun w b =>
         let k := multiplier_of month_mult (Weekly.contract_date w) in
         ((k =? zero)%float = true -> b = NaN)
         /\ (k = one -> same b (Weekly.registration_time w)))
       (weekly_rows df) back.
Proof.
  intro HK.
  exists (build_features (map Weekly.contract_date (weekly_rows df))),
         (map (deseasonalized month_mult) (weekly_rows df)).
  eexists. split; [now apply training_targets_keyed|].
  rewrite build_features_dates, (month_multipliers_keyed _ HK), map_map.
  rewrite np_binop_same_length by now rewrite !length_map.
  rewrite zip_with_map. split; [reflexivity|].
  pose proof (weekly_finite (sort Model.contract_date Z.leb df)) as Hf.
  fold (weekly_rows df) in Hf.
  induction Hf as [|w ws Hw _ IH]; cbn [map]; constructor; [|exact IH].
  unfold deseasonalized. cbn zeta.
  destruct (Weekly.registration_time w) as [a| | |]; try discriminate.
  split.
  - destruct (multiplier_of month_mult (Weekly.contract_date w)) as [k| | |];
      try discriminate.
    unfold zero. cbn [eqb]. intro E. rewrite div_mul_round_trip. now rewrite E.
  - intros ->. unfold one. rewrite div_mul_round_trip.
    change (Qeq_bool 1 0) with false. cbn [same]. field.
Qed.

End RoundTrip.

(* ================================================================== *)
(** * The statistics *)
(* ================================================================== *)



Lemma Zsum_Permutation (l l' : list Z) : Permutation l l' -> Zsum l = Zsum l'.
Proof.
  unfold Zsum. induction 1; cbn [fold_right]; lia.
Qed.

Lemma fold_left_max (ds : list Z) (d : Z) :
  In (fold_left Z.max ds d) (d :: ds)
  /\ forall x, In x (d :: ds) -> x <= fold_left Z.max ds d.
Proof.
  revert d. induction ds as [|a ds IH]; intro d; cbn [fold_left].
  - split; [now left | intros x [<-|[]]; lia].
  - destruct (IH (Z.max d a)) as [H1 H2]. split.
    + destruct H1 as [H1|H1]; [|right; now right].
      rewrite <- H1.
      destruct (Z.max_spec d a) as [[_ E]|[_ E]]; rewrite E;
        [right; left | left]; reflexivity.
    + intros x Hx.
      assert (Hm : Z.max d a <= fold_left Z.max ds (Z.max d a))
        by (apply H2; now left).
      destruct Hx as [<-|[<-|Hx]]; [lia | lia | apply H2; now right].
Qed.

Lemma col_min_max (l : list (option Z)) :
  match col_min l, col_max l with
  | Some lo, Some hi =>
      In lo (non_null l) /\ In hi (non_null l)
      /\ forall v, In v (non_null l) -> lo <= v <= hi
  | None, None => non_null l = []
  | _, _ => False
  end.
Proof.
  unfold col_min, col_max. destruct (non_null l) as [|v vs]; [reflexivity|].
  destruct (fold_left_min vs v) as [H1 H2].
  destruct (fold_left_max vs v) as [H3 H4].
  split; [exact H1|]. split; [exact H3|]. intros x Hx. split; auto.
Qed.

Lemma col_median_range (l : list (option Z)) (lo hi : Z) (med : float) :
  (forall v, In v (non_null l) -> lo <= v <= hi) ->
  col_median l = Some med ->
  exists q, med = Fin q /\ (inject_Z lo <= q <= inject_Z hi)%Q.
Proof.
  intros Hb. unfold col_median.
  set (vs := sort (fun v => v) Z.leb (non_null l)).
  assert (Hvs : forall i, (i < List.length vs)%nat -> lo <= nth i vs 0 <= hi).
  { intros i Hi. apply Hb.
    apply (Permutation_in (l := vs));
      [apply sort_Permutation | now apply nth_In]. }
  destruct vs as [|v0 vs'] eqn:E; [discriminate|]. rewrite <- E in *.
  assert (Hn : (0 < List.length vs)%nat) by (rewrite E; cbn [List.length]; lia).
  destruct (Nat.even (List.length vs)) eqn:Ev; intros [= <-].
  - apply Nat.even_spec in Ev. destruct Ev as [k Hk].
    assert (Hd : (List.length vs / 2 = k)%nat)
      by (rewrite Hk, Nat.mul_comm; apply Nat.div_mul; lia).
    change (List.length vs / 2)%nat
      with (fst (Nat.divmod (List.length vs) 1 0 1)) in Hd.
    rewrite Hd.
    pose proof (Hvs (k - 1)%nat ltac:(lia)) as H1.
    pose proof (Hvs k ltac:(lia)) as H2.
    eexists. split; [reflexivity|].
    destruct H1 as [H1a H1b], H2 as [H2a H2b].
    rewrite Zle_Qle in H1a, H1b, H2a, H2b.
    split.
    + apply Qle_shift_div_l; lra.
    + apply Qle_shift_div_r; lra.
  - assert (Hi : (List.length vs / 2 < List.length vs)%nat)
      by (apply Nat.div_lt; lia).
    pose proof (Hvs _ Hi) as [H1 H2].
    rewrite Zle_Qle in H1, H2.
    change (List.length vs / 2)%nat
      with (fst (Nat.divmod (List.length vs) 1 0 1)) in H1, H2.
    eexists. split; [reflexivity|].
    split; assumption.
Qed.

Lemma non_null_map_Some {A B} (f : A -> B) (l : list (option A)) :
  non_null (map (option_map f) l) = map f (non_null l).
Proof.
  induction l as [|[x|] l IH]; cbn [map option_map non_null];
    [reflexivity | now rewrite IH | exact IH].
Qed.

Lemma col_mean_Some (col : list (option float)) (m : float) :
  col_mean col = Some m -> non_null col <> [] /\ m = np_mean (non_null col).
Proof.
  unfold col_mean, np_mean. destruct (non_null col); [discriminate|].
  intro H. split; [discriminate | congruence].
Qed.

Lemma col_mean_range (zs : list Z) (col : list (option float)) (lo hi : Z)
    (m : float) :
  non_null col = map of_Z zs ->
  (forall v, In v zs -> lo <= v <= hi) ->
  col_mean col = Some m ->
  exists q, m = Fin q /\ (inject_Z lo <= q <= inject_Z hi)%Q.
Proof.
  intros Hc Hb Hm. apply col_mean_Some in Hm. destruct Hm as [Hne ->].
  rewrite Hc in *.
  assert (Hz : zs <> []) by (intro E; rewrite E in Hne; now apply Hne).
  rewrite map_of_Z, np_mean_Fin
    by (destruct zs; [congruence | discriminate]).
  rewrite length_map.
  assert (Hf : Forall (fun z => lo <= z <= hi) zs) by now apply Forall_forall.
  destruct (Qsum_inject_bounds Hf) as [H1 H2].
  assert (Hn : (0 < inject_Z (Z.of_nat (List.length zs)))%Q).
  { rewrite <- (Zlt_Qlt 0). destruct zs; [congruence | cbn [List.length]; lia]. }
  eexists. split; [reflexivity|]. split.
  - apply Qle_shift_div_l; [exact Hn | lra].
  - apply Qle_shift_div_r; [exact Hn | lra].
Qed.

Lemma count_cons {A K} (eqb : K -> K -> bool)
    (eqb_eq : forall a b, eqb a b = true <-> a = b) (key : A -> K)
    (ks : list K) (x : A) (l : list A) :
  NoDup ks ->
  Zsum (map (fun k => Z.of_nat (List.length
                        (filter (fun y => eqb (key y) k) (x :: l)))) ks)
  = Zsum (map (fun k => Z.of_nat (List.length
                          (filter (fun y => eqb (key y) k) l))) ks)
    + (if existsb (eqb (key x)) ks then 1 else 0).
Proof.
  unfold Zsum. induction 1 as [|k ks Hk Hnd IH]; [reflexivity|].
  cbn [map fold_right existsb]. rewrite IH. cbn [filter].
  destruct (eqb (key x) k) eqn:E; cbn [orb List.length].
  - apply eqb_eq in E. subst k.
    destruct (existsb (eqb (key x)) ks) eqn:Ex.
    + apply (existsb_eqb eqb eqb_eq) in Ex. contradiction.
    + lia.
  - lia.
Qed.

Lemma count_partition {A K} (eqb : K -> K -> bool)
    (eqb_eq : forall a b, eqb a b = true <-> a = b) (key : A -> K)
    (ks : list K) (l : list A) :
  NoDup ks -> (forall x, In x l -> In (key x) ks) ->
  Zsum (map (fun k => Z.of_nat (List.length (filter (fun x => eqb (key x) k) l))) ks)
  = Z.of_nat (List.length l).
Proof.
  intros Hnd. induction l as [|x l IH]; intro Hin.
  - clear. unfold Zsum. induction ks as [|k ks IHk]; [reflexivity|].
    cbn [map fold_right]. rewrite IHk. reflexivity.
  - rewrite (count_cons eqb eqb_eq key x l Hnd).
    rewrite IH by (intros y Hy; apply Hin; now right).
    assert (Hx : existsb (eqb (key x)) ks = true)
      by (apply (existsb_eqb eqb eqb_eq); apply Hin; now left).
    rewrite Hx. cbn [List.length]. lia.
Qed.

Lemma compute_stats_unsorted (df : list Rented.row) :
  exists pre,
    Permutation (compute_stats df) pre
    /\ map (fun s => (Stats.city s, Stats.type_of_room s)) pre
       = unique pair_eqb (fun k => k) (map group_of df)
    /\ Forall (fun s =>
         let rows := filter (fun r => pair_eqb (group_of r)
                                        (Stats.city s, Stats.type_of_room s)) df in
         let registration_time :=
           map (fun r => Listing.registration_time (Rented.listing r)) rows in
         rows <> []
         /\ Stats.count s = Z.of_nat (List.length rows)
         /\ Stats.median_reg_days s = col_median registration_time
         /\ Stats.mean_reg_days s = col_mean (as_float registration_time)
         /\ Stats.min_reg_days s = col_min registration_time
         /\ Stats.max_reg_days s = col_max registration_time
         /\ Stats.median_reactions s
            = col_median (map Rented.num_reactions rows)
         /\ Stats.pct_priority s
            = option_map (fun v => v * f_100)%float
                (col_mean (bool_as_float (map Rented.priority rows))))
       pre.
Proof.
  unfold compute_stats. fold group_of.
  eexists. split; [apply sort_Permutation|]. split.
  - rewrite map_map. cbn [Stats.city Stats.type_of_room].
    rewrite <- (map_id (unique _ _ _)) at 2. apply map_ext. now intros [c t].
  - apply Forall_forall. intros s Hs. apply in_map_iff in Hs.
    destruct Hs as [[c t] [<- Hk]].
    cbn [Stats.city Stats.type_of_room Stats.count Stats.median_reg_days
         Stats.mean_reg_days Stats.min_reg_days Stats.max_reg_days
         Stats.median_reactions Stats.pct_priority fst snd].
    split; [|repeat split].
    apply (proj1 (unique_In pair_eqb pair_eqb_eq _ _)) in Hk.
    apply in_map_iff in Hk. destruct Hk as [r [Hr Hin]].
    intro E.
    assert (Hf : In r (filter (fun r => pair_eqb (group_of r) (c, t)) df)).
    { apply filter_In. split; [exact Hin | now apply pair_eqb_eq]. }
    rewrite E in Hf. destruct Hf.
Qed.

(** X25 ([compute_stats]): one row per (city, type of room) of the table,
    in ascending order and none twice; [count] is the number of listings
    of the group, at least 1, and the counts add up to the number of
    listings. *)
Theorem compute_stats_groups (df : list Rented.row) :
  let groups := map (fun s => (Stats.city s, Stats.type_of_room s))
                    (compute_stats df) in
  Sorted (fun a b => pair_leb a b = true) groups
  /\ NoDup groups
  /\ (forall k, In k groups <-> In k (map group_of df))
  /\ Forall (fun s =>
       1 <= Stats.count s
       /\ Stats.count s
          = Z.of_nat (List.length
              (filter (fun r => pair_eqb (group_of r)
                                  (Stats.city s, Stats.type_of_room s)) df)))
       (compute_stats df)
  /\ Zsum (map Stats.count (compute_stats df)) = Z.of_nat (List.length df).
Proof.
  cbn zeta.
  destruct (compute_stats_unsorted df) as [pre [HP [Hkeys Hrows]]].
  assert (HPk : Permutation
                  (map (fun s => (Stats.city s, Stats.type_of_room s))
                       (compute_stats df))
                  (unique pair_eqb (fun k => k) (map group_of df))).
  { rewrite <- Hkeys. now apply Permutation_map. }
  assert (Hnd : NoDup (unique pair_eqb (fun k => k) (map group_of df))).
  { pose proof (unique_NoDup pair_eqb pair_eqb_eq (fun c => c)
                  (map group_of df)) as H.
    now rewrite map_id in H. }
  split; [|split; [|split; [|split]]].
  - unfold compute_stats.
    apply (Sorted_map (fun s => (Stats.city s, Stats.type_of_room s))).
    apply (sort_Sorted (fun s => (Stats.city s, Stats.type_of_room s))
             pair_leb pair_leb_total).
  - eapply Permutation_NoDup; [apply Permutation_sym, HPk | exact Hnd].
  - intro k. rewrite <- (unique_In pair_eqb pair_eqb_eq (map group_of df) k).
    split; apply Permutation_in; [|apply Permutation_sym]; exact HPk.
  - eapply Permutation_Forall; [apply Permutation_sym, HP|].
    eapply Forall_impl; [|exact Hrows].
    intros s [Hne [Hc _]]. cbn zeta in *. split; [|exact Hc].
    rewrite Hc.
    destruct (filter _ df); [congruence | cbn [List.length]; lia].
  - rewrite (Zsum_Permutation (Permutation_map Stats.count HP)).
    rewrite <- (@count_partition _ _ pair_eqb pair_eqb_eq group_of _ df Hnd)
      by (intros x Hx; apply (unique_In pair_eqb pair_eqb_eq);
          now apply in_map).
    rewrite <- Hkeys, map_map. f_equal.
    apply map_ext_in. intros s Hs.
    rewrite Forall_forall in Hrows. now destruct (Hrows s Hs) as [_ [Hc _]].
Qed.

(** X26 ([compute_stats]): in every row the minimum and maximum are both
    null or both set; when set, every registration time of the group lies
    between them, the median and the mean are set, and they lie between
    the minimum and the maximum when the times of the group are small
    enough to add up without rounding in float64; [pct_priority], when
    set, lies between 0 and 100. *)
Theorem compute_stats_ranges (df : list Rented.row) :
  Forall (fun s =>
       match Stats.min_reg_days s, Stats.max_reg_days s with
       | Some lo, Some hi =>
           lo <= hi
           /\ (forall r, In r df -> group_of r = (Stats.city s, Stats.type_of_room s) ->
               forall v, Listing.registration_time (Rented.listing r) = Some v ->
                         lo <= v <= hi)
           /\ (exists med, Stats.median_reg_days s = Some med
                 /\ (sums_exactly (Stats.count s) lo hi ->
                     (of_Z lo <=? med)%float = true
                     /\ (med <=? of_Z hi)%float = true))
           /\ (exists mean, Stats.mean_reg_days s = Some mean
                 /\ (sums_exactly (Stats.count s) lo hi ->
                     (of_Z lo <=? mean)%float = true
                     /\ (mean <=? of_Z hi)%float = true))
       | None, None =>
           Stats.median_reg_days s = None /\ Stats.mean_reg_days s = None
       | _, _ => False
       end
       /\ (forall p, Stats.pct_priority s = Some p ->
             (zero <=? p)%float = true /\ (p <=? f_100)%float = true))
     (compute_stats df).
Proof.
  destruct (compute_stats_unsorted df) as [pre [HP [_ Hrows]]].
  eapply Permutation_Forall; [apply Permutation_sym, HP|].
  eapply Forall_impl; [|exact Hrows].
  intros s [Hne [_ [Hmed [Hmean [Hmin [Hmax [_ Hpct]]]]]]]. cbn zeta in *.
  set (rows := filter (fun r => pair_eqb (group_of r)
                                  (Stats.city s, Stats.type_of_room s)) df) in *.
  set (col := map (fun r => Listing.registration_time (Rented.listing r)) rows) in *.
  split.
  - pose proof (col_min_max col) as Hmm. rewrite <- Hmin, <- Hmax in Hmm.
    destruct (Stats.min_reg_days s) as [lo|], (Stats.max_reg_days s) as [hi|];
      try contradiction.
    + destruct Hmm as [Hlo [Hhi Hb]].
      split; [apply (Hb lo Hlo)|]. split.
      * intros r Hr Hg v Hv. apply Hb.
        assert (Hin : In (Some v) col).
        { unfold col. rewrite <- Hv. apply in_map_iff. exists r. split; [reflexivity|].
          apply filter_In. split; [exact Hr | now apply pair_eqb_eq]. }
        clear -Hin. induction col as [|[x|] col IH]; cbn [non_null];
          [destruct Hin | |].
        -- destruct Hin as [[= ->]|Hin]; [now left | right; auto].
        -- destruct Hin as [Hin|Hin]; [discriminate | auto].
      * assert (Hnn : non_null col <> []) by (intro E; rewrite E in Hlo; destruct Hlo).
        split.
        -- destruct (col_median col) as [med|] eqn:Em.
           ++ destruct (col_median_range col Hb Em) as [q [-> [H1 H2]]].
              exists (Fin q). split; [exact Hmed|]. intros _.
              unfold of_Z. split; now apply leb_Fin.
           ++ exfalso. unfold col_median in Em.
              pose proof (sort_Permutation (fun v : Z => v) Z.leb (non_null col)) as Hp.
              destruct (sort (fun v : Z => v) Z.leb (non_null col)) eqn:Es.
              ** apply Permutation_nil in Hp. contradiction.
              ** destruct (Nat.even _); discriminate.
        -- destruct (col_mean (as_float col)) as [mean|] eqn:Em.
           ++ assert (Hc : non_null (as_float col) = map of_Z (non_null col))
                by apply non_null_map_Some.
              destruct (@col_mean_range _ _ _ _ _ Hc Hb Em) as [q [-> [H1 H2]]].
              exists (Fin q). split; [exact Hmean|]. intros _.
              unfold of_Z. split; now apply leb_Fin.
           ++ exfalso. unfold col_mean, as_float in Em.
              rewrite non_null_map_Some in Em.
              destruct (non_null col); [congruence | discriminate].
    + rewrite Hmed, Hmean. unfold col_median, col_mean, as_float.
      rewrite non_null_map_Some, Hmm. split; reflexivity.
  - intros p Hp. rewrite Hpct in Hp.
    destruct (col_mean (bool_as_float (map Rented.priority rows))) as [m|] eqn:Em;
      [|discriminate].
    injection Hp as <-.
    assert (Hc : non_null (bool_as_float (map Rented.priority rows))
                 = map of_Z (map (fun b : bool => if b then 1 else 0)
                               (non_null (map Rented.priority rows)))).
    { unfold bool_as_float. rewrite non_null_map_Some, map_map.
      apply map_ext. now intros []. }
    assert (Hb : forall v, In v (map (fun b : bool => if b then 1 else 0)
                                   (non_null (map Rented.priority rows))) ->
                           0 <= v <= 1).
    { intros v Hv. apply in_map_iff in Hv. destruct Hv as [[] [<- _]]; lia. }
    destruct (@col_mean_range _ _ _ _ _ Hc Hb Em) as [q [-> [H1 H2]]].
    unfold f_100, zero. cbn [mul]. change (inject_Z 0) with 0%Q in H1.
    change (inject_Z 1) with 1%Q in H2.
    split; apply leb_Fin; lra.
Qed.

(* ================================================================== *)
(** * Concrete runs of the further properties *)
(* ================================================================== *)

(** X6, witness: the interval [500, 700] and the target 550, a quarter of
    the way. *)
Lemma ci_pct_is_the_position_in_the_interval_witness :
  (500 < 700)%Q
  /\ (let r := @score_row Reference.math (finite_row d_2024_01_01 600 500 700)
                 (Fin 550) at_least in
      @add_prob_good_enough Reference.math
        [finite_row d_2024_01_01 600 500 700] (fun _ => Fin 550) at_least
      = ok [r]
      /\ ((550 <= 500)%Q -> same (Scored.ci_pct r) (Fin 0))
      /\ ((700 <= 550)%Q -> same (Scored.ci_pct r) (Fin 100))
      /\ ((500 <= 550 <= 700)%Q ->
          same (Scored.ci_pct r) (Fin (100 * (550 - 500) / (700 - 500))))).
Proof.
  split; [reflexivity|].
  apply (@ci_pct_is_the_position_in_the_interval Reference.math
           d_2024_01_01 600 500 700 550 at_least).
  reflexivity.
Defined.

(** X7, witness: the interval [500, 500] and the target 400. *)
Lemma ci_pct_on_a_degenerate_interval_witness :
  let r := @score_row Reference.math (finite_row d_2024_01_01 500 500 500)
             (Fin 400) at_least in
  @add_prob_good_enough Reference.math
    [finite_row d_2024_01_01 500 500 500] (fun _ => Fin 400) at_least
  = ok [r]
  /\ ((400 < 500)%Q -> same (Scored.ci_pct r) (Fin 0))
  /\ ((500 < 400)%Q -> same (Scored.ci_pct r) (Fin 100)).
Proof.
  apply (@ci_pct_on_a_degenerate_interval Reference.math
           d_2024_01_01 500 500 500 400 at_least).
  - reflexivity.
  - intro H. vm_compute in H. discriminate.
Defined.

(** X10, witness: the three months and two rows of other months. *)
Lemma trends_monthly_multiplier_ignores_other_months_witness :
  @trends_monthly_multiplier Reference.math
    (filter month_in_range (trend 13 7 :: trend 0 3 :: three_months))
    Trends.value_mean one 1
  = @trends_monthly_multiplier Reference.math
      (trend 13 7 :: trend 0 3 :: three_months) Trends.value_mean one 1.
Proof.
  apply (@trends_monthly_multiplier_ignores_other_months Reference.math
           (trend 13 7 :: trend 0 3 :: three_months) Trends.value_mean one 1).
  reflexivity.
Defined.

Lemma keyed_three_months : keyed Trends.month three_months.
Proof.
  unfold keyed. cbn. repeat constructor; cbn; intuition discriminate.
Defined.

(** X11, witness: the table of three months, and the same rows in reverse
    order. *)
Lemma trends_monthly_multiplier_row_order_witness :
  @trends_monthly_multiplier Reference.math three_months Trends.value_mean
    one 1
  = @trends_monthly_multiplier Reference.math (rev three_months)
      Trends.value_mean one 1.
Proof.
  apply (@trends_monthly_multiplier_row_order Reference.math three_months
           (rev three_months) Trends.value_mean one 1).
  - exact keyed_three_months.
  - apply Permutation_rev.
Defined.

(** X13, witness: the values 100, 50 and 75, smoothed with radius 1. *)
Lemma trends_monthly_multiplier_positive_witness :
  exists rows,
    @trends_monthly_multiplier Reference.math three_months Trends.value_mean
      one 1
    = ok rows
    /\ Forall (fun v => exists q, v = Fin q /\ (0 < q)%Q) (multipliers rows).
Proof.
  apply (@trends_monthly_multiplier_positive Reference.math three_months
           Trends.value_mean one 1 [100; 50; 75]%Q).
  - reflexivity.
  - reflexivity.
  - vm_compute; reflexivity.
  - discriminate.
  - repeat (apply Forall_cons; [split; vm_compute; discriminate|]).
    apply Forall_nil.
Defined.

(** X14, witness: fitting the three observations, two weeks. *)
Lemma fit_gp_with_calendar_returns_witness :
  exists gp scaler x_train,
    @fit_gp_with_calendar Reference.math Reference.sklearn
      three_observations None
    = ok (gp, scaler, x_train)
    /\ exists x y,
         let feats :=
           @build_features Reference.math
             (map Weekly.contract_date (weekly_rows three_observations)) in
         @training_targets Reference.math three_observations None
         = ok (feats, y)
         /\ @fit_transform Reference.sklearn (map Features.vector feats)
            = ok (scaler, x)
         /\ @gp_fit Reference.sklearn kernel_params x y = ok gp
         /\ map Train.features x_train = feats
         /\ map Train.y_deseasonal x_train = y
         /\ List.length x_train
            = List.length (weekly_rows three_observations).
Proof.
  destruct (@fit_gp_with_calendar Reference.math Reference.sklearn
              three_observations None) as [e|[[gp scaler] x_train]] eqn:E.
  - vm_compute in E. discriminate.
  - exists gp, scaler, x_train. split; [reflexivity|].
    exact (@fit_gp_with_calendar_returns Reference.math Reference.sklearn
             three_observations None gp scaler x_train E).
Defined.

(** X16, witness: the last three days of 2025, with the July-only table. *)
Lemma predict_daily_rows_follow_the_range_witness :
  exists rows,
    @predict_daily Reference.math Reference.sklearn (constant_model 10 1)
      fitted_scaler (d_2025_07_01 + 181) (d_2025_07_01 + 183) (Some july_only)
    = ok rows
    /\ map Prediction.contract_date rows
       = date_range (d_2025_07_01 + 181) (d_2025_07_01 + 183)
    /\ Z.of_nat (List.length rows)
       = Z.max 0 (d_2025_07_01 + 183 - (d_2025_07_01 + 181) + 1)
    /\ Forall (fun r =>
         exists t,
           Prediction.pred_lo r = maximum (Prediction.pred_mean r - t) zero
           /\ Prediction.pred_hi r = (Prediction.pred_mean r + t)%float)
       rows.
Proof.
  eexists. split; [vm_compute; reflexivity|].
  apply (@predict_daily_rows_follow_the_range Reference.math Reference.sklearn
           (constant_model 10 1) fitted_scaler (d_2025_07_01 + 181)
           (d_2025_07_01 + 183) (Some july_only)).
  vm_compute; reflexivity.
Defined.

(** X17, witness: twenty listings from 2024 on and a run whose range ends
    in 2022: the fit succeeds, the Predictor raises ValueError on the empty
    range, and the run fails with it. *)
Lemma only_the_fit_is_guarded_witness :
  ~ small twenty_listings
  /\ exists e,
       exn_class e = "ValueError"%string
       /\ @_fit_and_predict Reference.math Reference.sklearn 19000
            twenty_listings 0 None None = inl e
       /\ forall after results,
            @extend_all Reference.math Reference.sklearn 19000 results 0
              ((twenty_listings, None, None) :: after) = inl e.
Proof.
  assert (Hbig : ~ small twenty_listings)
    by (intro H; vm_compute in H; discriminate).
  split; [exact Hbig|].
  destruct (@only_the_fit_is_guarded Reference.math Reference.sklearn 19000
              twenty_listings 0 None None Hbig) as [_ H].
  destruct (@fit_gp_with_calendar Reference.math Reference.sklearn
              (drop_nulls twenty_listings) None)
    as [e|[[gp scaler] x_train]] eqn:E.
  - vm_compute in E. discriminate.
  - eexists. split; [|apply and_comm; split].
    2: { intros after results.
         refine (proj2 (H gp scaler x_train d_2024_01_01 _ eq_refl eq_refl _)
                   [] after results (Forall_nil _)).
         vm_compute. reflexivity. }
    + reflexivity.
    + refine (proj1 (H gp scaler x_train d_2024_01_01 _ eq_refl eq_refl _)).
      vm_compute. reflexivity.
Defined.

(** X18, witness: the twenty listings, predicted up to the day after the
    last of them. *)
Lemma fit_and_predict_rows_witness :
  exists rows,
    @_fit_and_predict Reference.math Reference.sklearn (d_2024_01_01 + 133)
      twenty_listings 1 (Some "Delft"%string) None
    = ok rows
    /\ Forall (fun r => Output.city r = Some "Delft"%string
                        /\ Output.type_of_room r = None) rows
    /\ (rows = []
        \/ exists start,
             (forall r d v, In r twenty_listings ->
                Listing.contract_date r = Some d ->
                Listing.registration_time r = Some v -> start <= d)
             /\ map Output.contract_date rows
                = map to_utf8 (date_range start (d_2024_01_01 + 133 + 1))
             /\ MIN_ROWS_FOR_GP
                <= Z.of_nat (List.length (drop_nulls twenty_listings))).
Proof.
  destruct (@_fit_and_predict Reference.math Reference.sklearn
              (d_2024_01_01 + 133) twenty_listings 1 (Some "Delft"%string) None)
    as [e|rows] eqn:E.
  - vm_compute in E. discriminate.
  - exists rows. split; [reflexivity|].
    exact (@fit_and_predict_rows Reference.math Reference.sklearn
             (d_2024_01_01 + 133) twenty_listings 1 (Some "Delft"%string) None
             rows E).
Defined.

(** X21, witness: 2025-07-01 is 62 days before the first of September. *)
Lemma days_to_anchor_signed_witness :
  exists k,
    _days_to_anchor d_2025_07_01 9 1 = of_Z k
    /\ -365 <= k <= 365
    /\ (k = 0 <-> Date.month d_2025_07_01 = 9 /\ Date.day d_2025_07_01 = 1)
    /\ (k < 0 <-> Date.month d_2025_07_01 < 9
                  \/ (Date.month d_2025_07_01 = 9 /\ Date.day d_2025_07_01 < 1)).
Proof.
  apply (days_to_anchor_signed d_2025_07_01 9 1). reflexivity.
Defined.

(** X23, witness: the table built from three months. *)
Lemma builder_table_serves_every_date_witness :
  exists table,
    @trends_monthly_multiplier Reference.math three_months Trends.value_mean
      one 0
    = ok table
    /\ List.length (multipliers table) = 12%nat
    /\ forall dates,
         month_multipliers dates table
         = map (fun d =>
                  let v := nth (Z.to_nat (Date.month d - 1))
                               (multipliers table) NaN in
                  if isfinite v then v else one)
               dates.
Proof.
  eexists. split; [vm_compute; reflexivity|].
  apply (@builder_table_serves_every_date Reference.math three_months
           Trends.value_mean one 0).
  vm_compute; reflexivity.
Defined.

(** X24, witness: the three observations and the table with a zero
    multiplier for February. *)
Lemma reseasonalizing_the_targets_witness :
  exists feats y back,
    @training_targets Reference.math three_observations
      (Some january_nan_february_zero)
    = ok (feats, y)
    /\ np_binop mul y
         (month_multipliers (map Features.contract_date feats)
            january_nan_february_zero)
       = ok back
    /\ Forall2 (fun w b =>
         let k := multiplier_of january_nan_february_zero
                    (Weekly.contract_date w) in
         ((k =? zero)%float = true -> b = NaN)
         /\ (k = one -> same b (Weekly.registration_time w)))
       (weekly_rows three_observations) back.
Proof.
  apply (@reseasonalizing_the_targets Reference.math three_observations
           january_nan_february_zero).
  exact keyed_january_nan_february_zero.
Defined.
